(** * Analysis-Agent: chunker, tool registry, ReAct orchestrator, vector store

    A shallow embedding of the Python sources
      - [src/ingestion/chunker.py]   (module [Chunking])
      - [src/tools/base.py]          (modules [Tool] and [ToolRegistry])
      - [src/tools/calculator.py]    (module [CalculatorTool])
      - [src/agent/orchestrator.py]  (module [Agent])
      - [src/agent/simple_agent.py]  (module [SimpleAgent])
      - [src/index/vector_store.py]  (module [VectorStore])
      - [src/tools/retrieval.py]     (module [RetrievalTool])
      - [src/ingestion/loader.py]    (module [Loader])
      - [src/interface/session.py]   (module [Session])
    followed by the properties of the specification that concern them and
    by further properties of the code.
    What these sources call outside the repository (the reasoning-service
    client, [json.loads], [eval], the ChromaDB collection, [str.lower],
    the clock, the formatting of floats) is a parameter of the functions
    that call it.

    Conventions.  A Python [str] is a list of Unicode code points, so that
    [len] is [length] and the whitespace class of [str.strip] and of the
    regular expression [\s] is a predicate on code points.  Python integers
    are [Z], and a Python [float] is a binary64 number, with the arithmetic
    and the comparisons of the format.  A call that may raise returns a
    [result], or an [outcome] when it runs code that may raise anything. *)

From Stdlib Require Import ZArith Ascii String Lia Sorting.Sorted Floats.
From stdpp Require Import base decidable option list countable gmap.

Set Warnings "-register-all,-inexact-float".
Local Open Scope Z_scope.

(** ** Python strings *)

Module PyStr.

Abbreviation codepoint := N (only parsing).
Abbreviation pystr := (list N) (only parsing).

(** Decoding of a UTF-8 source literal into code points. *)
Fixpoint utf8_go (pending : nat) (acc : N) (bs : list N) : pystr :=
  match bs with
  | [] => []
  | b :: rest =>
      match pending with
      | O =>
          if (b <? 0x80)%N then b :: utf8_go 0 0%N rest
          else if (b <? 0xE0)%N then utf8_go 1 (N.land b 0x1F) rest
          else if (b <? 0xF0)%N then utf8_go 2 (N.land b 0x0F) rest
          else utf8_go 3 (N.land b 0x07) rest
      | S O => (acc * 64 + N.land b 0x3F)%N :: utf8_go 0 0%N rest
      | S p => utf8_go p (acc * 64 + N.land b 0x3F)%N rest
      end
  end.

Definition py (s : string) : pystr :=
  utf8_go 0 0%N (map N_of_ascii (list_ascii_of_string s)).

Definition len (s : pystr) : Z := Z.of_nat (length s).

(** [str.isspace] on one character, which is also the class [\s] of [re]
    for [str] patterns. *)
Definition isspace (c : codepoint) : bool :=
  ((0x09 <=? c) && (c <=? 0x0D) || (0x1C <=? c) && (c <=? 0x20)
   || (c =? 0x85) || (c =? 0xA0) || (c =? 0x1680)
   || (0x2000 <=? c) && (c <=? 0x200A)
   || (c =? 0x2028) || (c =? 0x2029) || (c =? 0x202F) || (c =? 0x205F)
   || (c =? 0x3000))%N.

Fixpoint lstrip (s : pystr) : pystr :=
  match s with
  | c :: rest => if isspace c then lstrip rest else s
  | [] => []
  end.

Definition rstrip (s : pystr) : pystr := rev (lstrip (rev s)).

(** [s.strip()] *)
Definition strip (s : pystr) : pystr := rstrip (lstrip s).

(** [s.rstrip(ch)] for a one-character argument. *)
Fixpoint lstrip_char (ch : codepoint) (s : pystr) : pystr :=
  match s with
  | c :: rest => if (c =? ch)%N then lstrip_char ch rest else s
  | [] => []
  end.

Definition rstrip_char (ch : codepoint) (s : pystr) : pystr :=
  rev (lstrip_char ch (rev s)).

(** [sep.join(parts)] *)
Fixpoint join (sep : pystr) (parts : list pystr) : pystr :=
  match parts with
  | [] => []
  | [p] => p
  | p :: rest => p ++ sep ++ join sep rest
  end.

Definition LF : codepoint := 0x0A%N.

(** [s.split('\n\n')]: the pieces between the non-overlapping occurrences
    of two line feeds, scanned from the left; [cur] is the piece being
    read. *)
Fixpoint split_blank_lines (cur : pystr) (s : pystr) : list pystr :=
  match s with
  | [] => [cur]
  | c :: rest =>
      match rest with
      | d :: rest' =>
          if (c =? LF)%N && (d =? LF)%N
          then cur :: split_blank_lines [] rest'
          else split_blank_lines (cur ++ [c]) rest
      | [] => split_blank_lines (cur ++ [c]) rest
      end
  end.

(** The index normalisation of a slice bound: a negative bound counts
    from the end, and both are clamped to the string. *)
Definition clamp (n : Z) (i : Z) : Z :=
  if i <? 0 then Z.max 0 (i + n) else Z.min i n.

(** [s[start:end]] *)
Definition slice (s : pystr) (start stop : Z) : pystr :=
  let n := len s in
  let a := clamp n start in
  let b := clamp n stop in
  take (Z.to_nat (b - a)) (drop (Z.to_nat a) s).

(** [str(n)] for an integer. *)
Definition digit (d : N) : codepoint := (0x30 + d)%N.

Fixpoint digits_of (fuel : nat) (n : N) (acc : pystr) : pystr :=
  match fuel with
  | O => acc
  | S fuel' =>
      let acc' := digit (n mod 10) :: acc in
      if (n <? 10)%N then acc' else digits_of fuel' (n / 10) acc'
  end.

Definition str_of_N (n : N) : pystr := digits_of (S (N.to_nat (N.log2 n))) n [].

Definition str_of_Z (z : Z) : pystr :=
  if z <? 0 then 0x2D%N :: str_of_N (Z.to_N (- z)) else str_of_N (Z.to_N z).

End PyStr.

Import PyStr.

(** ** Exceptions and results *)

Module Py.

(** The classes of exception that the sources name in an [except] clause
    or that the calls they make raise. *)
Inductive exn_class :=
| ZeroDivisionError
| SyntaxError
| OverflowError
| ValueError
| TypeError
| JSONDecodeError
| IndexError
| APIError
| OtherError (name : pystr).

(** An instance of Python's [Exception], the class that the sources'
    catch-all clauses name, together with the text that [str] gives for
    it. *)
Record Exception := mkException {
  exc_class : exn_class;
  exc_str : pystr           (* [str(e)] *)
}.

(** What a call into code from outside the repository can raise.  Beside
    the instances of [Exception] that print, there are those whose
    [__str__] raises in its turn, and the instances of [BaseException] that
    are no [Exception]: [KeyboardInterrupt], [SystemExit], [GeneratorExit]
    and the classes that a program derives from them or from
    [BaseException]. *)
Inductive BaseException :=
| IsException (e : Exception)
| Unprintable (cls : exn_class) (raised : BaseException)
                                  (* [str(e)] raises [raised] *)
| NotException (name : pystr).

Coercion IsException : Exception >-> BaseException.

(** The outcome of a call that raises errors of the type [E]. *)
Inductive result_of (E A : Type) :=
| Ok (a : A)
| Raise (e : E).
Arguments Ok {E A} a.
Arguments Raise {E A} & e.

(** A call that raises instances of [Exception] only, all of which
    print. *)
Abbreviation result := (result_of Exception).

(** A call that may raise anything. *)
Abbreviation outcome := (result_of BaseException).

Definition bind {E A B} (r : result_of E A) (k : A -> result_of E B)
  : result_of E B :=
  match r with
  | Ok a => k a
  | Raise e => Raise e
  end.

(** A call of the first kind where one of the second is expected. *)
Definition widen {A} (r : result A) : outcome A :=
  match r with
  | Ok a => Ok a
  | Raise e => Raise (IsException e)
  end.

(** [isinstance(e, cls)] for the classes above; [JSONDecodeError] derives
    from [ValueError], [ZeroDivisionError] and [OverflowError] from
    [ArithmeticError], which no clause of the sources names. *)
Definition isinstance (e : Exception) (cls : exn_class) : bool :=
  match exc_class e, cls with
  | ZeroDivisionError, ZeroDivisionError => true
  | SyntaxError, SyntaxError => true
  | OverflowError, OverflowError => true
  | ValueError, ValueError => true
  | JSONDecodeError, ValueError => true
  | JSONDecodeError, JSONDecodeError => true
  | TypeError, TypeError => true
  | IndexError, IndexError => true
  | APIError, APIError => true
  | OtherError a, OtherError b => bool_decide (a = b)
  | _, _ => false
  end.

(** The values that [json.loads] builds; a float is kept as its literal.
    [JObj] is a [dict]: its keys are distinct, in insertion order. *)
Inductive json :=
| JNull
| JBool (b : bool)
| JInt (z : Z)
| JFloat (literal : pystr)
| JStr (s : pystr)
| JArr (items : list json)
| JObj (members : list (pystr * json)).

(** A [dict] with string keys, as an association list in insertion order:
    [d[k] = v] keeps the place of a key that is already there. *)
Fixpoint dict_set {V} (d : list (pystr * V)) (k : pystr) (v : V)
  : list (pystr * V) :=
  match d with
  | [] => [(k, v)]
  | (k', v') :: rest =>
      if bool_decide (k' = k) then (k, v) :: rest
      else (k', v') :: dict_set rest k v
  end.

(** [d.get(k)] *)
Fixpoint dict_get {V} (d : list (pystr * V)) (k : pystr) : option V :=
  match d with
  | [] => None
  | (k', v') :: rest => if bool_decide (k' = k) then Some v' else dict_get rest k
  end.

(** Values stored in metadata dictionaries. *)
Inductive pyval :=
| VNone
| VInt (z : Z)
| VStr (s : pystr).

(** [range(a, b)] *)
Definition range (a b : Z) : list Z :=
  map (fun i => a + Z.of_nat i) (seq 0 (Z.to_nat (b - a))).

End Py.

Import Py.

Notation "'let!' x ':=' c1 'in' c2" := (Py.bind c1 (fun x => c2))
  (at level 10, x name, c1 at level 100, c2 at level 200).
Notation "'let!' ' p ':=' c1 'in' c2" := (Py.bind c1 (fun p => c2))
  (at level 10, p strict pattern, c1 at level 100, c2 at level 200).

(** The components of a pair are checked against the type expected of the
    pair, so that an [Exception] is read as the [BaseException] it is where
    the pair holds an outcome. *)
#[local] Arguments pair {A B} & a b.

(** ** src/ingestion/chunker.py *)

Module Chunking.

Record Chunk := mkChunk {
  text : pystr;
  index : Z;
  metadata : gmap pystr pyval
}.

Definition char_count (c : Chunk) : Z := len (text c).

Record Chunker := mkChunker {
  chunk_size : Z;
  overlap : Z;
  min_chunk_size : Z
}.

(** [{**(metadata or {}), "chunk_index": index}] *)
Definition chunk_meta (metadata : option (gmap pystr pyval)) (index : Z)
  : gmap pystr pyval :=
  <[py "chunk_index" := VInt index]> (default ∅ metadata).

Definition new_chunk (metadata : option (gmap pystr pyval)) (chunk_text : pystr)
  (index : Z) : Chunk :=
  mkChunk chunk_text index (chunk_meta metadata index).

(** *** split_fixed

    The [while] loop, run for at most [fuel] iterations; [None] when the
    fuel does not suffice.  The arguments after [metadata] are the loop's
    variables. *)
Fixpoint split_fixed_loop (fuel : nat) (self : Chunker) (text : pystr)
  (metadata : option (gmap pystr pyval))
  (chunks : list Chunk) (start index : Z) : option (list Chunk) :=
  match fuel with
  | O => None
  | S fuel' =>
      if start <? len text then
        let end_ := start + chunk_size self in
        let chunk_text := strip (slice text start end_) in
        let '(chunks, index) :=
          match chunk_text with
          | [] => (chunks, index)
          | _ => (chunks ++ [new_chunk metadata chunk_text index], index + 1)
          end in
        let start :=
          if overlap self <? chunk_size self then end_ - overlap self else end_ in
        split_fixed_loop fuel' self text metadata chunks start index
      else Some chunks
  end.

Definition split_fixed (fuel : nat) (self : Chunker) (text : pystr)
  (metadata : option (gmap pystr pyval)) : option (list Chunk) :=
  split_fixed_loop fuel self text metadata [] 0 0.

(** The windows [(start, end)] that the same loop visits, in order. *)
Fixpoint windows_loop (fuel : nat) (self : Chunker) (text : pystr)
  (start : Z) : option (list (Z * Z)) :=
  match fuel with
  | O => None
  | S fuel' =>
      if start <? len text then
        let end_ := start + chunk_size self in
        let start' :=
          if overlap self <? chunk_size self then end_ - overlap self else end_ in
        option_map (cons (start, end_)) (windows_loop fuel' self text start')
      else Some []
  end.

(** The chunks that a list of windows gives: one per window whose
    stripped text is not empty, numbered from [index]. *)
Fixpoint chunks_of_windows (text : pystr) (metadata : option (gmap pystr pyval))
  (index : Z) (ws : list (Z * Z)) : list Chunk :=
  match ws with
  | [] => []
  | (s, e) :: rest =>
      match strip (slice text s e) with
      | [] => chunks_of_windows text metadata index rest
      | chunk_text =>
          new_chunk metadata chunk_text index
          :: chunks_of_windows text metadata (index + 1) rest
      end
  end.

(** *** The accumulation loop of split_by_sentences and split_by_paragraphs

    The two methods run the same [for] loop and the same final flush; they
    differ in the separator that joins the units of a chunk.  [units] is
    what remains to iterate over, the other arguments are the loop's
    variables. *)
Fixpoint accumulate (self : Chunker) (sep : pystr)
  (metadata : option (gmap pystr pyval)) (units : list pystr)
  (chunks : list Chunk) (current : list pystr) (current_length : Z)
  (index : Z) : list Chunk :=
  match units with
  | unit :: rest =>
      let '(chunks, current, current_length, index) :=
        if (current_length + len unit >? chunk_size self)
           && negb (bool_decide (current = []))
        then
          let chunk_content := join sep current in
          if len chunk_content >=? min_chunk_size self
          then (chunks ++ [new_chunk metadata chunk_content index],
                @nil pystr, 0, index + 1)
          else (chunks, [], 0, index)
        else (chunks, current, current_length, index) in
      accumulate self sep metadata rest chunks
        (current ++ [unit]) (current_length + len unit) index
  | [] =>
      match current with
      | [] => chunks
      | _ =>
          let chunk_content := join sep current in
          if len chunk_content >=? min_chunk_size self
          then chunks ++ [new_chunk metadata chunk_content index]
          else chunks
      end
  end.

(** [[s.strip() for s in pieces if s.strip()]] *)
Definition stripped_nonempty (pieces : list pystr) : list pystr :=
  filter (fun s => s <> []) (map strip pieces).

(** *** split_by_paragraphs *)
Definition split_by_paragraphs (self : Chunker) (text : pystr)
  (metadata : option (gmap pystr pyval)) : list Chunk :=
  let paragraphs := split_blank_lines [] text in
  let paragraphs := stripped_nonempty paragraphs in
  accumulate self [LF; LF] metadata paragraphs [] [] 0 0.

(** [split] *)
Definition split (self : Chunker) (text : pystr)
  (metadata : option (gmap pystr pyval)) : list Chunk :=
  split_by_paragraphs self text metadata.

(** *** split_by_sentences

    [re.split(r'(?<=[。！？.!?\n])\s*', text)], after the matching engine:
    a match at position [p] needs a sentence-final character just before
    [p] and takes all the whitespace that starts at [p]. *)
Definition sentence_final (c : codepoint) : bool :=
  ((c =? 0x3002) || (c =? 0xFF01) || (c =? 0xFF1F)
   || (c =? 0x2E) || (c =? 0x21) || (c =? 0x3F) || (c =? 0x0A))%N.

Fixpoint leading_spaces (s : pystr) : nat :=
  match s with
  | c :: rest => if isspace c then S (leading_spaces rest) else O
  | [] => O
  end.

Definition boundary_match (text : pystr) (p : nat) : option nat :=
  match p with
  | O => None
  | S q =>
      match text !! q with
      | Some c =>
          if sentence_final c
          then Some (p + leading_spaces (drop p text))%nat
          else None
      | None => None
      end
  end.

(** The first match at or after [pos]; with [must_advance] an empty match
    at [pos] itself does not count. *)
Fixpoint search (fuel : nat) (text : pystr) (pos : nat) (must_advance : bool)
  : option (nat * nat) :=
  match fuel with
  | O => None
  | S fuel' =>
      let next :=
        if (pos <? length text)%nat then search fuel' text (S pos) false
        else None in
      match boundary_match text pos with
      | Some e =>
          if must_advance && (e =? pos)%nat then next else Some (pos, e)
      | None => next
      end
  end.

(** The pieces between successive matches; after an empty match the next
    search must advance. *)
Fixpoint split_loop (fuel : nat) (text : pystr) (pos : nat)
  (must_advance : bool) : list pystr :=
  match fuel with
  | O => [drop pos text]
  | S fuel' =>
      match search (S (length text)) text pos must_advance with
      | Some (s, e) =>
          take (s - pos) (drop pos text)
          :: split_loop fuel' text e (e =? s)%nat
      | None => [drop pos text]
      end
  end.

Definition re_split_sentences (text : pystr) : list pystr :=
  split_loop (2 * length text + 3) text 0 false.

Definition split_by_sentences (self : Chunker) (text : pystr)
  (metadata : option (gmap pystr pyval)) : list Chunk :=
  let sentences := re_split_sentences text in
  let sentences := stripped_nonempty sentences in
  accumulate self [0x20%N] metadata sentences [] [] 0 0.

(** [chunk_text]: the convenience function. *)
Inductive strategy := Fixed | Sentence | Paragraph.

Definition chunk_text_fn (fuel : nat) (text : pystr) (chunk_size overlap : Z)
  (strat : strategy) : option (list Chunk) :=
  let chunker := mkChunker chunk_size overlap 50 in
  match strat with
  | Fixed => split_fixed fuel chunker text None
  | Sentence => Some (split_by_sentences chunker text None)
  | Paragraph => Some (split_by_paragraphs chunker text None)
  end.

End Chunking.

(** ** src/tools/base.py *)

Module Tool.

(** The keyword arguments of a call, [**kwargs]. *)
Abbreviation kwargs := (list (pystr * json)) (only parsing).

(** An instance of a subclass of the abstract class [Tool]: its three
    properties and its [execute] method, which binds the keyword arguments
    to its own parameters and runs code that this module does not know: it
    may raise anything. *)
Record Tool := mkTool {
  name : pystr;
  description : pystr;
  parameters : json;
  execute : kwargs -> outcome pystr
}.

Definition to_openai_tool (self : Tool) : json :=
  JObj [ (py "type", JStr (py "function"));
         (py "function",
          JObj [ (py "name", JStr (name self));
                 (py "description", JStr (description self));
                 (py "parameters", parameters self) ]) ].

End Tool.

Module ToolRegistry.

Import Tool.

(** The attribute [_tools]. *)
Abbreviation ToolRegistry := (list (pystr * Tool)) (only parsing).

Definition init : ToolRegistry := [].

Definition register (self : ToolRegistry) (tool : Tool) : ToolRegistry :=
  dict_set self (name tool) tool.

Definition get (self : ToolRegistry) (name : pystr) : option Tool :=
  dict_get self name.

Definition get_openai_tools (self : ToolRegistry) : list json :=
  map (fun kv => to_openai_tool (snd kv)) self.

Definition list_tools (self : ToolRegistry) : list pystr := map fst self.

(** A call [registry.execute(tool_name, **kwargs)] binds its arguments
    before the body runs: a keyword that names one of the parameters [self]
    and [tool_name] gives that parameter a second value, which is a
    [TypeError]; the other keywords make up [kwargs].  The text of the
    message is abbreviated. *)
Definition bind_arguments (kwargs : kwargs) : result Tool.kwargs :=
  if existsb (fun kv => bool_decide (fst kv = py "self")
                        || bool_decide (fst kv = py "tool_name")) kwargs
  then Raise (mkException TypeError
                (py "execute() got multiple values for argument"))
  else Ok kwargs.

(** The handler [except Exception as e: return f"工具执行出错: {str(e)}"]: it
    is entered for the instances of [Exception] only, and what [str(e)]
    raises leaves it. *)
Definition handler (raised : BaseException) : outcome pystr :=
  match raised with
  | IsException e => Ok (py "工具执行出错: " ++ exc_str e)
  | Unprintable _ raised' => Raise raised'
  | NotException _ => Raise raised
  end.

(** The body of [execute]. *)
Definition execute_body (self : ToolRegistry) (tool_name : pystr)
  (kwargs : kwargs) : outcome pystr :=
  match get self tool_name with
  | None => Ok (py "错误: 未找到工具 '" ++ tool_name ++ py "'")
  | Some tool =>
      (* try: return tool.execute with the keyword arguments *)
      match Tool.execute tool kwargs with
      | Ok s => Ok s
      | Raise raised => handler raised
      end
  end.

Definition execute (self : ToolRegistry) (tool_name : pystr) (kwargs : kwargs)
  : outcome pystr :=
  let! kwargs := widen (bind_arguments kwargs) in
  execute_body self tool_name kwargs.

End ToolRegistry.

(** ** src/tools/calculator.py *)

Module CalculatorTool.

(** What [eval] can give for an expression; [PyOther] carries the [str] of
    any other object. *)
Inductive pyobject (F : Type) :=
| PyInt (z : Z)
| PyFloat (f : F)
| PyOther (repr : pystr).
Arguments PyInt {F} z.
Arguments PyFloat {F} f.
Arguments PyOther {F} repr.

(** The builtins of the interpreter that [execute] calls. *)
Record Interp := mkInterp {
  pyfloat : Type;
  eval : pystr -> result (pyobject pyfloat);
  int_of_float : pyfloat -> result Z;      (* [int(x)] *)
  float_eq_int : pyfloat -> Z -> bool;     (* [x == n] *)
  format_4f : pyfloat -> pystr;            (* [f"{x:.4f}"] *)
  str_of_int : Z -> result pystr           (* [str(n)] *)
}.

Definition name : pystr := py "calculator".

Definition allowed_chars : list codepoint := py "0123456789+-*/().% ".

(** [all(c in allowed_chars for c in expression)] *)
Definition all_allowed (expression : pystr) : bool :=
  forallb (fun c => bool_decide (c ∈ allowed_chars)) expression.

Definition msg_chars : pystr :=
  py "错误：表达式包含不允许的字符。只支持数字和 +-*/().%".
Definition msg_zero : pystr := py "错误：除数不能为零".
Definition msg_syntax (expression : pystr) : pystr :=
  py "错误：表达式语法错误 - " ++ expression.
Definition msg_other (e : Exception) : pystr := py "计算错误：" ++ exc_str e.

(** The body of the [try] block. *)
Definition try_body (I : Interp) (expression : pystr) : result pystr :=
  if negb (all_allowed expression) then Ok msg_chars
  else
    let! result := eval I expression in
    match result with
    | PyFloat f =>
        let! n := int_of_float I f in
        if float_eq_int I f n
        then let! n' := int_of_float I f in str_of_int I n'
        else Ok (rstrip_char 0x2E (rstrip_char 0x30 (format_4f I f)))
    | PyInt z => str_of_int I z
    | PyOther repr => Ok repr
    end.

(** [execute]: the [try] block with its three [except] clauses, tried in
    the order of the source. *)
Definition execute (I : Interp) (expression : pystr) : result pystr :=
  match try_body I expression with
  | Ok s => Ok s
  | Raise e =>
      if isinstance e ZeroDivisionError then Ok msg_zero
      else if isinstance e SyntaxError then Ok (msg_syntax expression)
      else Ok (msg_other e)
  end.

End CalculatorTool.

(** ** src/agent/orchestrator.py *)

Module Agent.

Import Tool.

(** One entry of [assistant_message.tool_calls]: [id], [function.name]
    and [function.arguments]. *)
Record ToolCall := mkToolCall {
  id : pystr;
  function_name : pystr;
  function_arguments : pystr
}.

(** [response.choices[0].message] *)
Record ChatMessage := mkChatMessage {
  content : pystr;
  tool_calls : list ToolCall
}.

(** The entries of the list [messages]. *)
Inductive message :=
| RoleContent (role content : pystr)
| ToolObservation (tool_call_id content : pystr)
| AssistantMessage (m : ChatMessage).

(** The two places of [run] that call the reasoning service. *)
Inductive call_site := LoopCall | SummaryCall.

(** One call of [client.chat.completions.create]. *)
Record request := mkRequest {
  req_site : call_site;
  req_messages : list message;
  req_tools : option (list json)
}.

(** What [run] calls outside this repository: the reasoning-service client
    and the JSON decoder.  [create] stands for the request together with
    the selection [response.choices[0].message]; its arguments are the list
    [messages] and the value of [tools], which also fixes [tool_choice].
    Both are library calls, whose errors are instances of [Exception];
    [run] catches none of them. *)
Record Env := mkEnv {
  create : list message -> option (list json) -> result ChatMessage;
  json_loads : pystr -> result json
}.

Record AgentOrchestrator := mkAgentOrchestrator {
  model : pystr;
  max_iterations : Z;
  verbose : bool;
  registry : ToolRegistry.ToolRegistry;
  system_prompt : pystr      (* the text that [_build_system_prompt] returns *)
}.

Definition register_tool (self : AgentOrchestrator) (tool : Tool)
  : AgentOrchestrator :=
  mkAgentOrchestrator (model self) (max_iterations self) (verbose self)
    (ToolRegistry.register (registry self) tool) (system_prompt self).

(** The state that one call of [run] threads: its list [messages] and the
    requests sent so far, oldest first. *)
Record state := mkState {
  messages : list message;
  requests : list request
}.

(** A computation that reads and writes the state and may raise; the state
    reached is kept when it raises. *)
Definition M (A : Type) : Type := state -> outcome A * state.

Definition ret {A} (a : A) : M A := fun st => (Ok a, st).

Definition mbind {A B} (c : M A) (k : A -> M B) : M B :=
  fun st =>
    match c st with
    | (Ok a, st') => k a st'
    | (Raise e, st') => (Raise e, st')
    end.

Definition lift {A} (r : outcome A) : M A := fun st => (r, st).

(** [messages.append(m)] *)
Definition append (m : message) : M unit :=
  fun st => (Ok tt, mkState (messages st ++ [m]) (requests st)).

(** [self.client.chat.completions.create(model=..., messages=messages, ...)] *)
Definition call_client (env : Env) (site : call_site) (tools : option (list json))
  : M ChatMessage :=
  fun st =>
    (widen (create env (messages st) tools),
     mkState (messages st) (requests st ++ [mkRequest site (messages st) tools])).

Notation "'do' x '<-' c1 ';' c2" := (mbind c1 (fun x => c2))
  (at level 10, x name, c1 at level 100, c2 at level 200).
Notation "'do_' c1 ';' c2" := (mbind c1 (fun _ => c2))
  (at level 10, c1 at level 100, c2 at level 200).

(** The argument [**tool_args] of the call of [self.registry.execute]:
    the value that was decoded must be a mapping, whose items become the
    keyword arguments of the call.  The text of the [TypeError] is
    abbreviated. *)
Definition unpack (tool_args : json) : result kwargs :=
  match tool_args with
  | JObj members => Ok members
  | _ => Raise (mkException TypeError
                  (py "argument after ** must be a mapping"))
  end.

(** The inner loop [for tool_call in assistant_message.tool_calls]. *)
Fixpoint dispatch (env : Env) (self : AgentOrchestrator)
  (calls : list ToolCall) : M unit :=
  match calls with
  | [] => ret tt
  | tool_call :: rest =>
      let tool_name := function_name tool_call in
      do tool_args <- lift (widen (json_loads env (function_arguments tool_call)));
      do kwargs <- lift (widen (unpack tool_args));
      do result <- lift (ToolRegistry.execute (registry self) tool_name kwargs);
      do_ append (ToolObservation (id tool_call) result);
      dispatch env self rest
  end.

(** How one iteration of the outer loop ends. *)
Inductive flow :=
| Continue
| Return (final_answer : pystr).

(** [tools if tools else None] *)
Definition tools_or_none (tools : list json) : option (list json) :=
  match tools with
  | [] => None
  | _ => Some tools
  end.

(** The body of [for iteration in range(1, self.max_iterations + 1)]. *)
Definition iteration (env : Env) (self : AgentOrchestrator) (tools : list json)
  : M flow :=
  do assistant_message <- call_client env LoopCall (tools_or_none tools);
  match tool_calls assistant_message with
  | [] => ret (Return (content assistant_message))
  | calls =>
      do_ append (AssistantMessage assistant_message);
      do_ dispatch env self calls;
      ret Continue
  end.

Fixpoint react_loop (env : Env) (self : AgentOrchestrator) (tools : list json)
  (iterations : list Z) : M flow :=
  match iterations with
  | [] => ret Continue
  | _ :: rest =>
      do f <- iteration env self tools;
      match f with
      | Return final_answer => ret (Return final_answer)
      | Continue => react_loop env self tools rest
      end
  end.

Definition summary_request : pystr :=
  py "请根据目前收集到的信息，给出你的最终答案。如果信息不足，请说明。".

(** The forced answer after the loop. *)
Definition forced_answer (env : Env) : M pystr :=
  do_ append (RoleContent (py "user") summary_request);
  do final_response <- call_client env SummaryCall None;
  ret (content final_response).

Definition initial_state (self : AgentOrchestrator) (user_question : pystr)
  : state :=
  mkState [ RoleContent (py "system") (system_prompt self);
            RoleContent (py "user") user_question ] [].

Definition run_from (env : Env) (self : AgentOrchestrator) : M pystr :=
  let tools := ToolRegistry.get_openai_tools (registry self) in
  do f <- react_loop env self tools (range 1 (max_iterations self + 1));
  match f with
  | Return final_answer => ret final_answer
  | Continue => forced_answer env
  end.

(** [run]: the value returned or the exception raised, with the state at
    that moment. *)
Definition run (env : Env) (self : AgentOrchestrator) (user_question : pystr)
  : outcome pystr * state :=
  run_from env self (initial_state self user_question).

(** [run_with_history].  The caller's list [history] is modified in place:
    the second component is what that list holds when the call ends, also
    when [run] raises; the first is the pair returned together with the
    state that [run] reached. *)
Definition run_with_history (env : Env) (self : AgentOrchestrator)
  (user_question : pystr) (history : option (list message))
  : (outcome (pystr * list message) * state) * list message :=
  let history :=
    match history with
    | None => [RoleContent (py "system") (system_prompt self)]
    | Some history => history
    end in
  let history := history ++ [RoleContent (py "user") user_question] in
  match run env self user_question with
  | (Ok answer, st) =>
      let history := history ++ [RoleContent (py "assistant") answer] in
      ((Ok (answer, history), st), history)
  | (Raise e, st) => ((Raise e, st), history)
  end.

End Agent.

(** ** src/agent/simple_agent.py *)

Module SimpleAgent.

Import Tool.
Import Agent.

Record SimpleAgent := mkSimpleAgent {
  model : pystr;
  registry : ToolRegistry.ToolRegistry;
  system_prompt : pystr
}.

(** [for tool_call in assistant_message.tool_calls] *)
Fixpoint tool_loop (env : Env) (self : SimpleAgent) (calls : list ToolCall)
  : M unit :=
  match calls with
  | [] => ret tt
  | tool_call :: rest =>
      let tool_name := function_name tool_call in
      do tool_args <- lift (widen (json_loads env (function_arguments tool_call)));
      do kwargs <- lift (widen (unpack tool_args));
      do tool_result <- lift (ToolRegistry.execute (registry self) tool_name kwargs);
      do_ append (ToolObservation (id tool_call) tool_result);
      tool_loop env self rest
  end.

(** [run]: one request with the tools and, when the answer asks for tools,
    a second one without them.  The first request is recorded with the
    site [LoopCall], the second with [SummaryCall]. *)
Definition run (env : Env) (self : SimpleAgent) (user_question : pystr)
  : outcome pystr * state :=
  let messages := [ RoleContent (py "system") (system_prompt self);
                    RoleContent (py "user") user_question ] in
  let tools := ToolRegistry.get_openai_tools (registry self) in
  (do assistant_message <- call_client env LoopCall (Some tools);
   match tool_calls assistant_message with
   | [] => ret (content assistant_message)
   | calls =>
       do_ append (AssistantMessage assistant_message);
       do_ tool_loop env self calls;
       do final_response <- call_client env SummaryCall None;
       ret (content final_response)
   end) (mkState messages []).

End SimpleAgent.

(** ** src/index/vector_store.py *)

Module VectorStore.

Abbreviation meta := (gmap pystr pyval) (only parsing).

Record SearchResult := mkSearchResult {
  text : pystr;
  metadata : meta;
  score : float;
  id : pystr
}.

(** *** The ChromaDB collection

    The store keeps one collection.  What the methods below read of it is
    its set of records, keyed by id; the embeddings, which the library
    computes on [add] and on [query] with the embedding function that the
    collection was created with, stay inside the library. *)
Record IndexRecord := mkIndexRecord {
  document : pystr;
  record_metadata : meta
}.

Abbreviation collection := (gmap pystr IndexRecord) (only parsing).

(** [collection.count()] *)
Definition collection_count (c : collection) : Z := Z.of_nat (size c).

(** The records that [collection.add] stores: a record whose id is already
    stored is left as it is. *)
Fixpoint add_records (c : collection)
  (rows : list (pystr * (pystr * meta))) : collection :=
  match rows with
  | [] => c
  | (i, (d, m)) :: rest =>
      let c' := match c !! i with
                | Some _ => c
                | None => <[i := mkIndexRecord d m]> c
                end in
      add_records c' rest
  end.

(** The validation that the library applies to a list of ids: there is at
    least one, and they are distinct.  The texts of the messages are
    abbreviated. *)
Definition validate_ids (ids : list pystr) : result unit :=
  if bool_decide (ids = [])
  then Raise (mkException ValueError (py "Expected IDs to be a non-empty list"))
  else if negb (bool_decide (NoDup ids))
  then Raise (mkException (OtherError (py "DuplicateIDError"))
                (py "Expected IDs to be unique"))
  else Ok tt.

(** [collection.add(documents=..., metadatas=..., ids=...)], after the
    library: the ids are validated; no metadata dictionary is empty; the
    three lists have one length; then the texts are embedded, by the
    embedding function [embed] of the collection, which calls the
    embedding provider and may fail; only then are the records stored. *)
Definition collection_add (embed : list pystr -> result unit) (c : collection)
  (documents : list pystr) (metadatas : list meta) (ids : list pystr)
  : result collection :=
  let! _ := validate_ids ids in
  if existsb (fun m : meta => bool_decide (m = ∅)) metadatas
  then Raise (mkException ValueError
                (py "Expected metadata to be a non-empty dict"))
  else if negb (bool_decide (length documents = length ids
                             /\ length metadatas = length ids))
  then Raise (mkException ValueError (py "Unequal lengths"))
  else
    let! _ := embed documents in
    Ok (add_records c (zip ids (zip documents metadatas))).

(** [collection.delete(ids=ids)]: the ids are validated, and the records
    stored under them are removed; an id that is not stored is passed
    over. *)
Definition collection_delete (c : collection) (ids : list pystr)
  : result collection :=
  let! _ := validate_ids ids in
  Ok (foldr delete c ids).

(** The answer of [collection.query]: one inner list per query text. *)
Record QueryResult := mkQueryResult {
  documents : list (list pystr);
  metadatas : list (list meta);
  distances : list (list float);
  ids : list (list pystr)
}.

(** The library behind a collection: the type of its [where] filters, the
    embedding function that the collection was created with, and its
    nearest-neighbour search. *)
Record Chroma := mkChroma {
  where_filter : Type;
  embedding_function : list pystr -> result unit;
  query : collection -> list pystr -> Z -> option where_filter
          -> result QueryResult
}.

(** *** add_documents *)

(** [[f"doc_{existing_count + i}" for i in range(len(texts))]] *)
Definition generated_ids (existing_count : Z) (texts : list pystr) : list pystr :=
  map (fun i => py "doc_" ++ str_of_Z (existing_count + i))
      (range 0 (Z.of_nat (length texts))).

Definition add_documents (db : Chroma) (self : collection) (texts : list pystr)
  (metadatas : option (list meta)) (ids : option (list pystr))
  : result (list pystr * collection) :=
  let ids :=
    match ids with
    | None =>
        let existing_count := collection_count self in
        generated_ids existing_count texts
    | Some ids => ids
    end in
  let metadatas :=
    match metadatas with
    | None => map (fun _ => ∅) texts
    | Some metadatas => metadatas
    end in
  let! self' := collection_add (embedding_function db) self texts metadatas ids in
  Ok (ids, self').

(** *** search *)

(** [xs[0]] *)
Definition first {A} (xs : list A) : result A :=
  match xs with
  | x :: _ => Ok x
  | [] => Raise (mkException IndexError (py "list index out of range"))
  end.

(** [zip(a, b, c, d)] *)
Fixpoint zip4 {A B C D} (a : list A) (b : list B) (c : list C) (d : list D)
  : list (A * B * C * D) :=
  match a, b, c, d with
  | x :: a', y :: b', z :: c', w :: d' => (x, y, z, w) :: zip4 a' b' c' d'
  | _, _, _, _ => []
  end.

(** The [for] loop over the zipped rows; [search_results] is the list
    being built. *)
Fixpoint search_loop (min_score : float)
  (rows : list (pystr * meta * float * pystr))
  (search_results : list SearchResult) : list SearchResult :=
  match rows with
  | [] => search_results
  | (doc, meta, distance, doc_id) :: rest =>
      let score := (1 - distance)%float in
      let search_results :=
        (* if score >= min_score: *)
        if (min_score <=? score)%float
        then search_results ++ [mkSearchResult doc meta score doc_id]
        else search_results in
      search_loop min_score rest search_results
  end.

Definition search (db : Chroma) (self : collection) (query_text : pystr)
  (top_k : Z) (where_ : option (where_filter db)) (min_score : float)
  : result (list SearchResult) :=
  let! results := query db self [query_text] top_k where_ in
  match documents results with
  | [] => Ok []
  | [] :: _ => Ok []
  | docs0 :: _ =>
      let! metas0 := first (metadatas results) in
      let! dists0 := first (distances results) in
      let! ids0 := first (ids results) in
      Ok (search_loop min_score (zip4 docs0 metas0 dists0 ids0) [])
  end.

(** [delete] *)
Definition delete_ (self : collection) (ids : list pystr) : result collection :=
  collection_delete self ids.

(** The property [count]. *)
Definition count (self : collection) : Z := collection_count self.

(** [clear]: the collection is deleted and created again under its name. *)
Definition clear (self : collection) : collection := ∅.

End VectorStore.

(** ** src/tools/retrieval.py *)

Module RetrievalTool.

Import VectorStore.

Record RetrievalTool := mkRetrievalTool {
  store : collection;
  top_k : Z;
  min_score : float
}.

Definition name : pystr := py "search_report".

(** What [execute] takes from outside the repository: the library behind
    the store, the filter that the dictionary with the one key "year"
    denotes for it, and the formatting of a float with two decimals. *)
Record Env := mkEnv {
  db : Chroma;
  year_filter : Z -> where_filter db;
  format_2f : float -> pystr
}.

(** [str(v)], as a replacement field of an f-string gives it. *)
Definition str_of_pyval (v : pyval) : pystr :=
  match v with
  | VNone => py "None"
  | VInt z => str_of_Z z
  | VStr s => s
  end.

(** The truth value of [v] in an [if]. *)
Definition truthy (v : pyval) : bool :=
  match v with
  | VNone => false
  | VInt z => negb (z =? 0)
  | VStr s => negb (bool_decide (s = []))
  end.

Definition not_found (query : pystr) : pystr :=
  py "未找到关于 '" ++ query ++ py "' 的相关信息。请尝试使用不同的关键词。".

Definition header (results : list SearchResult) : pystr :=
  py "找到 " ++ str_of_Z (Z.of_nat (length results)) ++ py " 条相关信息：" ++ [LF].

(** What one iteration of the [for] loop appends to [output_parts]. *)
Definition format_result (env : Env) (i : Z) (result : SearchResult)
  : list pystr :=
  let page := default (VStr (py "未知")) (metadata result !! py "page") in
  let source := default (VStr []) (metadata result !! py "source") in
  let score := score result in
  [py "[" ++ str_of_Z i ++ py "] 来源: 第" ++ str_of_pyval page ++ py "页"]
  ++ (if truthy source then [py "    文件: " ++ str_of_pyval source] else [])
  ++ [py "    相似度: " ++ format_2f env score;
      py "    内容: " ++ slice (text result) 0 500 ++ py "...";
      []].

(** [for i, result in enumerate(results, 1)] *)
Fixpoint format_loop (env : Env) (i : Z) (results : list SearchResult)
  (output_parts : list pystr) : list pystr :=
  match results with
  | [] => output_parts
  | result :: rest =>
      format_loop env (i + 1) rest (output_parts ++ format_result env i result)
  end.

Definition execute (env : Env) (self : RetrievalTool) (query : pystr)
  (year : option Z) : result pystr :=
  let where_ :=
    match year with
    | Some year => Some (year_filter env year)
    | None => None
    end in
  let! results :=
    search (db env) (store self) query (top_k self) where_ (min_score self) in
  let! results :=
    match results, year with
    | [], Some _ =>
        search (db env) (store self) query (top_k self) None (min_score self)
    | _, _ => Ok results
    end in
  match results with
  | [] => Ok (not_found query)
  | _ => Ok (join [LF] (format_loop env 1 results [header results]))
  end.

End RetrievalTool.

(** ** src/ingestion/loader.py *)

Module Loader.

Record Page := mkPage {
  page_num : Z;
  text : pystr;
  metadata : gmap pystr pyval
}.

Definition char_count (self : Page) : Z := len (text self).

Record Document := mkDocument {
  pages : list Page;
  document_metadata : gmap pystr pyval;    (* the field [metadata] *)
  source : pystr
}.

Definition page_count (self : Document) : Z := Z.of_nat (length (pages self)).

Definition full_text (self : Document) : pystr :=
  join [LF; LF] (map text (pages self)).

(** [sum(page.char_count for page in self.pages)] *)
Definition total_chars (self : Document) : Z :=
  foldl (fun acc page => acc + char_count page) 0 (pages self).

(** [get_page]: the [for] loop over the pages that remain. *)
Fixpoint get_page_loop (pages : list Page) (page_num : Z) : option Page :=
  match pages with
  | [] => None
  | page :: rest =>
      if Loader.page_num page =? page_num then Some page
      else get_page_loop rest page_num
  end.

Definition get_page (self : Document) (page_num : Z) : option Page :=
  get_page_loop (pages self) page_num.

(** [s.startswith(prefix)] *)
Fixpoint startswith (s prefix : pystr) : bool :=
  match prefix, s with
  | [], _ => true
  | p :: prefix', c :: s' => (c =? p)%N && startswith s' prefix'
  | _ :: _, [] => false
  end.

(** The test for a chapter header; [lower] is [str.lower]. *)
Definition is_chapter_header (lower : pystr -> pystr) (para : pystr) : bool :=
  startswith para (py "第") && bool_decide (0x7AE0%N ∈ slice para 0 10)
  || startswith (lower para) (py "chapter")
  || startswith para (py "=")
  || startswith para (py "#").

(** The [for] loop of [_split_into_sections] and the flush that follows
    it; [paragraphs] is what remains to iterate over. *)
Fixpoint sections_loop (lower : pystr -> pystr)
  (min_section_length max_section_length : Z) (paragraphs : list pystr)
  (sections : list pystr) (current_section : list pystr) (current_length : Z)
  : list pystr :=
  match paragraphs with
  | para :: rest =>
      let para := strip para in
      match para with
      | [] =>
          sections_loop lower min_section_length max_section_length rest
            sections current_section current_length
      | _ =>
          let '(sections, current_section, current_length) :=
            if is_chapter_header lower para
               && negb (bool_decide (current_section = []))
               && (current_length >? min_section_length)
            then (sections ++ [join [LF; LF] current_section], @nil pystr, 0)
            else (sections, current_section, current_length) in
          let current_section := current_section ++ [para] in
          let current_length := current_length + len para in
          let '(sections, current_section, current_length) :=
            if current_length >=? max_section_length
            then (sections ++ [join [LF; LF] current_section], @nil pystr, 0)
            else (sections, current_section, current_length) in
          sections_loop lower min_section_length max_section_length rest
            sections current_section current_length
      end
  | [] =>
      match current_section with
      | [] => sections
      | _ => sections ++ [join [LF; LF] current_section]
      end
  end.

Definition _split_into_sections (lower : pystr -> pystr) (text : pystr)
  (min_section_length max_section_length : Z) : list pystr :=
  let paragraphs := split_blank_lines [] text in
  sections_loop lower min_section_length max_section_length paragraphs [] [] 0.

(** The pages that [_load_text] builds from the content of the file, with
    the default section lengths: [for i, section in enumerate(sections)]. *)
Fixpoint pages_loop (i : Z) (sections : list pystr) (pages : list Page)
  : list Page :=
  match sections with
  | [] => pages
  | section :: rest =>
      pages_loop (i + 1) rest
        (pages ++ [mkPage (i + 1) section {[py "source_section" := VInt (i + 1)]}])
  end.

Definition text_pages (lower : pystr -> pystr) (content : pystr) : list Page :=
  let sections := _split_into_sections lower content 500 2000 in
  pages_loop 0 sections [].

End Loader.

(** ** src/interface/session.py *)

Module Session.

(** A message is the dictionary with the keys "role" and "content", kept
    as the pair of their values.  The clock, [datetime.now().isoformat()],
    is read by the caller and passed as [now]. *)
Record Session := mkSession {
  messages : list (pystr * pystr);
  loaded_documents : list pystr;
  created_at : pystr;
  updated_at : pystr;
  collection_name : pystr
}.

Definition add_message (now : pystr) (self : Session) (role content : pystr)
  : Session :=
  mkSession (messages self ++ [(role, content)]) (loaded_documents self)
    (created_at self) now (collection_name self).

Definition add_document (now : pystr) (self : Session) (doc_path : pystr)
  : Session :=
  if negb (bool_decide (doc_path ∈ loaded_documents self))
  then mkSession (messages self) (loaded_documents self ++ [doc_path])
         (created_at self) now (collection_name self)
  else self.

Definition clear_messages (now : pystr) (self : Session) : Session :=
  mkSession [] (loaded_documents self) (created_at self) now
    (collection_name self).

End Session.

(** ** A JSON decoder

    [run] takes its decoder from the environment.  This one follows the
    grammar that [json.loads] accepts (strict mode, with the constants
    [NaN], [Infinity] and [-Infinity]); it serves to run [run] on concrete
    conversations. *)

Module Json.

(** A fault of the text is a [JSONDecodeError].  Its message, which in
    Python describes the fault and its position, is not modelled and left
    empty. *)
Definition error : Exception := mkException JSONDecodeError [].

(** An integer literal is converted by [int], which refuses more than
    [sys.get_int_max_str_digits()] digits, 4300 unless the program changes
    it, with a [ValueError].  The text of the message is abbreviated. *)
Definition max_str_digits : Z := 4300.

Definition too_long : Exception :=
  mkException ValueError
    (py "Exceeds the limit (4300 digits) for integer string conversion").

Definition is_ws (c : codepoint) : bool :=
  ((c =? 0x20) || (c =? 0x09) || (c =? 0x0A) || (c =? 0x0D))%N.

Fixpoint skip_ws (s : pystr) : pystr :=
  match s with
  | c :: rest => if is_ws c then skip_ws rest else s
  | [] => []
  end.

Definition is_digit (c : codepoint) : bool := ((0x30 <=? c) && (c <=? 0x39))%N.

Fixpoint span_digits (s : pystr) : pystr * pystr :=
  match s with
  | c :: rest =>
      if is_digit c then let '(ds, r) := span_digits rest in (c :: ds, r)
      else ([], s)
  | [] => ([], [])
  end.

Definition value_of_digits (ds : pystr) : N :=
  fold_left (fun acc d => (acc * 10 + (d - 0x30))%N) ds 0%N.

Definition hex_value (c : codepoint) : option N :=
  if is_digit c then Some (c - 0x30)%N
  else if ((0x61 <=? c) && (c <=? 0x66))%N then Some (c - 0x61 + 10)%N
  else if ((0x41 <=? c) && (c <=? 0x46))%N then Some (c - 0x41 + 10)%N
  else None.

(** The four hexadecimal digits of a [\u] escape. *)
Definition hex4 (s : pystr) : option (N * pystr) :=
  match s with
  | a :: b :: c :: d :: rest =>
      match hex_value a, hex_value b, hex_value c, hex_value d with
      | Some x, Some y, Some z, Some w =>
          Some ((((x * 16 + y) * 16 + z) * 16 + w)%N, rest)
      | _, _, _, _ => None
      end
  | _ => None
  end.

Definition simple_escape (c : codepoint) : option codepoint :=
  if (c =? 0x22)%N then Some 0x22%N          (* quote *)
  else if (c =? 0x5C)%N then Some 0x5C%N     (* backslash *)
  else if (c =? 0x2F)%N then Some 0x2F%N     (* slash *)
  else if (c =? 0x62)%N then Some 0x08%N     (* b *)
  else if (c =? 0x66)%N then Some 0x0C%N     (* f *)
  else if (c =? 0x6E)%N then Some 0x0A%N     (* n *)
  else if (c =? 0x72)%N then Some 0x0D%N     (* r *)
  else if (c =? 0x74)%N then Some 0x09%N     (* t *)
  else None.

(** The body of a string, after its opening quote: the decoded text and
    what follows the closing quote. *)
Fixpoint scan_string (fuel : nat) (s : pystr) (acc : pystr)
  : option (pystr * pystr) :=
  match fuel with
  | O => None
  | S fuel' =>
      match s with
      | [] => None
      | c :: rest =>
          if (c =? 0x22)%N then Some (acc, rest)
          else if (c <? 0x20)%N then None
          else if (c =? 0x5C)%N then
            match rest with
            | [] => None
            | e :: rest' =>
                if (e =? 0x75)%N then
                  match hex4 rest' with
                  | None => None
                  | Some (u, after) =>
                      if ((0xD800 <=? u) && (u <=? 0xDBFF))%N then
                        match after with
                        | 0x5C%N :: 0x75%N :: low =>
                            if (5 <=? length low)%nat then
                              match hex4 low with
                              | None => None
                              | Some (u2, after2) =>
                                  if ((0xDC00 <=? u2) && (u2 <=? 0xDFFF))%N
                                  then scan_string fuel' after2
                                         (acc ++ [0x10000 + (u - 0xD800) * 0x400
                                                  + (u2 - 0xDC00)]%N)
                                  else scan_string fuel' after (acc ++ [u])
                              end
                            else scan_string fuel' after (acc ++ [u])
                        | _ => scan_string fuel' after (acc ++ [u])
                        end
                      else scan_string fuel' after (acc ++ [u])
                  end
                else
                  match simple_escape e with
                  | Some d => scan_string fuel' rest' (acc ++ [d])
                  | None => None
                  end
            end
          else scan_string fuel' rest (acc ++ [c])
      end
  end.

Fixpoint strip_prefix (p s : pystr) : option pystr :=
  match p, s with
  | [], _ => Some s
  | a :: p', b :: s' => if (a =? b)%N then strip_prefix p' s' else None
  | _ :: _, [] => None
  end.

(** The optional fraction and exponent of a number. *)
Definition span_fraction (s : pystr) : pystr * pystr :=
  match s with
  | 0x2E%N :: rest =>
      match span_digits rest with
      | ([], _) => ([], s)
      | (ds, r) => (0x2E%N :: ds, r)
      end
  | _ => ([], s)
  end.

Definition span_exponent (s : pystr) : pystr * pystr :=
  match s with
  | e :: rest =>
      if ((e =? 0x65) || (e =? 0x45))%N then
        let '(sign, rest') :=
          match rest with
          | c :: r => if ((c =? 0x2B) || (c =? 0x2D))%N then ([c], r) else ([], rest)
          | [] => ([], rest)
          end in
        match span_digits rest' with
        | ([], _) => ([], s)
        | (ds, r) => (e :: sign ++ ds, r)
        end
      else ([], s)
  | [] => ([], s)
  end.

(** A number at the head of [s], if there is one. *)
Definition scan_number (s : pystr) : option (result (json * pystr)) :=
  let '(neg, s1) :=
    match s with
    | 0x2D%N :: r => (true, r)
    | _ => (false, s)
    end in
  let int_part :=
    match s1 with
    | 0x30%N :: r => Some ([0x30%N], r)
    | _ => match span_digits s1 with
           | ([], _) => None
           | (ds, r) => Some (ds, r)
           end
    end in
  match int_part with
  | None => None
  | Some (ds, s2) =>
      let '(frac, s3) := span_fraction s2 in
      let '(exp, s4) := span_exponent s3 in
      match frac, exp with
      | [], [] =>
          if len ds >? max_str_digits then Some (Raise too_long)
          else
            let v := Z.of_N (value_of_digits ds) in
            Some (Ok (JInt (if neg then - v else v), s4))
      | _, _ =>
          Some (Ok (JFloat ((if neg then [0x2D%N] else []) ++ ds ++ frac ++ exp),
                    s4))
      end
  end.

Definition scan_constant (s : pystr) : option (json * pystr) :=
  match strip_prefix (py "null") s with
  | Some r => Some (JNull, r)
  | None =>
  match strip_prefix (py "true") s with
  | Some r => Some (JBool true, r)
  | None =>
  match strip_prefix (py "false") s with
  | Some r => Some (JBool false, r)
  | None =>
  match strip_prefix (py "NaN") s with
  | Some r => Some (JFloat (py "NaN"), r)
  | None =>
  match strip_prefix (py "Infinity") s with
  | Some r => Some (JFloat (py "Infinity"), r)
  | None =>
  match strip_prefix (py "-Infinity") s with
  | Some r => Some (JFloat (py "-Infinity"), r)
  | None => None
  end end end end end end.

(** A value at the head of [s]; the items of an array after its first
    value position; the members of an object after its first key
    position. *)
Fixpoint scan_value (fuel : nat) (s : pystr) : result (json * pystr) :=
  match fuel with
  | O => Raise error
  | S fuel' =>
      match s with
      | 0x22%N :: rest =>
          match scan_string (S (length rest)) rest [] with
          | Some (str, r) => Ok (JStr str, r)
          | None => Raise error
          end
      | 0x7B%N :: rest =>
          match skip_ws rest with
          | 0x7D%N :: r => Ok (JObj [], r)
          | r =>
              let! '(members, r') := scan_members fuel' r [] in
              Ok (JObj members, r')
          end
      | 0x5B%N :: rest =>
          match skip_ws rest with
          | 0x5D%N :: r => Ok (JArr [], r)
          | r =>
              let! '(items, r') := scan_items fuel' r [] in
              Ok (JArr items, r')
          end
      | _ =>
          match scan_number s with
          | Some v => v
          | None =>
              match scan_constant s with
              | Some v => Ok v
              | None => Raise error
              end
          end
      end
  end
with scan_items (fuel : nat) (s : pystr) (acc : list json)
  : result (list json * pystr) :=
  match fuel with
  | O => Raise error
  | S fuel' =>
      let! '(v, r) := scan_value fuel' s in
      match skip_ws r with
      | 0x5D%N :: r' => Ok (acc ++ [v], r')
      | 0x2C%N :: r' => scan_items fuel' (skip_ws r') (acc ++ [v])
      | _ => Raise error
      end
  end
with scan_members (fuel : nat) (s : pystr) (acc : list (pystr * json))
  : result (list (pystr * json) * pystr) :=
  match fuel with
  | O => Raise error
  | S fuel' =>
      match s with
      | 0x22%N :: rest =>
          match scan_string (S (length rest)) rest [] with
          | None => Raise error
          | Some (key, r) =>
              match skip_ws r with
              | 0x3A%N :: r1 =>
                  let! '(v, r2) := scan_value fuel' (skip_ws r1) in
                  match skip_ws r2 with
                  | 0x7D%N :: r3 => Ok (dict_set acc key v, r3)
                  | 0x2C%N :: r3 =>
                      scan_members fuel' (skip_ws r3) (dict_set acc key v)
                  | _ => Raise error
                  end
              | _ => Raise error
              end
          end
      | _ => Raise error
      end
  end.

Definition loads (s : pystr) : result json :=
  let s := skip_ws s in
  let! '(v, rest) := scan_value (S (length s)) s in
  match skip_ws rest with
  | [] => Ok v
  | _ => Raise error
  end.

End Json.

(** * The vocabulary of the properties *)

(** ** The chunker *)

(** By how much [start] advances in one iteration of [split_fixed]. *)
Definition advance (self : Chunking.Chunker) : Z :=
  if Chunking.overlap self <? Chunking.chunk_size self
  then Chunking.chunk_size self - Chunking.overlap self
  else Chunking.chunk_size self.

(** [n] copies of a text, [s * n]. *)
Definition times (n : nat) (s : string) : pystr := concat (replicate n (py s)).

(** How the loop groups the units, whatever their length: [current] is the
    group being filled. *)
Fixpoint groups (size : Z) (units : list pystr) (current : list pystr)
  (current_length : Z) : list (list pystr) :=
  match units with
  | unit :: rest =>
      if (current_length + len unit >? size) && negb (bool_decide (current = []))
      then current :: groups size rest [unit] (len unit)
      else groups size rest (current ++ [unit]) (current_length + len unit)
  | [] =>
      match current with
      | [] => []
      | _ => [current]
      end
  end.

(** The chunks of a list of groups: one for each group whose joined text
    reaches [min_chunk_size], numbered from [index]. *)
Fixpoint emit (self : Chunking.Chunker) (sep : pystr)
  (metadata : option (gmap pystr pyval)) (index : Z)
  (gs : list (list pystr)) : list Chunking.Chunk :=
  match gs with
  | [] => []
  | g :: rest =>
      if len (join sep g) >=? Chunking.min_chunk_size self
      then Chunking.new_chunk metadata (join sep g) index
           :: emit self sep metadata (index + 1) rest
      else emit self sep metadata index rest
  end.

(** The sum of the lengths of the units of a group. *)
Definition total_length (g : list pystr) : Z :=
  foldr (fun u acc => len u + acc) 0 g.

(** The characters of a text that are not whitespace. *)
Definition content (s : pystr) : pystr :=
  List.filter (fun c => negb (isspace c)) s.

(** ** The orchestrator *)

(** What happens to the arguments of a requested call before the body of
    [ToolRegistry.execute] runs: decoding, unpacking, binding. *)
Definition decode_arguments (env : Agent.Env) (tc : Agent.ToolCall)
  : result (list (pystr * json)) :=
  let! tool_args := Agent.json_loads env (Agent.function_arguments tc) in
  let! kw := Agent.unpack tool_args in
  ToolRegistry.bind_arguments kw.

(** The observation that a requested call adds to the conversation. *)
Definition observation (env : Agent.Env) (self : Agent.AgentOrchestrator)
  (tc : Agent.ToolCall) : outcome Agent.message :=
  let! tool_args := widen (Agent.json_loads env (Agent.function_arguments tc)) in
  let! kw := widen (Agent.unpack tool_args) in
  let! out := ToolRegistry.execute (Agent.registry self)
                (Agent.function_name tc) kw in
  Ok (Agent.ToolObservation (Agent.id tc) out).

(** [slips_through raised e]: a tool raised [raised], and the handler of
    [ToolRegistry.execute] lets [e] out: [raised] itself when it is no
    instance of [Exception], or what [str] raised for it. *)
Inductive slips_through : BaseException -> BaseException -> Prop :=
| slips_not_exception name :
    slips_through (NotException name) (NotException name)
| slips_unprintable cls e :
    slips_through (Unprintable cls e) e.

(** The tool registered under [tool_name] raises, when it is run with the
    arguments [kw], something that leaves [ToolRegistry.execute] as
    [e]. *)
Definition tool_lets_out (registry : list (pystr * Tool.Tool))
  (tool_name : pystr) (kw : list (pystr * json)) (e : BaseException) : Prop :=
  exists tool raised,
    ToolRegistry.get registry tool_name = Some tool /\
    Tool.execute tool kw = Raise raised /\
    slips_through raised e.

(** The exception [e] comes from the request [rq]: either the reasoning
    service failed on it, or it answered with a tool call that raised [e],
    because its arguments do not decode or bind or because its tool raised
    what [ToolRegistry.execute] lets out. *)
Definition raised_at (env : Agent.Env) (self : Agent.AgentOrchestrator)
  (rq : Agent.request) (e : BaseException) : Prop :=
  widen (Agent.create env (Agent.req_messages rq) (Agent.req_tools rq)) = Raise e
  \/ exists m tc,
       Agent.create env (Agent.req_messages rq) (Agent.req_tools rq) = Ok m /\
       tc ∈ Agent.tool_calls m /\
       (widen (decode_arguments env tc) = Raise e
        \/ exists kw,
             decode_arguments env tc = Ok kw /\
             tool_lets_out (Agent.registry self) (Agent.function_name tc) kw e).

#[local] Instance call_site_eq_dec : EqDecision Agent.call_site.
Proof. solve_decision. Defined.

(** The number of requests sent from one of the two call sites. *)
Definition calls_at (site : Agent.call_site) (st : Agent.state) : nat :=
  length (filter (fun rq => Agent.req_site rq = site) (Agent.requests st)).

(** The loop ran through all its iterations without an answer. *)
Definition exhausted (r : outcome Agent.flow) : bool :=
  match r with
  | Ok Agent.Continue => true
  | _ => false
  end.

(** [reaches env self its st its' st']: the loop of [run], about to run the
    iterations [its] in state [st], gets to the point where the iterations
    [its'] remain and the state is [st']. *)
Inductive reaches (env : Agent.Env) (self : Agent.AgentOrchestrator)
  : list Z -> Agent.state -> list Z -> Agent.state -> Prop :=
| reaches_here its st : reaches env self its st its st
| reaches_next i its st st1 its' st' :
    Agent.iteration env self
      (ToolRegistry.get_openai_tools (Agent.registry self)) st
    = (Ok Agent.Continue, st1) ->
    reaches env self its st1 its' st' ->
    reaches env self (i :: its) st its' st'.

(** *** Sample conversations *)

Module Sample.

Import Agent.

(** A literal in which the apostrophe stands for the double quote. *)
Definition dq (s : string) : pystr :=
  map (fun c => if (c =? 0x27)%N then 0x22%N else c) (py s).

(** A tool that repeats its argument [text]. *)
Definition echo : Tool.Tool :=
  Tool.mkTool (py "echo") (py "Repeats its text.") (JObj [])
    (fun kw =>
       match kw with
       | [(k, JStr s)] =>
           if bool_decide (k = py "text") then Ok (py "echo: " ++ s)
           else Raise (mkException TypeError (py "unexpected keyword argument"))
       | _ => Raise (mkException TypeError (py "missing or extra arguments"))
       end).

(** A tool whose [execute] always raises. *)
Definition failing : Tool.Tool :=
  Tool.mkTool (py "failing") (py "Always fails.") (JObj [])
    (fun _ => Raise (mkException (OtherError (py "RuntimeError")) (py "boom"))).

(** A tool that is interrupted while it runs. *)
Definition interrupted : Tool.Tool :=
  Tool.mkTool (py "interrupted") (py "Is interrupted.") (JObj [])
    (fun _ => Raise (NotException (py "KeyboardInterrupt"))).

(** A tool that raises an exception whose [__str__] raises. *)
Definition unprintable : Tool.Tool :=
  Tool.mkTool (py "unprintable") (py "Fails without a message.") (JObj [])
    (fun _ => Raise (Unprintable (OtherError (py "Opaque"))
                       (mkException TypeError
                          (py "__str__ returned non-string")))).

Definition agent (max_iterations : Z) : AgentOrchestrator :=
  register_tool
    (register_tool
       (mkAgentOrchestrator (py "gpt-4o-mini") max_iterations false
          ToolRegistry.init (py "You are an assistant."))
       echo)
    failing.

Definition call (i name : string) (arguments : pystr) : ToolCall :=
  mkToolCall (py i) (py name) arguments.

(** A service whose first answer requests two calls, the second with a
    payload that is cut short. *)
Definition cut_short : ChatMessage :=
  mkChatMessage []
    [ call "call_1" "echo" (dq "{'text': 'hi'}");
      call "call_2" "echo" (dq "{'text': 'h") ].

Definition truncating : Env :=
  mkEnv (fun msgs _ =>
           match msgs with
           | [_; _] => Ok cut_short
           | _ => Ok (mkChatMessage (py "done") [])
           end)
        Json.loads.

(** A service that answers with an empty content and no tool call. *)
Definition silent : Env :=
  mkEnv (fun _ _ => Ok (mkChatMessage [] [])) Json.loads.

(** The same agent with the tool that is interrupted. *)
Definition interruptible (max_iterations : Z) : AgentOrchestrator :=
  register_tool (agent max_iterations) interrupted.

(** A service that requests the interrupted tool, then the echo. *)
Definition interrupting : Env :=
  mkEnv (fun _ _ =>
           Ok (mkChatMessage []
                 [ call "call_1" "interrupted" (dq "{}");
                   call "call_2" "echo" (dq "{'text': 'hi'}") ]))
        Json.loads.

(** A service that requests the failing tool whenever it is given tools. *)
Definition insistent : Env :=
  mkEnv (fun _ tools =>
           match tools with
           | Some _ => Ok (mkChatMessage [] [call "call_1" "failing" (dq "{}")])
           | None => Ok (mkChatMessage (py "summary") [])
           end)
        Json.loads.

End Sample.

(** ** The vector store *)

(** *** Binary64 numbers

    The primitive floats are specified by the functions of [SpecFloat] on
    [spec_float].  What the properties of [search] need of them is stated
    with the value of a number as an integer, in units of the least
    positive number of the format. *)

Module Binary64.

(** The value of a number of the format in units of [2^-1074], the least
    positive one; the infinities stand at [2^2098], the first power of two
    past the finite numbers. *)
Definition scaled (x : spec_float) : Z :=
  match x with
  | S754_zero _ => 0
  | S754_infinity s => cond_Zopp s (2 ^ 2098)
  | S754_nan => 0
  | S754_finite s m e => cond_Zopp s (Zpos m * 2 ^ (e + 1074))
  end.

(** Not a number: the one value that no comparison relates to any. *)
Definition is_NaN (x : spec_float) : bool :=
  match x with
  | S754_nan => true
  | _ => false
  end.








End Binary64.

(** *** The rows of an answer *)


(** The result that one row of the answer gives, if its score passes. *)
Definition row_result (min_score : float)
  (row : pystr * gmap pystr pyval * float * pystr)
  : option VectorStore.SearchResult :=
  let '(doc, meta, distance, doc_id) := row in
  if (min_score <=? 1 - distance)%float
  then Some (VectorStore.mkSearchResult doc meta (1 - distance)%float doc_id)
  else None.


(** The id that [add_documents] builds from a number. *)
Definition doc_id (i : Z) : pystr := py "doc_" ++ str_of_Z i.


(** *** A sample answer of the library *)

Module SampleIndex.

Import VectorStore.

(** The answer of the library in the scenario of the specification: three
    texts stored, two asked for. *)
Definition answer : QueryResult :=
  mkQueryResult
    [[py "revenue 2023"; py "revenue 2022"]]
    [[{[py "year" := VInt 2023]}; {[py "year" := VInt 2022]}]]
    [[0.1%float; 0.3%float]]
    [[py "doc_0"; py "doc_1"]].

(** A library whose embedding function answers and whose search gives
    that answer. *)
Definition db : Chroma :=
  mkChroma unit (fun _ => Ok tt) (fun _ _ _ _ => Ok answer).

(** A library whose embedding provider is out of reach. *)
Definition offline : Chroma :=
  mkChroma unit
    (fun _ => Raise (mkException APIError (py "Connection error.")))
    (fun _ _ _ _ => Raise (mkException APIError (py "Connection error."))).

End SampleIndex.

(** ** Further vocabulary *)

(** The chunks carry the indices [index], [index + 1], ... in order; the
    metadata of each is the caller's, with the index of the chunk under
    the key "chunk_index". *)
Definition numbered_from (metadata : option (gmap pystr pyval)) (index : Z)
  (chunks : list Chunking.Chunk) : Prop :=
  map Chunking.index chunks
  = map (fun i => index + Z.of_nat i) (seq 0 (length chunks)) /\
  Forall (fun c =>
            Chunking.metadata c
            = <[py "chunk_index" := VInt (Chunking.index c)]> (default ∅ metadata))
    chunks.

(** The same from zero, with [range]. *)
Definition numbered (metadata : option (gmap pystr pyval))
  (chunks : list Chunking.Chunk) : Prop :=
  map Chunking.index chunks = range 0 (Z.of_nat (length chunks)) /\
  Forall (fun c =>
            Chunking.metadata c
            = <[py "chunk_index" := VInt (Chunking.index c)]> (default ∅ metadata))
    chunks.

(** The chunk [c] joins some of the [units] with [sep]: one unit, or
    several whose lengths add up to at most [chunk_size]; its length counts
    one separator between two units and reaches [min_chunk_size]. *)
Definition joins (self : Chunking.Chunker) (sep : pystr) (units : list pystr)
  (c : Chunking.Chunk) : Prop :=
  exists g,
    g <> [] /\ g ⊆ units /\
    Chunking.text c = join sep g /\
    (length g = 1%nat \/ total_length g <= Chunking.chunk_size self) /\
    Chunking.char_count c = total_length g + len sep * (Z.of_nat (length g) - 1) /\
    Chunking.min_chunk_size self <= Chunking.char_count c.

(** The registries that a program can build: [ToolRegistry()] followed by
    calls of [register]. *)
Definition registered (tools : list Tool.Tool) : list (pystr * Tool.Tool) :=
  foldl ToolRegistry.register ToolRegistry.init tools.

(** The keys of a registry are distinct, and each is the name of its
    tool. *)
Definition well_keyed (r : list (pystr * Tool.Tool)) : Prop :=
  NoDup (map fst r) /\ Forall (fun kv => fst kv = Tool.name (snd kv)) r.

(** The tool registered under [tool_name], if there is one, returns on the
    arguments [kw] or raises an instance of [Exception] that prints. *)
Definition contained (registry : list (pystr * Tool.Tool)) (tool_name : pystr)
  (kw : list (pystr * json)) : Prop :=
  match ToolRegistry.get registry tool_name with
  | None => True
  | Some tool =>
      match Tool.execute tool kw with
      | Ok _ | Raise (IsException _) => True
      | Raise _ => False
      end
  end.

(** The tools that [run] passes with a request, by the place that sends
    it. *)
Definition offered (self : Agent.AgentOrchestrator) (site : Agent.call_site)
  : option (list json) :=
  match site with
  | Agent.LoopCall =>
      Agent.tools_or_none (ToolRegistry.get_openai_tools (Agent.registry self))
  | Agent.SummaryCall => None
  end.

(** [grows offer st st']: from [st] to [st'] the conversation was only
    extended; the requests sent in between carry conversations that lie
    between the two and extend one another in the order sent, and each
    passes the tools that [offer] gives for its place. *)
Definition grows (offer : Agent.call_site -> option (list json))
  (st st' : Agent.state) : Prop :=
  Agent.messages st `prefix_of` Agent.messages st' /\
  exists new,
    Agent.requests st' = Agent.requests st ++ new /\
    Forall (fun rq =>
              Agent.messages st `prefix_of` Agent.req_messages rq /\
              Agent.req_messages rq `prefix_of` Agent.messages st' /\
              Agent.req_tools rq = offer (Agent.req_site rq)) new /\
    StronglySorted
      (fun r1 r2 => Agent.req_messages r1 `prefix_of` Agent.req_messages r2) new.

(** A computation under which the conversation grows. *)
Definition growing {A} (offer : Agent.call_site -> option (list json))
  (c : Agent.M A) : Prop :=
  forall st, grows offer st (c st).2.

(** The orchestrator that has the registry and the prompt of a simple
    agent. *)
Definition orchestrator_of (self : SimpleAgent.SimpleAgent)
  : Agent.AgentOrchestrator :=
  Agent.mkAgentOrchestrator (SimpleAgent.model self) 1 false
    (SimpleAgent.registry self) (SimpleAgent.system_prompt self).



(** The searches that a call of [RetrievalTool.execute] makes, in order. *)
Definition searches (env : RetrievalTool.Env) (self : RetrievalTool.RetrievalTool)
  (query : pystr) (year : option Z)
  : list (result (list VectorStore.SearchResult)) :=
  let search where_ :=
    VectorStore.search (RetrievalTool.db env) (RetrievalTool.store self) query
      (RetrievalTool.top_k self) where_ (RetrievalTool.min_score self) in
  match year with
  | None => [search None]
  | Some year =>
      match search (Some (RetrievalTool.year_filter env year)) with
      | Ok [] => [search (Some (RetrievalTool.year_filter env year)); search None]
      | first => [first]
      end
  end.

(** *** A sample index with a year filter *)

Module SampleRetrieval.

Import VectorStore.

(** A library that finds the two texts of [SampleIndex.answer] without a
    filter and nothing under any filter, and a formatting that prints
    every score alike. *)
Definition env : RetrievalTool.Env :=
  RetrievalTool.mkEnv
    (mkChroma Z (fun _ => Ok tt)
               (fun _ _ _ filter =>
                   match filter with
                   | None => Ok SampleIndex.answer
                   | Some _ => Ok (mkQueryResult [[]] [[]] [[]] [[]])
                   end))
    (fun year => year)
    (fun _ => py "0.00").

Definition tool : RetrievalTool.RetrievalTool :=
  RetrievalTool.mkRetrievalTool ∅ 3 0%float.

End SampleRetrieval.

(** *** A sample interpreter *)

Module SampleInterp.

Import CalculatorTool.

(** An interpreter with one float, which it prints as 2.5000, and whose
    [eval] gives that float for every expression. *)
Definition half : Interp :=
  mkInterp unit (fun _ => Ok (PyFloat tt)) (fun _ => Ok 2) (fun _ _ => false)
    (fun _ => py "2.5000") (fun z => Ok (str_of_Z z)).

End SampleInterp.

(** * Properties *)


(** ** The chunker: fixed-width windows *)

Section SplitFixed.

Import Chunking.

Variable self : Chunker.
Variable text : pystr.
Variable metadata : option (gmap pystr pyval).

Lemma advance_positive : 1 <= chunk_size self -> 1 <= advance self.
Proof.
  unfold advance. intros Hcs.
  destruct (Z.ltb_spec (overlap self) (chunk_size self)); lia.
Qed.

Lemma advance_at_most_size : 0 <= overlap self -> advance self <= chunk_size self.
Proof.
  unfold advance. intros Hov.
  destruct (Z.ltb_spec (overlap self) (chunk_size self)); lia.
Qed.

Lemma windows_loop_unfold fuel start :
  windows_loop (S fuel) self text start =
    if start <? len text
    then option_map (cons (start, start + chunk_size self))
           (windows_loop fuel self text (start + advance self))
    else Some [].
Proof.
  unfold advance. simpl.
  destruct (start <? len text); [|reflexivity].
  destruct (overlap self <? chunk_size self); [|reflexivity].
  rewrite Z.add_sub_assoc. reflexivity.
Qed.

(** The chunks are those of the windows visited. *)
Lemma split_fixed_loop_windows fuel :
  forall chunks start index,
    split_fixed_loop fuel self text metadata chunks start index =
      option_map (fun ws => chunks ++ chunks_of_windows text metadata index ws)
        (windows_loop fuel self text start).
Proof.
  induction fuel as [|fuel IH]; intros chunks start index; [reflexivity|].
  rewrite windows_loop_unfold. cbn [split_fixed_loop].
  destruct (start <? len text).
  - fold (advance self).
    replace (if overlap self <? chunk_size self
             then start + chunk_size self - overlap self
             else start + chunk_size self) with (start + advance self)
      by (unfold advance; destruct (overlap self <? chunk_size self); lia).
    destruct (strip (slice text start (start + chunk_size self))) as [|c cs] eqn:E;
      rewrite IH; destruct (windows_loop fuel self text (start + advance self));
      cbn [option_map chunks_of_windows]; rewrite ?E; try reflexivity.
    rewrite <- app_assoc. reflexivity.
  - cbn. rewrite app_nil_r. reflexivity.
Qed.

(** With a positive chunk size the loop stops within [len text - start]
    iterations, whatever the overlap. *)
Lemma windows_loop_terminates fuel :
  forall start,
    1 <= chunk_size self ->
    Z.max 0 (len text - start) < Z.of_nat fuel ->
    is_Some (windows_loop fuel self text start).
Proof.
  induction fuel as [|fuel IH]; intros start Hcs Hfuel; [lia|].
  rewrite windows_loop_unfold.
  destruct (Z.ltb_spec start (len text)); [|eexists; reflexivity].
  pose proof (advance_positive Hcs).
  destruct (IH (start + advance self) Hcs) as [ws Hws]; [lia|].
  rewrite Hws. eexists; reflexivity.
Qed.

(** More fuel does not change a result. *)
Lemma windows_loop_more_fuel fuel :
  forall start ws,
    windows_loop fuel self text start = Some ws ->
    windows_loop (S fuel) self text start = Some ws.
Proof.
  induction fuel as [|fuel IH]; intros start ws H; [discriminate|].
  rewrite windows_loop_unfold in H. rewrite windows_loop_unfold.
  destruct (start <? len text); [|exact H].
  destruct (windows_loop fuel self text (start + advance self)) as [ws'|] eqn:E;
    [|discriminate].
  rewrite (IH _ _ E). exact H.
Qed.

(** Every window visited from [start] begins at or after [start] and is
    [chunk_size] wide. *)
Lemma windows_loop_bounds fuel :
  forall start ws,
    1 <= chunk_size self ->
    windows_loop fuel self text start = Some ws ->
    Forall (fun w => start <= w.1 /\ w.2 = w.1 + chunk_size self) ws.
Proof.
  induction fuel as [|fuel IH]; intros start ws Hcs H; [discriminate|].
  rewrite windows_loop_unfold in H.
  destruct (start <? len text); [|injection H as <-; constructor].
  destruct (windows_loop fuel self text (start + advance self)) as [ws'|] eqn:E;
    [|discriminate].
  injection H as <-. pose proof (advance_positive Hcs).
  constructor; [cbn; lia|].
  eapply Forall_impl; [exact (IH _ _ Hcs E)|].
  intros [s e]; cbn. lia.
Qed.

(** The windows begin at strictly increasing positions: none is visited
    twice. *)
Lemma windows_loop_increasing fuel :
  forall start ws,
    1 <= chunk_size self ->
    windows_loop fuel self text start = Some ws ->
    StronglySorted (fun w1 w2 => w1.1 < w2.1) ws.
Proof.
  induction fuel as [|fuel IH]; intros start ws Hcs H; [discriminate|].
  rewrite windows_loop_unfold in H.
  destruct (start <? len text); [|injection H as <-; constructor].
  destruct (windows_loop fuel self text (start + advance self)) as [ws'|] eqn:E;
    [|discriminate].
  injection H as <-. pose proof (advance_positive Hcs).
  constructor; [exact (IH _ _ Hcs E)|].
  eapply Forall_impl; [exact (windows_loop_bounds _ _ _ Hcs E)|].
  intros [s e]; cbn. lia.
Qed.

(** With an overlap that is not negative, consecutive windows leave no
    gap: every position of the text lies in a window. *)
Lemma windows_loop_cover fuel :
  forall start ws,
    1 <= chunk_size self -> 0 <= overlap self ->
    windows_loop fuel self text start = Some ws ->
    forall i, start <= i < len text ->
              exists w, w ∈ ws /\ w.1 <= i < w.2.
Proof.
  induction fuel as [|fuel IH]; intros start ws Hcs Hov H i Hi; [discriminate|].
  rewrite windows_loop_unfold in H.
  destruct (Z.ltb_spec start (len text)); [|lia].
  destruct (windows_loop fuel self text (start + advance self)) as [ws'|] eqn:E;
    [|discriminate].
  injection H as <-. pose proof (advance_at_most_size Hov).
  destruct (Z.lt_ge_cases i (start + advance self)) as [Hlt|Hge].
  - exists (start, start + chunk_size self). split; [left|cbn; lia].
  - destruct (IH _ _ Hcs Hov E i) as [w [Hin Hw]]; [lia|].
    exists w. split; [right; exact Hin|exact Hw].
Qed.

End SplitFixed.

Lemma windows_loop_fuel_le (self : Chunking.Chunker) (text : pystr) fuel fuel' start ws :
  (fuel <= fuel')%nat ->
  Chunking.windows_loop fuel self text start = Some ws ->
  Chunking.windows_loop fuel' self text start = Some ws.
Proof.
  induction 1 as [|fuel' _ IH]; [trivial|].
  intros H. apply windows_loop_more_fuel, IH, H.
Qed.

(** C9, amended.  For a chunk size of at least one character and any
    overlap, in particular an overlap that reaches the chunk size,
    [split_fixed] terminates: every fuel above the length of the text gives
    the same list of chunks, those of the windows visited.  The windows
    begin at strictly increasing positions, so that none is repeated, and
    when the overlap is not negative every position of the text lies in
    one of them. *)
Theorem split_fixed_terminates_and_covers
  (self : Chunking.Chunker) (text : pystr) (metadata : option (gmap pystr pyval)) :
  1 <= Chunking.chunk_size self ->
  exists ws,
    (forall fuel, (length text < fuel)%nat ->
       Chunking.windows_loop fuel self text 0 = Some ws /\
       Chunking.split_fixed fuel self text metadata =
         Some (Chunking.chunks_of_windows text metadata 0 ws)) /\
    StronglySorted (fun w1 w2 => w1.1 < w2.1) ws /\
    (0 <= Chunking.overlap self ->
     forall i, 0 <= i < len text -> exists w, w ∈ ws /\ w.1 <= i < w.2).
Proof.
  intros Hcs.
  destruct (windows_loop_terminates self text (S (length text)) 0 Hcs) as [ws Hws].
  { unfold len. lia. }
  exists ws. split; [|split].
  - intros fuel Hfuel.
    assert (Hw : Chunking.windows_loop fuel self text 0 = Some ws)
      by (eapply windows_loop_fuel_le; [|exact Hws]; lia).
    split; [exact Hw|].
    unfold Chunking.split_fixed. rewrite split_fixed_loop_windows, Hw. reflexivity.
  - eapply windows_loop_increasing; eassumption.
  - intros Hov i Hi. eapply windows_loop_cover; eassumption.
Qed.

(** The theorem at a chunker whose overlap exceeds its chunk size. *)
Lemma split_fixed_terminates_and_covers_witness :
  1 <= Chunking.chunk_size (Chunking.mkChunker 3 5 0) /\
  exists ws,
    (forall fuel, (length (py "abcdefgh") < fuel)%nat ->
       Chunking.windows_loop fuel (Chunking.mkChunker 3 5 0) (py "abcdefgh") 0 = Some ws /\
       Chunking.split_fixed fuel (Chunking.mkChunker 3 5 0) (py "abcdefgh") None =
         Some (Chunking.chunks_of_windows (py "abcdefgh") None 0 ws)) /\
    StronglySorted (fun w1 w2 => w1.1 < w2.1) ws /\
    (0 <= Chunking.overlap (Chunking.mkChunker 3 5 0) ->
     forall i, 0 <= i < len (py "abcdefgh") -> exists w, w ∈ ws /\ w.1 <= i < w.2).
Proof.
  split; [cbn; lia|].
  apply (split_fixed_terminates_and_covers (Chunking.mkChunker 3 5 0) (py "abcdefgh") None).
  cbn; lia.
Defined.

Example split_fixed_overlap_above_size :
  option_map (map Chunking.text)
    (Chunking.split_fixed 9 (Chunking.mkChunker 3 5 0) (py "abcdefgh") None)
  = Some [py "abc"; py "def"; py "gh"].
Proof. vm_compute. reflexivity. Qed.

(** With a chunk size of zero the window never moves. *)
Lemma split_fixed_loop_zero_size fuel :
  forall chunks index,
    Chunking.split_fixed_loop fuel (Chunking.mkChunker 0 0 50) (py "a") None
      chunks 0 index = None.
Proof.
  induction fuel as [|fuel IH]; intros chunks index; [reflexivity|].
  cbn -[Chunking.split_fixed_loop]. change (Chunking.split_fixed_loop (S fuel)
    (Chunking.mkChunker 0 0 50) (py "a") None chunks 0 index)
    with (Chunking.split_fixed_loop fuel (Chunking.mkChunker 0 0 50) (py "a")
            None chunks 0 index).
  apply IH.
Qed.

(** C9 as stated fails: with [chunk_size = 0] and [overlap = 0] (an overlap
    that reaches the chunk size) [split_fixed] does not terminate on the
    text "a": no fuel gives a result. *)
Lemma split_fixed_zero_size_diverges :
  ~ exists fuel chunks,
      Chunking.split_fixed fuel (Chunking.mkChunker 0 0 50) (py "a") None
      = Some chunks.
Proof.
  intros (fuel & chunks & H). unfold Chunking.split_fixed in H.
  rewrite split_fixed_loop_zero_size in H. discriminate.
Qed.

(** ** The chunker: paragraphs and sentences *)

(** The scenario of the specification, two paragraphs of 33 and 16
    characters with [chunk_size = 40]: with a minimum of ten characters the
    chunks are the two paragraphs; with the default minimum of fifty both
    are dropped. *)
Example split_by_paragraphs_scenario :
  let text := py "P1 sentence one. P1 sentence two." ++ [LF; LF]
              ++ py "P2 sentence one." in
  map (fun c => (Chunking.text c, Chunking.index c,
                 Chunking.metadata c !! py "chunk_index"))
    (Chunking.split_by_paragraphs (Chunking.mkChunker 40 0 10) text None)
  = [ (py "P1 sentence one. P1 sentence two.", 0, Some (VInt 0));
      (py "P2 sentence one.", 1, Some (VInt 1)) ] /\
  Chunking.split_by_paragraphs (Chunking.mkChunker 40 0 50) text None = [].
Proof. split; vm_compute; reflexivity. Qed.

(** The cases of [tests/test_ingestion.py]. *)
Example chunker_tests :
  (* test_basic_chunking *)
  length (Chunking.split (Chunking.mkChunker 50 10 50) (times 200 "A") None) = 1%nat /\
  (* test_min_chunk_size *)
  length (Chunking.split (Chunking.mkChunker 100 0 20)
            (py "This is a longer text that should be kept") None) = 1%nat /\
  (* test_paragraph_split *)
  map Chunking.char_count
    (Chunking.split (Chunking.mkChunker 100 0 50)
       (py "Paragraph one content here." ++ [LF; LF]
        ++ py "Paragraph two content here." ++ [LF; LF] ++ py "Paragraph three.")
       None) = [74] /\
  (* test_chunk_index *)
  map (fun c => Chunking.metadata c !! py "chunk_index")
    (Chunking.split (Chunking.mkChunker 30 0 50) (times 100 "A") None)
  = [Some (VInt 0)].
Proof. repeat split; vm_compute; reflexivity. Qed.

Example re_split_sentences_pieces :
  Chunking.re_split_sentences (py "a." ++ [LF; LF] ++ py "b! c") =
    [py "a."; []; py "b!"; py "c"].
Proof. vm_compute. reflexivity. Qed.

Example split_empty_text :
  Chunking.split (Chunking.mkChunker 100 0 50) [] None = [] /\
  Chunking.split_by_sentences (Chunking.mkChunker 100 0 50) [] None = [].
Proof. split; vm_compute; reflexivity. Qed.

(** *** The accumulation loop as a grouping of the units *)

Section Accumulate.

Variable self : Chunking.Chunker.
Variable sep : pystr.
Variable metadata : option (gmap pystr pyval).

Lemma accumulate_groups units :
  forall chunks current current_length index,
    Chunking.accumulate self sep metadata units chunks current current_length index
    = chunks ++ emit self sep metadata index
                  (groups (Chunking.chunk_size self) units current current_length).
Proof.
  induction units as [|unit rest IH]; intros chunks current current_length index.
  - cbn [Chunking.accumulate groups].
    destruct current as [|u current']; [cbn; rewrite app_nil_r; reflexivity|].
    cbn [emit].
    destruct (len (join sep (u :: current')) >=? Chunking.min_chunk_size self);
      [reflexivity|rewrite app_nil_r; reflexivity].
  - cbn [Chunking.accumulate groups].
    destruct ((current_length + len unit >? Chunking.chunk_size self)
              && negb (bool_decide (current = []))).
    + cbn [emit].
      destruct (len (join sep current) >=? Chunking.min_chunk_size self);
        rewrite IH; [rewrite <- app_assoc|]; reflexivity.
    + rewrite IH. reflexivity.
Qed.

(** The groups partition the units, in order. *)
Lemma groups_concat size units :
  forall current current_length,
    concat (groups size units current current_length) = current ++ units.
Proof.
  induction units as [|unit rest IH]; intros current current_length.
  - cbn. destruct current; cbn; rewrite ?app_nil_r; reflexivity.
  - cbn [groups].
    destruct ((current_length + len unit >? size)
              && negb (bool_decide (current = []))).
    + cbn [concat]. rewrite IH. reflexivity.
    + rewrite IH, <- app_assoc. reflexivity.
Qed.

Lemma total_length_app g h : total_length (g ++ h) = total_length g + total_length h.
Proof. induction g as [|u g IH]; cbn; [reflexivity|]. fold (total_length (g ++ h)).
       fold (total_length g). lia. Qed.

(** No group is empty; a group of several units was only extended while the
    lengths of its units added up to at most [size]. *)
Lemma groups_bound size units :
  forall current current_length,
    current_length = total_length current ->
    (length current <= 1)%nat \/ total_length current <= size ->
    Forall (fun g => g <> [] /\ (length g = 1%nat \/ total_length g <= size))
      (groups size units current current_length).
Proof.
  induction units as [|unit rest IH]; intros current current_length -> Hinv.
  - cbn. destruct current as [|u current']; [constructor|].
    constructor; [|constructor]. split; [discriminate|].
    destruct current' as [|v current'']; [left; reflexivity|].
    right. destruct Hinv as [Hinv|Hinv]; [cbn in Hinv; lia|exact Hinv].
  - cbn [groups].
    assert (Hunit : total_length [unit] = len unit) by (cbn; lia).
    destruct current as [|u current'].
    + rewrite andb_false_r. apply IH; [cbn; lia|left; cbn; lia].
    + rewrite bool_decide_eq_false_2 by discriminate. rewrite andb_true_r.
      destruct (Z.gtb_spec (total_length (u :: current') + len unit) size)
        as [Hgt|Hle].
      * constructor.
        -- split; [discriminate|].
           destruct current' as [|v current'']; [left; reflexivity|].
           right. destruct Hinv as [Hinv|Hinv]; [cbn in Hinv; lia|exact Hinv].
        -- apply IH; [cbn; lia|left; cbn; lia].
      * apply IH; [rewrite total_length_app; lia|].
        right. rewrite total_length_app. lia.
Qed.

End Accumulate.

(** The length of a joined group: the lengths of its units and one
    separator between two of them. *)
Lemma len_join (sep : pystr) (g : list pystr) :
  g <> [] ->
  len (join sep g) = total_length g + len sep * (Z.of_nat (length g) - 1).
Proof.
  induction g as [|u [|v g'] IH]; intros Hne; [congruence| |].
  - cbn [join total_length foldr length]. unfold len. lia.
  - change (join sep (u :: v :: g')) with (u ++ sep ++ join sep (v :: g')).
    specialize (IH ltac:(discriminate)).
    unfold len in *. rewrite !length_app, !Nat2Z.inj_add, IH.
    cbn [total_length foldr length]. unfold len. rewrite !Nat2Z.inj_succ. ring.
Qed.

Lemma elem_of_concat {A} (x : A) (ls : list (list A)) :
  x ∈ concat ls <-> exists l, l ∈ ls /\ x ∈ l.
Proof.
  split.
  - intros H. apply list_elem_of_In, in_concat in H as (l & Hl & Hx).
    exists l. split; apply list_elem_of_In; assumption.
  - intros (l & Hl & Hx). apply list_elem_of_In, in_concat.
    exists l. split; apply list_elem_of_In; assumption.
Qed.

Lemma emit_elem (self : Chunking.Chunker) (sep : pystr)
  (metadata : option (gmap pystr pyval)) (gs : list (list pystr)) :
  forall index c,
    c ∈ emit self sep metadata index gs ->
    exists g, g ∈ gs /\ Chunking.text c = join sep g /\
              Chunking.min_chunk_size self <= Chunking.char_count c.
Proof.
  induction gs as [|g rest IH]; intros index c Hc; [inversion Hc|].
  cbn [emit] in Hc.
  destruct (Z.geb_spec (len (join sep g)) (Chunking.min_chunk_size self)) as [Hge|Hlt].
  - inversion Hc; subst.
    + exists g. split; [left|]. split; [reflexivity|].
      unfold Chunking.char_count. cbn. lia.
    + destruct (IH _ _ H1) as (g' & Hin & Hg'). exists g'. split; [right|]; assumption.
  - destruct (IH _ _ Hc) as (g' & Hin & Hg'). exists g'. split; [right|]; assumption.
Qed.

Lemma emit_keeps_all (self : Chunking.Chunker) (sep : pystr)
  (metadata : option (gmap pystr pyval)) (gs : list (list pystr)) :
  Forall (fun g => Chunking.min_chunk_size self <= len (join sep g)) gs ->
  forall index,
    map Chunking.text (emit self sep metadata index gs) = map (join sep) gs.
Proof.
  induction 1 as [|g rest Hg _ IH]; intros index; [reflexivity|].
  cbn [emit map].
  destruct (Z.geb_spec (len (join sep g)) (Chunking.min_chunk_size self)); [|lia].
  cbn [map]. rewrite IH. reflexivity.
Qed.

(** What holds of every chunk of the two strategies: it joins the units of
    one group; it consists of a single unit, or the lengths of its units
    add up to at most [chunk_size]; its own length adds one separator
    between two units. *)
Lemma accumulate_chunk_bound (self : Chunking.Chunker) (sep : pystr)
  (metadata : option (gmap pystr pyval)) (units : list pystr) (c : Chunking.Chunk) :
  c ∈ Chunking.accumulate self sep metadata units [] [] 0 0 ->
  exists g,
    Chunking.text c = join sep g /\
    g ⊆ units /\
    (length g = 1%nat \/ total_length g <= Chunking.chunk_size self) /\
    Chunking.char_count c
    = total_length g + len sep * (Z.of_nat (length g) - 1) /\
    Chunking.min_chunk_size self <= Chunking.char_count c.
Proof.
  rewrite accumulate_groups. cbn [app]. intros Hc.
  destruct (emit_elem _ _ _ _ _ _ Hc) as (g & Hin & Htext & Hmin).
  pose proof (groups_bound (Chunking.chunk_size self) units [] 0 eq_refl
                (or_introl (Nat.le_0_l 1))) as Hall.
  rewrite Forall_forall in Hall. destruct (Hall g Hin) as [Hne Hsize].
  exists g. repeat split; try assumption.
  - intros u Hu.
    assert (Hcat : u ∈ concat (groups (Chunking.chunk_size self) units [] 0))
      by (apply elem_of_concat; exists g; split; assumption).
    rewrite groups_concat in Hcat. exact Hcat.
  - unfold Chunking.char_count. rewrite Htext. apply len_join. exact Hne.
Qed.

(** With [min_chunk_size <= 1] nothing is dropped: the chunks are the
    joined groups, which partition the units. *)
Lemma accumulate_keeps_all (self : Chunking.Chunker) (sep : pystr)
  (metadata : option (gmap pystr pyval)) (units : list pystr) :
  Chunking.min_chunk_size self <= 1 ->
  Forall (fun u => u <> []) units ->
  exists gs,
    concat gs = units /\
    map Chunking.text (Chunking.accumulate self sep metadata units [] [] 0 0)
    = map (join sep) gs.
Proof.
  intros Hmin Hunits.
  exists (groups (Chunking.chunk_size self) units [] 0).
  split; [apply groups_concat|].
  rewrite accumulate_groups. cbn [app]. apply emit_keeps_all.
  pose proof (groups_bound (Chunking.chunk_size self) units [] 0 eq_refl
                (or_introl (Nat.le_0_l 1))) as Hall.
  apply Forall_forall. intros g Hg.
  rewrite Forall_forall in Hall. destruct (Hall g Hg) as [Hne _].
  rewrite len_join by exact Hne.
  assert (Hsub : Forall (fun u => u <> []) g).
  { apply Forall_forall. intros u Hu. rewrite Forall_forall in Hunits.
    apply Hunits.
    pose proof (groups_concat (Chunking.chunk_size self) units [] 0) as Hcat.
    cbn [app] in Hcat. rewrite <- Hcat.
    apply elem_of_concat. exists g. split; assumption. }
  destruct g as [|u g']; [congruence|].
  inversion Hsub as [|? ? Hu Hrest]; subst.
  assert (1 <= len u) by (unfold len; destruct u; [congruence|cbn; lia]).
  assert (0 <= total_length g').
  { clear. induction g' as [|v g' IH]; cbn; [lia|]. fold (total_length g').
    unfold len. lia. }
  cbn [total_length foldr length]. fold (total_length g').
  assert (0 <= len sep * (Z.of_nat (S (length g')) - 1)) by (unfold len; nia).
  lia.
Qed.

Lemma stripped_nonempty_nonempty (pieces : list pystr) :
  Forall (fun u => u <> []) (Chunking.stripped_nonempty pieces).
Proof.
  unfold Chunking.stripped_nonempty. apply Forall_forall. intros u Hu.
  apply list_elem_of_filter in Hu as [Hne _]. exact Hne.
Qed.

(** *** What the two strategies keep of the text *)

Lemma content_app s t : content (s ++ t) = content s ++ content t.
Proof. apply List.filter_app. Qed.

Lemma content_lstrip s : content (lstrip s) = content s.
Proof.
  induction s as [|c s IH]; [reflexivity|].
  cbn [lstrip]. destruct (isspace c) eqn:E; [|reflexivity].
  rewrite IH. cbn. rewrite E. reflexivity.
Qed.

Lemma content_rev s : content (rev s) = rev (content s).
Proof. apply List.filter_rev. Qed.

Lemma content_strip s : content (strip s) = content s.
Proof.
  unfold strip, rstrip.
  rewrite content_rev, content_lstrip, content_rev, rev_involutive.
  apply content_lstrip.
Qed.

Lemma content_concat_stripped pieces :
  content (concat (Chunking.stripped_nonempty pieces)) = content (concat pieces).
Proof.
  unfold Chunking.stripped_nonempty.
  induction pieces as [|p rest IH]; [reflexivity|].
  cbn [map concat]. rewrite content_app, <- IH, <- (content_strip p).
  destruct (decide (strip p <> [])) as [Hne|He].
  - rewrite filter_cons_True by exact Hne. cbn [concat]. apply content_app.
  - rewrite filter_cons_False by exact He.
    destruct (strip p); [reflexivity|]. exfalso. apply He. discriminate.
Qed.

(** A separator made of whitespace adds nothing to the content. *)
Lemma content_join sep g :
  content sep = [] -> content (join sep g) = content (concat g).
Proof.
  intros Hsep. induction g as [|u [|v g'] IH]; [reflexivity| |].
  - cbn. rewrite app_nil_r. reflexivity.
  - change (join sep (u :: v :: g')) with (u ++ sep ++ join sep (v :: g')).
    change (concat (u :: v :: g')) with (u ++ concat (v :: g')).
    rewrite !content_app, Hsep, IH. reflexivity.
Qed.

Lemma content_concat_join sep gs :
  content sep = [] ->
  content (concat (map (join sep) gs)) = content (concat (concat gs)).
Proof.
  intros Hsep. induction gs as [|g rest IH]; [reflexivity|].
  cbn [map concat]. rewrite concat_app, !content_app, IH, content_join by exact Hsep.
  reflexivity.
Qed.

Lemma split_blank_lines_step cur c d rest :
  split_blank_lines cur (c :: d :: rest) =
    if (c =? LF)%N && (d =? LF)%N
    then cur :: split_blank_lines [] rest
    else split_blank_lines (cur ++ [c]) (d :: rest).
Proof. reflexivity. Qed.

(** [str.split] on blank lines removes line feeds only. *)
Lemma content_split_blank_lines n :
  forall s cur,
    (length s <= n)%nat ->
    content (concat (split_blank_lines cur s)) = content (cur ++ s).
Proof.
  induction n as [|n IH]; intros s cur Hn.
  - destruct s; [|cbn in Hn; lia]. cbn. rewrite !app_nil_r. reflexivity.
  - destruct s as [|c [|d rest]].
    + cbn. rewrite !app_nil_r. reflexivity.
    + cbn. rewrite !app_nil_r. reflexivity.
    + rewrite split_blank_lines_step.
      destruct ((c =? LF)%N && (d =? LF)%N) eqn:E.
      * apply andb_true_iff in E as [Ec Ed].
        apply N.eqb_eq in Ec, Ed. subst c d.
        cbn [concat]. rewrite !content_app.
        rewrite IH by (cbn [length] in Hn; lia).
        reflexivity.
      * rewrite IH by (cbn [length] in Hn |- *; lia).
        rewrite <- app_assoc. reflexivity.
Qed.

(** The pieces of [re.split]: what lies between them is whitespace. *)
Lemma leading_spaces_spec s :
  (Chunking.leading_spaces s <= length s)%nat /\
  content (take (Chunking.leading_spaces s) s) = [].
Proof.
  induction s as [|c s [IH1 IH2]]; [split; [cbn; lia|reflexivity]|].
  cbn [Chunking.leading_spaces]. destruct (isspace c) eqn:E.
  - split; [cbn; lia|]. cbn [take content List.filter]. rewrite E. exact IH2.
  - split; [cbn; lia|reflexivity].
Qed.

Lemma boundary_match_spec text p e :
  Chunking.boundary_match text p = Some e ->
  (p <= e <= length text)%nat /\ content (take (e - p) (drop p text)) = [].
Proof.
  unfold Chunking.boundary_match. destruct p as [|q]; [discriminate|].
  destruct (text !! q) as [c|] eqn:Eq; [|discriminate].
  destruct (Chunking.sentence_final c); [|discriminate].
  intros [= <-].
  destruct (leading_spaces_spec (drop (S q) text)) as [Hlen Hws].
  rewrite length_drop in Hlen.
  apply lookup_lt_Some in Eq.
  split; [lia|].
  match goal with
  | |- content (take ?n _) = _ =>
      replace n with (Chunking.leading_spaces (drop (S q) text)) by lia
  end.
  exact Hws.
Qed.

Lemma search_spec fuel text :
  forall pos must_advance s e,
    Chunking.search fuel text pos must_advance = Some (s, e) ->
    (pos <= s)%nat /\ Chunking.boundary_match text s = Some e.
Proof.
  induction fuel as [|fuel IH]; intros pos ma s e H; [discriminate|].
  cbn [Chunking.search] in H.
  assert (Hnext :
    (if (pos <? length text)%nat then Chunking.search fuel text (S pos) false
     else None) = Some (s, e) ->
    (pos <= s)%nat /\ Chunking.boundary_match text s = Some e).
  { destruct (pos <? length text)%nat; [|discriminate].
    intros H'. destruct (IH _ _ _ _ H') as [Hle Hm]. split; [lia|exact Hm]. }
  destruct (Chunking.boundary_match text pos) as [e'|] eqn:Em; [|exact (Hnext H)].
  destruct (ma && (e' =? pos)%nat); [exact (Hnext H)|].
  injection H as <- <-. split; [lia|exact Em].
Qed.

Lemma content_split_loop fuel text :
  forall pos must_advance,
    (pos <= length text)%nat ->
    content (concat (Chunking.split_loop fuel text pos must_advance))
    = content (drop pos text).
Proof.
  induction fuel as [|fuel IH]; intros pos ma Hpos.
  - cbn. rewrite app_nil_r. reflexivity.
  - cbn [Chunking.split_loop].
    destruct (Chunking.search (S (length text)) text pos ma) as [[s e]|] eqn:Es.
    + destruct (search_spec _ _ _ _ _ _ Es) as [Hle Hm].
      destruct (boundary_match_spec _ _ _ Hm) as [[Hse Helen] Hws].
      cbn [concat]. rewrite content_app, IH by lia.
      rewrite <- (take_drop (s - pos) (drop pos text)) at 2.
      rewrite content_app. f_equal.
      rewrite drop_drop. replace (pos + (s - pos))%nat with s by lia.
      rewrite <- (take_drop (e - s) (drop s text)).
      rewrite content_app, Hws, drop_drop. cbn [app].
      replace (s + (e - s))%nat with e by lia. reflexivity.
    + cbn. rewrite app_nil_r. reflexivity.
Qed.

(** Without a minimum, the two strategies keep all the content of the
    text. *)
Lemma split_by_paragraphs_lossless (self : Chunking.Chunker) (text : pystr)
  (metadata : option (gmap pystr pyval)) :
  Chunking.min_chunk_size self <= 1 ->
  content (concat (map Chunking.text
                     (Chunking.split_by_paragraphs self text metadata)))
  = content text.
Proof.
  intros Hmin. unfold Chunking.split_by_paragraphs.
  destruct (accumulate_keeps_all self [LF; LF] metadata
              (Chunking.stripped_nonempty (split_blank_lines [] text)) Hmin
              (stripped_nonempty_nonempty _)) as (gs & Hcat & ->).
  rewrite content_concat_join by reflexivity.
  rewrite Hcat, content_concat_stripped.
  apply (content_split_blank_lines (length text)). lia.
Qed.

Lemma split_by_sentences_lossless (self : Chunking.Chunker) (text : pystr)
  (metadata : option (gmap pystr pyval)) :
  Chunking.min_chunk_size self <= 1 ->
  content (concat (map Chunking.text
                     (Chunking.split_by_sentences self text metadata)))
  = content text.
Proof.
  intros Hmin. unfold Chunking.split_by_sentences.
  destruct (accumulate_keeps_all self [0x20%N] metadata
              (Chunking.stripped_nonempty (Chunking.re_split_sentences text)) Hmin
              (stripped_nonempty_nonempty _)) as (gs & Hcat & ->).
  rewrite content_concat_join by reflexivity.
  rewrite Hcat, content_concat_stripped.
  unfold Chunking.re_split_sentences. rewrite content_split_loop by lia.
  reflexivity.
Qed.

(** C1.  With the default configuration, [Chunker()], the text "hello" has
    one paragraph and one sentence of five characters; the final flush
    compares the assembled chunk with [min_chunk_size = 50] and drops it,
    so that both strategies return no chunk at all for an input that is
    not empty.  The same happens whatever the metadata. *)
Theorem short_input_is_dropped (metadata : option (gmap pystr pyval)) :
  Chunking.split_by_paragraphs (Chunking.mkChunker 500 100 50) (py "hello") metadata = [] /\
  Chunking.split_by_sentences (Chunking.mkChunker 500 100 50) (py "hello") metadata = [] /\
  strip (py "hello") <> [].
Proof. repeat split; try discriminate; vm_compute; reflexivity. Qed.

(** Content is also lost in the middle of a text: a short paragraph between
    two long ones is closed as a chunk of its own and dropped. *)
Example short_chunk_is_dropped :
  map Chunking.text
    (Chunking.split_by_paragraphs (Chunking.mkChunker 10 0 5)
       (py "0123456789" ++ [LF; LF] ++ py "xy" ++ [LF; LF] ++ py "abcdefghij") None)
  = [py "0123456789"; py "abcdefghij"].
Proof. vm_compute. reflexivity. Qed.

(** C2.  In the configuration of [test_chunk_size], [Chunker(chunk_size=100,
    overlap=0)], three paragraphs of 60, 40 and 60 characters give a first
    chunk of 102 characters, made of two paragraphs neither of which is
    oversized: the loop adds up the lengths of the units and leaves out the
    separators that [join] inserts.  Two sentences of 60 and 40 characters
    give a chunk of 101 characters in the same way. *)
Theorem chunk_exceeds_chunk_size :
  let self := Chunking.mkChunker 100 0 50 in
  let paragraphs := times 60 "A" ++ [LF; LF] ++ times 40 "B" ++ [LF; LF] ++ times 60 "C" in
  let sentences := times 59 "A" ++ py ". " ++ times 39 "B" ++ py "." in
  map Chunking.text (Chunking.split_by_paragraphs self paragraphs None)
    = [times 60 "A" ++ [LF; LF] ++ times 40 "B"; times 60 "C"] /\
  map Chunking.char_count (Chunking.split_by_paragraphs self paragraphs None)
    = [102; 60] /\
  map Chunking.text (Chunking.split_by_sentences self sentences None)
    = [times 59 "A" ++ py ". " ++ times 39 "B" ++ py "."] /\
  map Chunking.char_count (Chunking.split_by_sentences self sentences None)
    = [101].
Proof. repeat split; vm_compute; reflexivity. Qed.

(** ** The tool registry *)

(** The two messages of [ToolRegistry.execute] are never empty. *)
Lemma unknown_tool_message_nonempty (tool_name : pystr) :
  py "错误: 未找到工具 '" ++ tool_name ++ py "'" <> [].
Proof. discriminate. Qed.

Lemma tool_error_message_nonempty (e : Exception) :
  py "工具执行出错: " ++ exc_str e <> [].
Proof. discriminate. Qed.

(** What the handler of [ToolRegistry.execute] lets out. *)
Lemma handler_raises (raised e : BaseException) :
  ToolRegistry.handler raised = Raise e <-> slips_through raised e.
Proof.
  split.
  - destruct raised as [e0|cls raised'|name]; cbn [ToolRegistry.handler];
      intros H; try discriminate; injection H as <-; constructor.
  - intros []; reflexivity.
Qed.

(** Keyword arguments that bind are passed on as they are. *)
Lemma bind_arguments_inv (kw kw' : list (pystr * json)) :
  ToolRegistry.bind_arguments kw = Ok kw' -> kw' = kw.
Proof.
  unfold ToolRegistry.bind_arguments. destruct (existsb _ kw); [discriminate|].
  intros H. injection H as <-. reflexivity.
Qed.

Lemma execute_bound (self : list (pystr * Tool.Tool)) tool_name kw :
  ToolRegistry.bind_arguments kw = Ok kw ->
  ToolRegistry.execute self tool_name kw
  = ToolRegistry.execute_body self tool_name kw.
Proof. intros H. unfold ToolRegistry.execute. rewrite H. reflexivity. Qed.

(** C5, amended.  Let the keyword arguments bind: none of them is named
    [self] or [tool_name].  For a name that is not registered,
    [ToolRegistry.execute] returns the "not found" message.  When the tool
    returns, it returns what the tool returned.  When the tool raises an
    instance of [Exception] that prints, it returns the message built from
    it, which is not empty.  What the tool raises otherwise gets out: an
    exception that is no instance of [Exception] as it is, and in place of
    an instance whose [str] raises, what [str] raised. *)
Theorem registry_execute_catches_exceptions
  (self : list (pystr * Tool.Tool)) (tool_name : pystr) (kw : list (pystr * json)) :
  ToolRegistry.bind_arguments kw = Ok kw ->
  match ToolRegistry.get self tool_name with
  | None =>
      exists s, ToolRegistry.execute self tool_name kw = Ok s /\
                s = py "错误: 未找到工具 '" ++ tool_name ++ py "'" /\ s <> []
  | Some tool =>
      match Tool.execute tool kw with
      | Ok out => ToolRegistry.execute self tool_name kw = Ok out
      | Raise (IsException e) =>
          exists s, ToolRegistry.execute self tool_name kw = Ok s /\
                    s = py "工具执行出错: " ++ exc_str e /\ s <> []
      | Raise (Unprintable _ raised) =>
          ToolRegistry.execute self tool_name kw = Raise raised
      | Raise (NotException name) =>
          ToolRegistry.execute self tool_name kw = Raise (NotException name)
      end
  end.
Proof.
  intros Hbind. rewrite (execute_bound self tool_name kw Hbind).
  unfold ToolRegistry.execute_body.
  destruct (ToolRegistry.get self tool_name) as [tool|].
  - destruct (Tool.execute tool kw) as [out|[e|cls raised|name]];
      cbn [ToolRegistry.handler]; try reflexivity.
    eexists. split; [reflexivity|]. split; [reflexivity|].
    apply tool_error_message_nonempty.
  - eexists. split; [reflexivity|]. split; [reflexivity|].
    apply unknown_tool_message_nonempty.
Qed.

(** The theorem at the tool whose [execute] raises a [RuntimeError]. *)
Lemma registry_execute_catches_exceptions_witness :
  exists s,
    ToolRegistry.execute (Agent.registry (Sample.agent 3)) (py "failing") [] = Ok s /\
    s = py "工具执行出错: " ++ py "boom" /\ s <> [].
Proof.
  apply (registry_execute_catches_exceptions
           (Agent.registry (Sample.agent 3)) (py "failing") []).
  reflexivity.
Defined.

(** C5 as stated fails, in three ways: a tool that is interrupted, a tool
    whose exception does not print, and a keyword argument named
    [tool_name] each make [ToolRegistry.execute] raise. *)
Lemma registry_execute_raises :
  ToolRegistry.execute (ToolRegistry.register ToolRegistry.init Sample.interrupted)
    (py "interrupted") []
  = Raise (NotException (py "KeyboardInterrupt")) /\
  ToolRegistry.execute (ToolRegistry.register ToolRegistry.init Sample.unprintable)
    (py "unprintable") []
  = Raise (mkException TypeError (py "__str__ returned non-string")) /\
  ToolRegistry.execute (Agent.registry (Sample.agent 3)) (py "echo")
    [(py "text", JStr (py "hi")); (py "tool_name", JStr (py "echo"))]
  = Raise (mkException TypeError (py "execute() got multiple values for argument")).
Proof. repeat split; vm_compute; reflexivity. Qed.

(** Registering a second tool under a name replaces the first and keeps one
    entry. *)
Lemma register_overwrites (self : list (pystr * Tool.Tool)) (t1 t2 : Tool.Tool) :
  Tool.name t1 = Tool.name t2 ->
  ToolRegistry.register (ToolRegistry.register self t1) t2
  = ToolRegistry.register self t2.
Proof.
  unfold ToolRegistry.register. intros ->.
  induction self as [|[k v] rest IH]; cbn.
  - rewrite bool_decide_eq_true_2 by reflexivity. reflexivity.
  - destruct (bool_decide (k = Tool.name t2)) eqn:E; cbn.
    + rewrite bool_decide_eq_true_2 by reflexivity. reflexivity.
    + rewrite E, IH. reflexivity.
Qed.

Lemma get_register (self : list (pystr * Tool.Tool)) (t : Tool.Tool) :
  ToolRegistry.get (ToolRegistry.register self t) (Tool.name t) = Some t.
Proof.
  unfold ToolRegistry.get, ToolRegistry.register.
  induction self as [|[k v] rest IH]; cbn.
  - rewrite bool_decide_eq_true_2 by reflexivity. reflexivity.
  - destruct (bool_decide (k = Tool.name t)) eqn:E; cbn.
    + rewrite bool_decide_eq_true_2 by reflexivity. reflexivity.
    + rewrite E. exact IH.
Qed.

Example registry_execute_examples :
  let registry := Agent.registry (Sample.agent 3) in
  ToolRegistry.list_tools registry = [py "echo"; py "failing"] /\
  ToolRegistry.execute registry (py "failing") [] = Ok (py "工具执行出错: boom") /\
  ToolRegistry.execute registry (py "nonexistent") [(py "arg", JStr (py "value"))]
  = Ok (py "错误: 未找到工具 'nonexistent'") /\
  ToolRegistry.execute registry (py "echo") [(py "text", JStr (py "hi"))]
  = Ok (py "echo: hi").
Proof. repeat split; vm_compute; reflexivity. Qed.

(** ** The orchestrator *)

Section Orchestrator.

Import Agent.

Variable env : Env.
Variable self : AgentOrchestrator.

Let tools := ToolRegistry.get_openai_tools (registry self).

Lemma dispatch_cons tc rest st :
  dispatch env self (tc :: rest) st =
    match observation env self tc with
    | Ok o => dispatch env self rest (mkState (messages st ++ [o]) (requests st))
    | Raise e => (Raise e, st)
    end.
Proof.
  unfold observation. cbn [dispatch]. unfold mbind, lift, append.
  destruct (json_loads env (function_arguments tc)) as [args|e]; [|reflexivity].
  cbn [widen Py.bind].
  destruct (unpack args) as [kw|e]; [|reflexivity].
  cbn [widen Py.bind].
  destruct (ToolRegistry.execute (registry self) (function_name tc) kw)
    as [out|e]; reflexivity.
Qed.

(** An observation fails when the arguments fail to decode or to bind, or
    when the tool raises what the handler of the registry lets out. *)
Lemma observation_raises tc e :
  observation env self tc = Raise e ->
  widen (decode_arguments env tc) = Raise e
  \/ exists kw,
       decode_arguments env tc = Ok kw /\
       tool_lets_out (registry self) (function_name tc) kw e.
Proof.
  unfold observation, decode_arguments.
  destruct (json_loads env (function_arguments tc)) as [args|e0];
    cbn [widen Py.bind]; [|intros H; injection H as <-; left; reflexivity].
  destruct (unpack args) as [kw|e0]; cbn [widen Py.bind]; [|intros H; injection H as <-; left; reflexivity].
  unfold ToolRegistry.execute.
  destruct (ToolRegistry.bind_arguments kw) as [kw'|e0] eqn:Eb;
    cbn [widen Py.bind]; [|intros H; injection H as <-; left; reflexivity].
  apply bind_arguments_inv in Eb as ->.
  unfold ToolRegistry.execute_body.
  destruct (ToolRegistry.get (registry self) (function_name tc)) as [tool|] eqn:Eg;
    cbn [Py.bind]; [|discriminate].
  destruct (Tool.execute tool kw) as [out|raised] eqn:Et; cbn [Py.bind]; [discriminate|].
  destruct (ToolRegistry.handler raised) as [out|e'] eqn:Eh; cbn [Py.bind];
    [discriminate|].
  intros H. injection H as <-. right. exists kw. split; [reflexivity|].
  exists tool, raised. repeat split; try assumption.
  apply handler_raises. exact Eh.
Qed.

(** The inner loop appends the observations of the calls in the order
    requested, until one fails; it sends no request. *)
Lemma dispatch_all calls :
  forall obs st,
    Forall2 (fun tc o => observation env self tc = Ok o) calls obs ->
    dispatch env self calls st
    = (Ok tt, mkState (messages st ++ obs) (requests st)).
Proof.
  induction calls as [|tc rest IH]; intros obs st H; inversion H; subst.
  - cbn. rewrite app_nil_r. destruct st; reflexivity.
  - rewrite dispatch_cons. rewrite H2. rewrite IH with (obs := l') by assumption.
    cbn. rewrite <- app_assoc. reflexivity.
Qed.

Lemma dispatch_failure pre :
  forall obs tc post st e,
    Forall2 (fun c o => observation env self c = Ok o) pre obs ->
    observation env self tc = Raise e ->
    dispatch env self (pre ++ tc :: post) st
    = (Raise e, mkState (messages st ++ obs) (requests st)).
Proof.
  induction pre as [|c pre IH]; intros obs tc post st e H Htc; inversion H; subst.
  - cbn [app]. rewrite dispatch_cons, Htc, app_nil_r. destruct st; reflexivity.
  - cbn [app]. rewrite dispatch_cons. rewrite H2.
    rewrite IH with (obs := l') (e := e) by assumption.
    cbn. rewrite <- app_assoc. reflexivity.
Qed.

Lemma dispatch_outcome calls :
  forall st,
    (exists obs,
        Forall2 (fun tc o => observation env self tc = Ok o) calls obs /\
        dispatch env self calls st
        = (Ok tt, mkState (messages st ++ obs) (requests st)))
    \/ (exists pre tc post obs e,
           calls = pre ++ tc :: post /\
           Forall2 (fun c o => observation env self c = Ok o) pre obs /\
           observation env self tc = Raise e /\
           dispatch env self calls st
           = (Raise e, mkState (messages st ++ obs) (requests st))).
Proof.
  induction calls as [|tc rest IH]; intros st.
  - left. exists []. split; [constructor|]. apply dispatch_all. constructor.
  - destruct (observation env self tc) as [o|e] eqn:E.
    + destruct (IH (mkState (messages st ++ [o]) (requests st)))
        as [(obs & Hobs & Hd)|(pre & tc' & post & obs & e & -> & Hobs & Htc & Hd)].
      * left. exists (o :: obs). split; [constructor; assumption|].
        apply dispatch_all. constructor; assumption.
      * right. exists (tc :: pre), tc', post, (o :: obs), e.
        repeat split; try assumption; [constructor; assumption|].
        apply (dispatch_failure (tc :: pre)); [constructor|]; assumption.
    + right. exists [], tc, rest, [], e.
      repeat split; try assumption; [constructor|].
      apply (dispatch_failure []); [constructor|assumption].
Qed.

End Orchestrator.

Section OrchestratorRun.

Import Agent.

Variable env : Env.
Variable self : AgentOrchestrator.

Let tools := ToolRegistry.get_openai_tools (registry self).

(** One iteration sends one request, and ends according to its answer. *)
Lemma iteration_spec st r st' :
  iteration env self tools st = (r, st') ->
  exists rq,
    requests st' = requests st ++ [rq] /\
    rq = mkRequest LoopCall (messages st) (tools_or_none tools) /\
    match r with
    | Ok (Return a) =>
        exists m, create env (req_messages rq) (req_tools rq) = Ok m /\
                  tool_calls m = [] /\ content m = a /\
                  messages st' = messages st
    | Ok Continue =>
        exists m obs,
          create env (req_messages rq) (req_tools rq) = Ok m /\
          tool_calls m <> [] /\
          Forall2 (fun tc o => observation env self tc = Ok o) (tool_calls m) obs /\
          messages st' = messages st ++ AssistantMessage m :: obs
    | Raise e => raised_at env self rq e
    end.
Proof.
  unfold iteration, mbind, call_client. intros H.
  exists (mkRequest LoopCall (messages st) (tools_or_none tools)).
  unfold raised_at. cbn [req_messages req_tools].
  destruct (create env (messages st) (tools_or_none tools)) as [m|e] eqn:Ec;
    cbn [widen] in H |- *.
  - destruct (tool_calls m) as [|tc calls] eqn:Et.
    + unfold ret in H. injection H as <- <-. cbn.
      repeat split. exists m. repeat split; assumption.
    + unfold append at 1 in H. cbn [messages requests] in H.
      destruct (dispatch_outcome env self (tc :: calls)
                  (mkState (messages st ++ [AssistantMessage m])
                     (requests st ++ [mkRequest LoopCall (messages st)
                                        (tools_or_none tools)])))
        as [(obs & Hobs & Hd)|(pre & tc' & post & obs & e & Hsplit & Hobs & Htc & Hd)];
        rewrite Hd in H; unfold ret in H; injection H as <- <-; cbn.
      * repeat split. exists m, obs. rewrite Et.
        repeat split; try assumption; [discriminate|].
        rewrite <- app_assoc. reflexivity.
      * repeat split. right. exists m, tc'. rewrite Et, Hsplit.
        repeat split.
        -- apply elem_of_app. right. left.
        -- apply observation_raises. assumption.
  - injection H as <- <-. cbn. repeat split. left. reflexivity.
Qed.

(** The loop over [iterations]: the requests it sends, all from the loop,
    are at most as many as the iterations; they are as many when the loop
    runs to its end; otherwise the last one decided the outcome. *)
Lemma react_loop_spec iterations :
  forall st r st',
    react_loop env self tools iterations st = (r, st') ->
    exists reqs,
      requests st' = requests st ++ reqs /\
      Forall (fun rq => req_site rq = LoopCall) reqs /\
      (length reqs <= length iterations)%nat /\
      match r with
      | Ok Continue => length reqs = length iterations
      | Ok (Return a) =>
          exists before rq m,
            reqs = before ++ [rq] /\
            create env (req_messages rq) (req_tools rq) = Ok m /\
            tool_calls m = [] /\ content m = a
      | Raise e =>
          exists before rq, reqs = before ++ [rq] /\ raised_at env self rq e
      end.
Proof.
  induction iterations as [|i rest IH]; intros st r st' H.
  - cbn in H. injection H as <- <-. exists [].
    rewrite app_nil_r. repeat split; constructor.
  - cbn [react_loop] in H. unfold mbind at 1 in H.
    destruct (iteration env self tools st) as [r1 st1] eqn:E1.
    destruct (iteration_spec _ _ _ E1) as (rq & Hreq & Hrq & Hr1).
    assert (Hsite : req_site rq = LoopCall) by (rewrite Hrq; reflexivity).
    destruct r1 as [[|a]|e].
    + destruct (IH _ _ _ H) as (reqs & Hreqs & Hall & Hlen & Hr).
      exists (rq :: reqs). rewrite Hreqs, Hreq, <- app_assoc.
      repeat split; [constructor; assumption|cbn; lia|].
      destruct r as [[|a]|e].
      * cbn. lia.
      * destruct Hr as (before & rq' & m & -> & Hm).
        exists (rq :: before), rq', m. split; [reflexivity|exact Hm].
      * destruct Hr as (before & rq' & -> & Hm).
        exists (rq :: before), rq'. split; [reflexivity|exact Hm].
    + unfold ret in H. injection H as <- <-.
      exists [rq]. repeat split; [assumption|repeat constructor; assumption|cbn; lia|].
      destruct Hr1 as (m & Hc & Ht & Hcontent & _).
      exists [], rq, m. repeat split; assumption.
    + injection H as <- <-.
      exists [rq]. repeat split; [assumption|repeat constructor; assumption|cbn; lia|].
      exists [], rq. split; [reflexivity|assumption].
Qed.

Lemma range_length a b : length (range a b) = Z.to_nat (b - a).
Proof. unfold range. rewrite length_map, length_seq. reflexivity. Qed.

End OrchestratorRun.

Lemma filter_loop_calls (reqs : list Agent.request) :
  Forall (fun rq => Agent.req_site rq = Agent.LoopCall) reqs ->
  filter (fun rq => Agent.req_site rq = Agent.LoopCall) reqs = reqs /\
  filter (fun rq => Agent.req_site rq = Agent.SummaryCall) reqs = [].
Proof.
  induction 1 as [|rq reqs Hrq _ [IH1 IH2]]; [split; reflexivity|].
  split.
  - rewrite filter_cons_True by assumption. rewrite IH1. reflexivity.
  - rewrite filter_cons_False by (rewrite Hrq; discriminate). exact IH2.
Qed.

Lemma forced_answer_spec (env : Agent.Env) (st : Agent.state) :
  let msgs := Agent.messages st
                ++ [Agent.RoleContent (py "user") Agent.summary_request] in
  Agent.forced_answer env st =
    (match Agent.create env msgs None with
     | Ok m => Ok (Agent.content m)
     | Raise e => Raise e
     end,
     Agent.mkState msgs
       (Agent.requests st ++ [Agent.mkRequest Agent.SummaryCall msgs None])).
Proof.
  unfold Agent.forced_answer, Agent.mbind, Agent.append, Agent.call_client.
  cbn [Agent.messages Agent.requests].
  destruct (Agent.create env _ None); reflexivity.
Qed.

(** C6.  One call of [run] sends at most [max_iterations] requests from the
    loop.  When the loop runs through all its iterations without an answer
    it has sent exactly that many, and [run] then sends exactly one more
    request, the forced summary, which carries no tools.  In every other
    case no summary request is sent. *)
Theorem run_request_budget
  (env : Agent.Env) (self : Agent.AgentOrchestrator) (user_question : pystr) :
  let loop :=
    Agent.react_loop env self
      (ToolRegistry.get_openai_tools (Agent.registry self))
      (range 1 (Agent.max_iterations self + 1))
      (Agent.initial_state self user_question) in
  let final := Agent.run env self user_question in
  (calls_at Agent.LoopCall final.2 <= Z.to_nat (Agent.max_iterations self))%nat /\
  if exhausted loop.1
  then calls_at Agent.LoopCall final.2 = Z.to_nat (Agent.max_iterations self) /\
       calls_at Agent.SummaryCall final.2 = 1%nat /\
       exists rq, last (Agent.requests final.2) = Some rq /\
                  Agent.req_site rq = Agent.SummaryCall /\
                  Agent.req_tools rq = None
  else calls_at Agent.SummaryCall final.2 = 0%nat.
Proof.
  intros loop final. subst loop final.
  unfold Agent.run, Agent.run_from, Agent.mbind.
  destruct (Agent.react_loop env self _ _ _) as [r st1] eqn:E.
  destruct (react_loop_spec env self _ _ _ _ E) as (reqs & Hreqs & Hall & Hlen & Hr).
  cbn [Agent.initial_state Agent.requests app] in Hreqs.
  rewrite range_length in Hlen, Hr.
  replace (Agent.max_iterations self + 1 - 1) with (Agent.max_iterations self)
    in Hlen, Hr by lia.
  destruct (filter_loop_calls reqs Hall) as [Hf1 Hf2].
  cbn [fst snd].
  destruct r as [[|a]|e]; cbn [exhausted].
  - rewrite forced_answer_spec. cbn [snd]. unfold calls_at. cbn [Agent.requests].
    rewrite Hreqs, !filter_app, Hf1, Hf2.
    rewrite filter_cons_False, filter_cons_True by (cbn [Agent.req_site]; congruence).
    rewrite !filter_nil, app_nil_r, length_app.
    repeat split; try (cbn [length app]; lia).
    eexists. split; [apply last_snoc|]. split; reflexivity.
  - unfold Agent.ret. cbn [snd]. unfold calls_at. rewrite Hreqs, Hf1, Hf2.
    split; [lia|reflexivity].
  - cbn [snd]. unfold calls_at. rewrite Hreqs, Hf1, Hf2.
    split; [lia|reflexivity].
Qed.

(** C4, amended.  [run] either returns the content of the answer to its
    last request, which is a loop request answered without tool calls or
    the forced summary, and that content may be empty; or it raises an
    exception that comes from its last request: a failure of the reasoning
    service, a failure to decode or bind the arguments of a tool call that
    the answer requested, or what the tool of such a call raised and the
    handler of [ToolRegistry.execute] let out, which is an exception that
    is no instance of [Exception], or what [str] raised for one that is. *)
Theorem run_outcome
  (env : Agent.Env) (self : Agent.AgentOrchestrator) (user_question : pystr) :
  match Agent.run env self user_question with
  | (Ok answer, st) =>
      exists rq m,
        last (Agent.requests st) = Some rq /\
        Agent.create env (Agent.req_messages rq) (Agent.req_tools rq) = Ok m /\
        Agent.content m = answer /\
        (Agent.req_site rq = Agent.LoopCall /\ Agent.tool_calls m = []
         \/ Agent.req_site rq = Agent.SummaryCall)
  | (Raise e, st) =>
      exists rq,
        last (Agent.requests st) = Some rq /\
        (widen (Agent.create env (Agent.req_messages rq) (Agent.req_tools rq))
         = Raise e
         \/ exists m tc,
              Agent.create env (Agent.req_messages rq) (Agent.req_tools rq) = Ok m /\
              tc ∈ Agent.tool_calls m /\
              (widen (decode_arguments env tc) = Raise e
               \/ exists kw tool raised,
                    decode_arguments env tc = Ok kw /\
                    ToolRegistry.get (Agent.registry self) (Agent.function_name tc)
                    = Some tool /\
                    Tool.execute tool kw = Raise raised /\
                    slips_through raised e))
  end.
Proof.
  unfold Agent.run, Agent.run_from, Agent.mbind.
  destruct (Agent.react_loop env self _ _ _) as [r st1] eqn:E.
  destruct (react_loop_spec env self _ _ _ _ E) as (reqs & Hreqs & Hall & Hlen & Hr).
  cbn [Agent.initial_state Agent.requests app] in Hreqs.
  destruct r as [[|a]|e].
  - rewrite forced_answer_spec.
    set (msgs := Agent.messages st1 ++ _).
    destruct (Agent.create env msgs None) as [m|e] eqn:Ec.
    + exists (Agent.mkRequest Agent.SummaryCall msgs None), m.
      cbn [Agent.requests]. rewrite last_snoc.
      repeat split; [exact Ec|right; reflexivity].
    + exists (Agent.mkRequest Agent.SummaryCall msgs None).
      cbn [Agent.requests]. rewrite last_snoc.
      split; [reflexivity|left]. cbn [Agent.req_messages Agent.req_tools].
      rewrite Ec. reflexivity.
  - destruct Hr as (before & rq & m & -> & Hc & Ht & Hcontent).
    unfold Agent.ret. exists rq, m. rewrite Hreqs, last_snoc.
    repeat split; try assumption. left.
    apply Forall_app in Hall as [_ Hall]. inversion Hall; subst. split; assumption.
  - destruct Hr as (before & rq & -> & Hraised).
    exists rq. rewrite Hreqs, last_snoc. split; [reflexivity|].
    destruct Hraised as [Hc|(m & tc & Hc & Htc & [Hd|(kw & Hd & tool & raised & H)])].
    + left. exact Hc.
    + right. exists m, tc. repeat split; try assumption. left. exact Hd.
    + right. exists m, tc. repeat split; try assumption. right.
      exists kw, tool, raised. split; assumption.
Qed.

(** *** Malformed tool arguments *)

Section MalformedArguments.

Import Agent.

Variable env : Env.
Variable self : AgentOrchestrator.

Let tools := ToolRegistry.get_openai_tools (registry self).

Lemma react_loop_reaches its st its' st' :
  reaches env self its st its' st' ->
  react_loop env self tools its st = react_loop env self tools its' st'.
Proof.
  induction 1 as [|i its st st1 its' st' Hit _ IH]; [reflexivity|].
  cbn [react_loop]. unfold mbind at 1. unfold tools at 1. rewrite Hit. exact IH.
Qed.

Lemma iteration_with_calls st m :
  create env (messages st) (tools_or_none tools) = Ok m ->
  tool_calls m <> [] ->
  iteration env self tools st =
    match dispatch env self (tool_calls m)
            (mkState (messages st ++ [AssistantMessage m])
               (requests st ++ [mkRequest LoopCall (messages st)
                                  (tools_or_none tools)])) with
    | (Ok _, st') => (Ok Continue, st')
    | (Raise e, st') => (Raise e, st')
    end.
Proof.
  intros Hc Hne. unfold iteration, mbind, call_client. rewrite Hc. cbn [widen].
  destruct (tool_calls m) as [|tc calls]; [congruence|].
  unfold append at 1. cbn [messages requests].
  destruct (dispatch env self (tc :: calls) _) as [[[]|e] st']; reflexivity.
Qed.

End MalformedArguments.

(** C3, amended.  Suppose that [run] is about to start an iteration in
    state [st], that the reasoning service answers with the tool calls
    [pre ++ tc :: post], that the calls [pre] give the observations [obs],
    and that the arguments of [tc] fail to decode with the exception [e].
    Then nothing catches [e]: [run] raises it.  At that moment the
    conversation holds the assistant's message and the observations of
    [pre]; no observation has been appended for [tc], and the calls [post]
    have not run. *)
Theorem malformed_arguments_propagate
  (env : Agent.Env) (self : Agent.AgentOrchestrator) (user_question : pystr)
  (i : Z) (rest : list Z) (st : Agent.state) (m : Agent.ChatMessage)
  (pre post : list Agent.ToolCall) (tc : Agent.ToolCall)
  (obs : list Agent.message) (e : Exception) :
  let tools := ToolRegistry.get_openai_tools (Agent.registry self) in
  reaches env self (range 1 (Agent.max_iterations self + 1))
    (Agent.initial_state self user_question) (i :: rest) st ->
  Agent.create env (Agent.messages st) (Agent.tools_or_none tools) = Ok m ->
  Agent.tool_calls m = pre ++ tc :: post ->
  Forall2 (fun c o => observation env self c = Ok o) pre obs ->
  Agent.json_loads env (Agent.function_arguments tc) = Raise e ->
  Agent.run env self user_question =
    (Raise e,
     Agent.mkState
       (Agent.messages st ++ Agent.AssistantMessage m :: obs)
       (Agent.requests st
          ++ [Agent.mkRequest Agent.LoopCall (Agent.messages st)
                (Agent.tools_or_none tools)])).
Proof.
  intros tools Hreach Hc Hcalls Hobs Hbad. subst tools.
  unfold Agent.run, Agent.run_from. unfold Agent.mbind at 1.
  rewrite (react_loop_reaches env self _ _ _ _ Hreach).
  cbn [Agent.react_loop]. unfold Agent.mbind at 1.
  rewrite (iteration_with_calls env self st m Hc)
    by (rewrite Hcalls; destruct pre; discriminate).
  rewrite Hcalls.
  erewrite dispatch_failure; [|exact Hobs|].
  - cbn [Agent.messages Agent.requests]. rewrite <- app_assoc. reflexivity.
  - unfold observation, decode_arguments. rewrite Hbad. reflexivity.
Qed.

Example json_loads_object :
  Json.loads (Sample.dq "{'a' : [1, 2.5, null, true], 'b': {'c': 'x', 'a': -3}, 'a': 'z'}")
  = Ok (JObj [ (py "a", JStr (py "z"));
               (py "b", JObj [(py "c", JStr (py "x")); (py "a", JInt (-3))]) ]).
Proof. vm_compute. reflexivity. Qed.

Example json_loads_rejects :
  Json.loads (py "{") = Raise Json.error /\
  Json.loads [] = Raise Json.error /\
  Json.loads (py "[1,]") = Raise Json.error /\
  Json.loads (py "01") = Raise Json.error.
Proof. repeat split; vm_compute; reflexivity. Qed.

(** An integer literal of more than 4300 digits is refused by [int], also
    when a fault follows it in the text; the sign does not count. *)
Example json_loads_long_integers :
  Json.loads (replicate 4301 0x31%N) = Raise Json.too_long /\
  Json.loads (py "[" ++ replicate 4301 0x31%N ++ py ",]") = Raise Json.too_long /\
  Json.loads (py "-" ++ replicate 4300 0x31%N)
  = Ok (JInt (- Z.of_N (Json.value_of_digits (replicate 4300 0x31%N)))) /\
  Json.loads (replicate 4301 0x31%N ++ py ".0")
  = Ok (JFloat (replicate 4301 0x31%N ++ py ".0")).
Proof. repeat split; vm_compute; reflexivity. Qed.

(** C3 as stated fails: the service requests two calls and the payload of
    the second is cut short; [run] raises the decoder's exception, and the
    conversation ends with the observation of the first call. *)
Lemma malformed_arguments_escape :
  Agent.run Sample.truncating (Sample.agent 3) (py "hi") =
    (Raise Json.error,
     Agent.mkState
       [ Agent.RoleContent (py "system") (py "You are an assistant.");
         Agent.RoleContent (py "user") (py "hi");
         Agent.AssistantMessage Sample.cut_short;
         Agent.ToolObservation (py "call_1") (py "echo: hi") ]
       [ Agent.mkRequest Agent.LoopCall
           [ Agent.RoleContent (py "system") (py "You are an assistant.");
             Agent.RoleContent (py "user") (py "hi") ]
           (Some (ToolRegistry.get_openai_tools
                    (Agent.registry (Sample.agent 3)))) ]).
Proof. vm_compute. reflexivity. Qed.

(** The theorem at the same conversation. *)
Lemma malformed_arguments_propagate_witness :
  Agent.run Sample.truncating (Sample.agent 3) (py "hi") =
    (Raise Json.error,
     Agent.mkState
       (Agent.messages (Agent.initial_state (Sample.agent 3) (py "hi"))
          ++ Agent.AssistantMessage Sample.cut_short
          :: [Agent.ToolObservation (py "call_1") (py "echo: hi")])
       (Agent.requests (Agent.initial_state (Sample.agent 3) (py "hi"))
          ++ [Agent.mkRequest Agent.LoopCall
                (Agent.messages (Agent.initial_state (Sample.agent 3) (py "hi")))
                (Agent.tools_or_none
                   (ToolRegistry.get_openai_tools
                      (Agent.registry (Sample.agent 3))))])).
Proof.
  apply (malformed_arguments_propagate Sample.truncating (Sample.agent 3) (py "hi")
           1 [2; 3] (Agent.initial_state (Sample.agent 3) (py "hi"))
           Sample.cut_short
           [Sample.call "call_1" "echo" (Sample.dq "{'text': 'hi'}")] []
           (Sample.call "call_2" "echo" (Sample.dq "{'text': 'h"))).
  - apply reaches_here.
  - vm_compute. reflexivity.
  - reflexivity.
  - constructor; [vm_compute; reflexivity|constructor].
  - vm_compute. reflexivity.
Defined.

(** When the service answers with an empty content and no tool call, [run]
    returns the empty string. *)
Example run_returns_empty_string :
  (Agent.run Sample.silent (Sample.agent 3) (py "hi")).1 = Ok [].
Proof. vm_compute. reflexivity. Qed.

(** C4 as stated fails in both of its promises: with a service that
    answers with an empty content and no tool call, [run] returns the
    empty string; and with a service that requests a tool that is
    interrupted, [run] raises the tool's [KeyboardInterrupt]. *)
Lemma run_breaks_both_promises :
  (Agent.run Sample.silent (Sample.agent 3) (py "hi")).1 = Ok [] /\
  (Agent.run Sample.interrupting (Sample.interruptible 3) (py "hi")).1
  = Raise (NotException (py "KeyboardInterrupt")).
Proof. split; vm_compute; reflexivity. Qed.

(** An interrupt inside a tool leaves [run]: the service requests the tool
    that is interrupted and then the echo; [run] raises
    [KeyboardInterrupt] after the assistant's message, without an
    observation and without running the second call. *)
Example run_lets_interrupt_escape :
  Agent.run Sample.interrupting (Sample.interruptible 3) (py "hi") =
    (Raise (NotException (py "KeyboardInterrupt")),
     Agent.mkState
       [ Agent.RoleContent (py "system") (py "You are an assistant.");
         Agent.RoleContent (py "user") (py "hi");
         Agent.AssistantMessage
           (Agent.mkChatMessage []
              [ Sample.call "call_1" "interrupted" (Sample.dq "{}");
                Sample.call "call_2" "echo" (Sample.dq "{'text': 'hi'}") ]) ]
       [ Agent.mkRequest Agent.LoopCall
           [ Agent.RoleContent (py "system") (py "You are an assistant.");
             Agent.RoleContent (py "user") (py "hi") ]
           (Some (ToolRegistry.get_openai_tools
                    (Agent.registry (Sample.interruptible 3)))) ]).
Proof. vm_compute. reflexivity. Qed.

(** The budget scenario: with [max_iterations = 1] and a service that keeps
    asking for a tool, [run] makes one tool round, in which the tool's
    exception becomes an observation, and returns the forced summary. *)
Example run_budget_scenario :
  let final := Agent.run Sample.insistent (Sample.agent 1) (py "hi") in
  final.1 = Ok (py "summary") /\
  map Agent.req_site (Agent.requests final.2) = [Agent.LoopCall; Agent.SummaryCall] /\
  Agent.ToolObservation (py "call_1") (py "工具执行出错: boom")
    ∈ Agent.messages final.2.
Proof.
  vm_compute. repeat split. do 3 right. left.
Qed.

(** ** The calculator *)

Lemma all_allowed_false (expression : pystr) :
  (exists c, c ∈ expression /\ c ∉ CalculatorTool.allowed_chars) ->
  CalculatorTool.all_allowed expression = false.
Proof.
  intros (c & Hin & Hout). unfold CalculatorTool.all_allowed.
  apply not_true_iff_false. intros Hall.
  rewrite forallb_forall in Hall.
  specialize (Hall c (proj1 (list_elem_of_In _ _) Hin)).
  apply bool_decide_eq_true_1 in Hall. contradiction.
Qed.

(** C10.  [CalculatorTool.execute] returns a string for every interpreter
    and every expression: it never raises.  An expression with a character
    outside the allow-list gives the rejection message whatever the
    interpreter is, so that it is not evaluated.  For an expression made of
    allowed characters whose evaluation raises, the string is the message of
    the first matching [except] clause: division by zero, syntax error, or
    the catch-all. *)
Theorem calculator_execute_total
  (I : CalculatorTool.Interp) (expression : pystr) :
  (exists s, CalculatorTool.execute I expression = Ok s) /\
  ((exists c, c ∈ expression /\ c ∉ CalculatorTool.allowed_chars) ->
   forall I', CalculatorTool.execute I' expression = Ok CalculatorTool.msg_chars) /\
  (CalculatorTool.all_allowed expression = true ->
   forall e, CalculatorTool.eval I expression = Raise e ->
     CalculatorTool.execute I expression =
       Ok (if isinstance e ZeroDivisionError then CalculatorTool.msg_zero
           else if isinstance e SyntaxError then CalculatorTool.msg_syntax expression
           else CalculatorTool.msg_other e)).
Proof.
  split; [|split].
  - unfold CalculatorTool.execute.
    destruct (CalculatorTool.try_body I expression) as [s|e]; [eexists; reflexivity|].
    destruct (isinstance e ZeroDivisionError); [eexists; reflexivity|].
    destruct (isinstance e SyntaxError); eexists; reflexivity.
  - intros Hbad I'. unfold CalculatorTool.execute, CalculatorTool.try_body.
    rewrite (all_allowed_false _ Hbad). reflexivity.
  - intros Hall e He. unfold CalculatorTool.execute, CalculatorTool.try_body.
    rewrite Hall, He. cbn [negb Py.bind].
    destruct (isinstance e ZeroDivisionError); [reflexivity|].
    destruct (isinstance e SyntaxError); reflexivity.
Qed.

(** The cases of [tests/test_tools.py] that do not depend on the value of an
    evaluation. *)
Example calculator_rejects_letters (I : CalculatorTool.Interp) :
  CalculatorTool.execute I (py "abc + def") = Ok CalculatorTool.msg_chars.
Proof. reflexivity. Qed.

Example calculator_division_by_zero (I : CalculatorTool.Interp) :
  CalculatorTool.eval I (py "1 / 0")
  = Raise (mkException ZeroDivisionError (py "division by zero")) ->
  CalculatorTool.execute I (py "1 / 0") = Ok (py "错误：除数不能为零").
Proof.
  intros H. unfold CalculatorTool.execute, CalculatorTool.try_body.
  change (CalculatorTool.all_allowed (py "1 / 0")) with true.
  cbn [negb]. rewrite H. reflexivity.
Qed.

(** ** The vector store *)

(** *** Binary64: order and subtraction from one *)

Module Binary64Facts.

Import Binary64.

Lemma pow2_pred (d : Z) : 0 < d -> 2 ^ d = 2 * 2 ^ (d - 1).
Proof.
  intros Hd. replace d with (Z.succ (d - 1)) at 1 by lia.
  apply Z.pow_succ_r. lia.
Qed.

Lemma digits2_pos_bounds p :
  2 ^ (Zpos (digits2_pos p) - 1) <= Zpos p < 2 ^ Zpos (digits2_pos p).
Proof.
  induction p as [p IH|p IH|]; cbn [digits2_pos].
  - rewrite Pos2Z.inj_succ, (Pos2Z.inj_xI p).
    replace (Z.succ (Zpos (digits2_pos p)) - 1) with (Zpos (digits2_pos p)) by lia.
    rewrite Z.pow_succ_r by lia.
    rewrite (pow2_pred (Zpos (digits2_pos p))) in * by lia.
    remember (2 ^ (Z.pos (digits2_pos p) - 1)) as X eqn:EX. clear EX. lia.
  - rewrite Pos2Z.inj_succ, (Pos2Z.inj_xO p).
    replace (Z.succ (Zpos (digits2_pos p)) - 1) with (Zpos (digits2_pos p)) by lia.
    rewrite Z.pow_succ_r by lia.
    rewrite (pow2_pred (Zpos (digits2_pos p))) in * by lia.
    remember (2 ^ (Z.pos (digits2_pos p) - 1)) as X eqn:EX. clear EX. lia.
  - cbn. lia.
Qed.

(** A mantissa and an exponent of the format. *)
Lemma bounded_spec m e :
  bounded prec emax m e = true ->
  -1074 <= e <= 971 /\ Zpos m < 2 ^ 53 /\ (-1074 < e -> 2 ^ 52 <= Zpos m).
Proof.
  unfold bounded, canonical_mantissa, fexp, SpecFloat.emin, prec, emax.
  intros H. apply andb_prop in H as [Hc He].
  apply Z.eqb_eq in Hc. apply Z.leb_le in He.
  pose proof (digits2_pos_bounds m) as [Hlo Hhi].
  assert (Hd : Zpos (digits2_pos m) <= 53) by lia.
  split; [lia|]. split.
  - eapply Z.lt_le_trans; [exact Hhi|]. apply Z.pow_le_mono_r; lia.
  - intros Hgt. replace (Zpos (digits2_pos m)) with 53 in Hlo by lia. exact Hlo.
Qed.

Lemma scaled_finite_pos m e :
  bounded prec emax m e = true ->
  0 < Zpos m * 2 ^ (e + 1074) < 2 ^ 2098.
Proof.
  intros H. apply bounded_spec in H as (He & Hm & _).
  assert (0 < 2 ^ (e + 1074)) by (apply Z.pow_pos_nonneg; lia).
  split; [lia|].
  assert (2 ^ (e + 1074) <= 2 ^ 2045) by (apply Z.pow_le_mono_r; lia).
  replace (2 ^ 2098) with (2 ^ 53 * 2 ^ 2045) by (rewrite <- Z.pow_add_r by lia; reflexivity).
  nia.
Qed.

Lemma scaled_compare_pos m1 e1 m2 e2 :
  bounded prec emax m1 e1 = true ->
  bounded prec emax m2 e2 = true ->
  (Zpos m1 * 2 ^ (e1 + 1074) ?= Zpos m2 * 2 ^ (e2 + 1074))
  = match e1 ?= e2 with
    | Lt => Lt
    | Gt => Gt
    | Eq => Pos.compare_cont Eq m1 m2
    end.
Proof.
  intros H1 H2.
  apply bounded_spec in H1 as (He1 & Hm1 & Hn1).
  apply bounded_spec in H2 as (He2 & Hm2 & Hn2).
  assert (Hlt : forall ma ea mb eb,
             -1074 <= ea -> ea < eb -> Zpos ma < 2 ^ 53 -> 2 ^ 52 <= Zpos mb ->
             Zpos ma * 2 ^ (ea + 1074) < Zpos mb * 2 ^ (eb + 1074)).
  { intros ma ea mb eb Hea Hlt Hma Hmb.
    replace (eb + 1074) with ((ea + 1074) + (eb - ea)) by lia.
    rewrite (Z.pow_add_r 2 (ea + 1074) (eb - ea)) by lia.
    assert (0 < 2 ^ (ea + 1074)) by (apply Z.pow_pos_nonneg; lia).
    assert (2 ^ 1 <= 2 ^ (eb - ea)) by (apply Z.pow_le_mono_r; lia).
    change (2 ^ 53) with (2 ^ 52 * 2 ^ 1) in Hma.
    apply Z.lt_le_trans with (2 ^ 52 * 2 ^ 1 * 2 ^ (ea + 1074)).
    - apply Z.mul_lt_mono_pos_r; assumption.
    - rewrite (Z.mul_comm (2 ^ (ea + 1074))), Z.mul_assoc.
      apply Z.mul_le_mono_nonneg_r; [lia|].
      apply Z.mul_le_mono_nonneg; [lia|assumption|lia|assumption]. }
  destruct (Z.compare_spec e1 e2) as [->|Hlt12|Hgt12].
  - assert (0 < 2 ^ (e2 + 1074)) by (apply Z.pow_pos_nonneg; lia).
    rewrite <- Zmult_compare_compat_r by lia. reflexivity.
  - apply Z.compare_lt_iff. apply Hlt; [lia|assumption|assumption|apply Hn2; lia].
  - apply Z.compare_gt_iff. apply Hlt; [lia|assumption|assumption|apply Hn1; lia].
Qed.

Ltac compare_goal :=
  match goal with
  | |- (_ ?= _) = Lt => apply Z.compare_lt_iff
  | |- (_ ?= _) = Gt => apply Z.compare_gt_iff
  | |- (_ ?= _) = Eq => apply Z.compare_eq_iff
  end.

(** On the numbers of the format, the comparison of the format is the
    comparison of the values. *)
Lemma SFcompare_scaled x y :
  valid_binary x = true -> valid_binary y = true ->
  is_NaN x = false -> is_NaN y = false ->
  SFcompare x y = Some (scaled x ?= scaled y).
Proof.
  intros Hx Hy Nx Ny.
  destruct x as [sx|sx| |sx mx ex], y as [sy|sy| |sy my ey]; try discriminate;
    cbn [SFcompare scaled valid_binary] in *.
  - reflexivity.
  - destruct sy; reflexivity.
  - pose proof (scaled_finite_pos my ey Hy).
    destruct sy; cbn [cond_Zopp]; f_equal; symmetry;
      compare_goal; lia.
  - destruct sx; reflexivity.
  - destruct sx, sy; reflexivity.
  - pose proof (scaled_finite_pos my ey Hy).
    destruct sx, sy; cbn [cond_Zopp]; f_equal; symmetry;
      compare_goal; lia.
  - pose proof (scaled_finite_pos mx ex Hx).
    destruct sx; cbn [cond_Zopp]; f_equal; symmetry;
      compare_goal; lia.
  - pose proof (scaled_finite_pos mx ex Hx).
    destruct sx, sy; cbn [cond_Zopp]; f_equal; symmetry;
      compare_goal; lia.
  - pose proof (scaled_finite_pos mx ex Hx).
    pose proof (scaled_finite_pos my ey Hy).
    pose proof (scaled_compare_pos mx ex my ey Hx Hy) as Hc.
    pose proof (scaled_compare_pos my ey mx ex Hy Hx) as Hc'.
    destruct sx, sy; cbn [cond_Zopp]; f_equal.
    + rewrite Z.compare_opp, Hc'. rewrite (Z.compare_antisym ex ey).
      destruct (ex ?= ey); cbn [CompOpp]; try reflexivity.
      rewrite (Pos.compare_cont_antisym _ _ _). reflexivity.
    + symmetry. apply Z.compare_lt_iff. lia.
    + symmetry. apply Z.compare_gt_iff. lia.
    + rewrite Hc. reflexivity.
Qed.





























(** *** The primitive operations *)
Lemma leb_scaled (x y : float) :
  (x <=? y)%float = true <->
  is_NaN (Prim2SF x) = false /\ is_NaN (Prim2SF y) = false /\
  scaled (Prim2SF x) <= scaled (Prim2SF y).
Proof.
  rewrite leb_spec. unfold SFleb.
  pose proof (Prim2SF_valid x) as Vx. pose proof (Prim2SF_valid y) as Vy.
  destruct (is_NaN (Prim2SF x)) eqn:Nx.
  { destruct (Prim2SF x); try discriminate. cbn. split; [discriminate|]. intros [? _]. discriminate. }
  destruct (is_NaN (Prim2SF y)) eqn:Ny.
  { destruct (Prim2SF y); try discriminate.
    destruct (Prim2SF x); cbn; (split; [discriminate|]); intros (_ & ? & _); discriminate. }
  rewrite (SFcompare_scaled _ _ Vx Vy Nx Ny).
  destruct (Z.compare_spec (scaled (Prim2SF x)) (scaled (Prim2SF y))); split;
    try discriminate; try (intros; repeat split; lia); intros (_ & _ & ?); lia.
Qed.

(** The order of the format is transitive. *)
Lemma leb_trans (x y z : float) :
  (x <=? y)%float = true -> (y <=? z)%float = true -> (x <=? z)%float = true.
Proof.
  rewrite !leb_scaled. intros (Nx & Ny & Hxy) (_ & Nz & Hyz).
  repeat split; try assumption. lia.
Qed.


End Binary64Facts.

(** *** The search *)

Section Search.

Import VectorStore.

Lemma search_loop_omap min_score rows :
  forall acc,
    search_loop min_score rows acc = acc ++ omap (row_result min_score) rows.
Proof.
  induction rows as [|[[[doc meta] distance] doc_id] rest IH]; intros acc.
  - cbn. rewrite app_nil_r. reflexivity.
  - cbn [search_loop omap list_omap row_result]. rewrite IH.
    destruct (min_score <=? 1 - distance)%float; [|reflexivity].
    rewrite <- app_assoc. reflexivity.
Qed.







End Search.


(** A failure of the library's query is the failure of [search]. *)
Lemma search_propagates
  (db : VectorStore.Chroma) (self : gmap pystr VectorStore.IndexRecord)
  (query_text : pystr) (top_k : Z)
  (where_ : option (VectorStore.where_filter db)) (min_score : float)
  (e : Exception) :
  VectorStore.query db self [query_text] top_k where_ = Raise e ->
  VectorStore.search db self query_text top_k where_ min_score = Raise e.
Proof. intros H. unfold VectorStore.search. rewrite H. reflexivity. Qed.


(** The sample search keeps the first row, and rounds as binary64 does: a
    distance of 0.1 gives the score 0.9, which passes the threshold 0.9. *)
Example search_sample :
  option_map (map (fun r => (VectorStore.id r, VectorStore.score r)))
    (match VectorStore.search SampleIndex.db ∅ (py "revenue") 2 None 0.9%float with
     | Ok rs => Some rs
     | Raise _ => None
     end)
  = Some [(py "doc_0", 0.9%float)].
Proof. vm_compute. reflexivity. Qed.

(** *** Generated ids without deletions *)









Lemma validate_ids_ok (ids : list pystr) :
  ids <> [] -> NoDup ids -> VectorStore.validate_ids ids = Ok tt.
Proof.
  intros Hne Hnd. unfold VectorStore.validate_ids.
  rewrite bool_decide_eq_false_2 by exact Hne.
  rewrite bool_decide_eq_true_2 by exact Hnd. reflexivity.
Qed.




(** C8.  With a library whose embedding function answers, three texts are
    added without ids to an empty collection and get the ids doc_0, doc_1,
    doc_2; the record doc_0 is deleted, which leaves two records; a fourth
    text added without an id gets the id built from the count, doc_2, which
    the collection already holds.  The call returns that id, and the
    collection still holds two records, the old text under doc_2. *)
Theorem generated_id_collides_after_delete :
  let page (n : Z) : gmap pystr pyval := {[py "page" := VInt n]} in
  let db := SampleIndex.db in
  exists c1,
    VectorStore.add_documents db ∅ [py "a"; py "b"; py "c"]
      (Some [page 1; page 2; page 3]) None
      = Ok ([py "doc_0"; py "doc_1"; py "doc_2"], c1) /\
    exists c2,
      VectorStore.delete_ c1 [py "doc_0"] = Ok c2 /\
      VectorStore.count c2 = 2 /\
      VectorStore.generated_ids (VectorStore.count c2) [py "d"] = [py "doc_2"] /\
      VectorStore.document <$> c2 !! py "doc_2" = Some (py "c") /\
      exists c3,
        VectorStore.add_documents db c2 [py "d"] (Some [page 4]) None
          = Ok ([py "doc_2"], c3) /\
        VectorStore.document <$> c3 !! py "doc_2" = Some (py "c") /\
        VectorStore.count c3 = 2.
Proof.
  cbv zeta.
  eexists. split; [vm_compute; reflexivity|].
  eexists. split; [vm_compute; reflexivity|].
  repeat split; try (vm_compute; reflexivity).
  eexists. split; [vm_compute; reflexivity|].
  split; vm_compute; reflexivity.
Qed.

(** * Further properties *)

(** ** The chunker *)

(** *** Indices and metadata *)

Lemma range_from_cons (a : Z) (n : nat) :
  map (fun i => a + Z.of_nat i) (seq 0 (S n))
  = a :: map (fun i => (a + 1) + Z.of_nat i) (seq 0 n).
Proof.
  cbn [seq map]. f_equal; [lia|].
  rewrite <- seq_shift, map_map. apply map_ext. intros i. lia.
Qed.

Lemma numbered_from_cons metadata index chunk_text chunks :
  numbered_from metadata (index + 1) chunks ->
  numbered_from metadata index (Chunking.new_chunk metadata chunk_text index :: chunks).
Proof.
  intros [Hidx Hmeta]. split.
  - cbn [length]. rewrite range_from_cons. cbn [map Chunking.new_chunk Chunking.index].
    rewrite Hidx. reflexivity.
  - constructor; [reflexivity|exact Hmeta].
Qed.

Lemma numbered_from_zero metadata chunks :
  numbered_from metadata 0 chunks -> numbered metadata chunks.
Proof.
  intros [Hidx Hmeta]. split; [|exact Hmeta].
  rewrite Hidx. unfold range. rewrite Z.sub_0_r, Nat2Z.id. reflexivity.
Qed.

Lemma emit_numbered self sep metadata gs :
  forall index, numbered_from metadata index (emit self sep metadata index gs).
Proof.
  induction gs as [|g rest IH]; intros index; [split; constructor|].
  cbn [emit].
  destruct (len (join sep g) >=? Chunking.min_chunk_size self); [|apply IH].
  apply numbered_from_cons, IH.
Qed.

Lemma chunks_of_windows_numbered text metadata ws :
  forall index,
    numbered_from metadata index (Chunking.chunks_of_windows text metadata index ws).
Proof.
  induction ws as [|[s e] rest IH]; intros index; [split; constructor|].
  cbn [Chunking.chunks_of_windows].
  destruct (strip (slice text s e)); [apply IH|].
  apply numbered_from_cons, IH.
Qed.

(** With a chunk size of at least one character [split_fixed] returns, and
    every fuel above the length of the text gives the chunks of the
    windows visited. *)
Lemma split_fixed_returns (self : Chunking.Chunker) (text : pystr)
  (metadata : option (gmap pystr pyval)) :
  1 <= Chunking.chunk_size self ->
  exists ws,
    Chunking.windows_loop (S (length text)) self text 0 = Some ws /\
    forall fuel, (length text < fuel)%nat ->
      Chunking.split_fixed fuel self text metadata
      = Some (Chunking.chunks_of_windows text metadata 0 ws).
Proof.
  intros Hcs.
  destruct (windows_loop_terminates self text (S (length text)) 0 Hcs) as [ws Hws].
  { unfold len. lia. }
  exists ws. split; [exact Hws|]. intros fuel Hfuel.
  unfold Chunking.split_fixed. rewrite split_fixed_loop_windows.
  rewrite (windows_loop_fuel_le self text (S (length text)) fuel 0 ws)
    by (lia || exact Hws).
  reflexivity.
Qed.

(** X3.  Whatever the text and the configuration, the chunks of
    [split_by_paragraphs] and of [split_by_sentences] are numbered 0, 1,
    2, ... in the order returned, without a gap where a short chunk was
    dropped; the metadata of each chunk is the caller's metadata with the
    chunk's own index under "chunk_index", which replaces a value that the
    caller gave under that key. *)
Theorem paragraph_and_sentence_chunks_numbered
  (self : Chunking.Chunker) (text : pystr) (metadata : option (gmap pystr pyval)) :
  numbered metadata (Chunking.split_by_paragraphs self text metadata) /\
  numbered metadata (Chunking.split_by_sentences self text metadata).
Proof.
  unfold Chunking.split_by_paragraphs, Chunking.split_by_sentences.
  rewrite !accumulate_groups. cbn [app].
  split; apply numbered_from_zero, emit_numbered.
Qed.

(** X8.  For a chunk size of at least one character [split_fixed] returns
    chunks that are numbered 0, 1, 2, ... in order, windows whose text is
    blank being skipped without using a number, and each chunk carries the
    caller's metadata with its index under "chunk_index". *)
Theorem fixed_chunks_numbered
  (self : Chunking.Chunker) (text : pystr) (metadata : option (gmap pystr pyval)) :
  1 <= Chunking.chunk_size self ->
  exists chunks,
    (forall fuel, (length text < fuel)%nat ->
       Chunking.split_fixed fuel self text metadata = Some chunks) /\
    numbered metadata chunks.
Proof.
  intros Hcs.
  destruct (split_fixed_returns self text metadata Hcs) as (ws & _ & Hret).
  eexists. split; [exact Hret|].
  apply numbered_from_zero, chunks_of_windows_numbered.
Qed.

Lemma fixed_chunks_numbered_witness :
  let self := Chunking.mkChunker 3 1 0 in
  let metadata := Some ({[py "page" := VInt 7]} : gmap pystr pyval) in
  1 <= Chunking.chunk_size self /\
  exists chunks,
    (forall fuel, (length (py "abcdefgh") < fuel)%nat ->
       Chunking.split_fixed fuel self (py "abcdefgh") metadata = Some chunks) /\
    numbered metadata chunks.
Proof.
  split; [cbn; lia|].
  apply (fixed_chunks_numbered (Chunking.mkChunker 3 1 0) (py "abcdefgh")
           (Some {[py "page" := VInt 7]})).
  cbn; lia.
Defined.

(** *** Blank texts *)

Lemma content_nil_lstrip s : content s = [] -> lstrip s = [].
Proof.
  induction s as [|c s IH]; [reflexivity|].
  unfold content. cbn [List.filter lstrip].
  destruct (isspace c); cbn [negb]; [exact IH|discriminate].
Qed.

Lemma content_nil_strip s : content s = [] -> strip s = [].
Proof.
  intros H. unfold strip. rewrite (content_nil_lstrip _ H). reflexivity.
Qed.

Lemma content_nil_take n s : content s = [] -> content (take n s) = [].
Proof.
  intros H. rewrite <- (take_drop n s), content_app in H.
  apply app_eq_nil in H as [H _]. exact H.
Qed.

Lemma content_nil_drop n s : content s = [] -> content (drop n s) = [].
Proof.
  intros H. rewrite <- (take_drop n s), content_app in H.
  apply app_eq_nil in H as [_ H]. exact H.
Qed.

Lemma stripped_nonempty_blank pieces :
  content (concat pieces) = [] -> Chunking.stripped_nonempty pieces = [].
Proof.
  unfold Chunking.stripped_nonempty.
  induction pieces as [|p rest IH]; [reflexivity|].
  cbn [concat map]. rewrite content_app. intros H.
  apply app_eq_nil in H as [Hp Hrest].
  rewrite filter_cons_False by (rewrite (content_nil_strip _ Hp); auto).
  apply IH, Hrest.
Qed.

Lemma chunks_of_windows_blank text metadata ws :
  content text = [] ->
  forall index, Chunking.chunks_of_windows text metadata index ws = [].
Proof.
  intros H. induction ws as [|[s e] rest IH]; intros index; [reflexivity|].
  cbn [Chunking.chunks_of_windows].
  rewrite content_nil_strip; [apply IH|].
  unfold slice. apply content_nil_take, content_nil_drop, H.
Qed.

(** X5.  A text that is empty or consists of whitespace only gives no
    chunk at all with any of the three strategies, whatever the sizes
    configured; for [split_fixed] with a chunk size of at least one
    character the call returns the empty list. *)
Theorem blank_text_gives_no_chunks
  (self : Chunking.Chunker) (text : pystr) (metadata : option (gmap pystr pyval)) :
  content text = [] ->
  Chunking.split_by_paragraphs self text metadata = [] /\
  Chunking.split_by_sentences self text metadata = [] /\
  (1 <= Chunking.chunk_size self ->
   forall fuel, (length text < fuel)%nat ->
     Chunking.split_fixed fuel self text metadata = Some []).
Proof.
  intros H. split; [|split].
  - unfold Chunking.split_by_paragraphs.
    rewrite stripped_nonempty_blank; [reflexivity|].
    rewrite (content_split_blank_lines (length text)) by lia. exact H.
  - unfold Chunking.split_by_sentences.
    rewrite stripped_nonempty_blank; [reflexivity|].
    unfold Chunking.re_split_sentences. rewrite content_split_loop by lia. exact H.
  - intros Hcs fuel Hfuel.
    destruct (split_fixed_returns self text metadata Hcs) as (ws & _ & Hret).
    rewrite (Hret fuel Hfuel), chunks_of_windows_blank by exact H. reflexivity.
Qed.

(** The theorem at a text of a space, two line feeds, a tab and an
    ideographic space. *)
Lemma blank_text_gives_no_chunks_witness :
  let text := [0x20; 0x0A; 0x0A; 0x09; 0x3000]%N in
  content text = [] /\
  Chunking.split_by_paragraphs (Chunking.mkChunker 10 0 0) text None = [] /\
  Chunking.split_by_sentences (Chunking.mkChunker 10 0 0) text None = [] /\
  (1 <= Chunking.chunk_size (Chunking.mkChunker 10 0 0) ->
   forall fuel, (length text < fuel)%nat ->
     Chunking.split_fixed fuel (Chunking.mkChunker 10 0 0) text None = Some []).
Proof.
  split; [reflexivity|].
  apply (blank_text_gives_no_chunks (Chunking.mkChunker 10 0 0)
           [0x20; 0x0A; 0x0A; 0x09; 0x3000]%N None).
  reflexivity.
Defined.

(** *** Paragraphs and sentences: content, overlap, sizes *)

(** X1.  With [min_chunk_size] at most one, [split_by_paragraphs] and
    [split_by_sentences] lose nothing but whitespace: the characters of
    the chunks that are not whitespace, read in order, are those of the
    text. *)
Theorem paragraphs_and_sentences_keep_content
  (self : Chunking.Chunker) (text : pystr) (metadata : option (gmap pystr pyval)) :
  Chunking.min_chunk_size self <= 1 ->
  content (concat (map Chunking.text
                     (Chunking.split_by_paragraphs self text metadata)))
  = content text /\
  content (concat (map Chunking.text
                     (Chunking.split_by_sentences self text metadata)))
  = content text.
Proof.
  intros Hmin. split.
  - apply split_by_paragraphs_lossless, Hmin.
  - apply split_by_sentences_lossless, Hmin.
Qed.

Lemma paragraphs_and_sentences_keep_content_witness :
  let self := Chunking.mkChunker 8 0 1 in
  let text := py "One. Two!  Three?" ++ [LF; LF] ++ py " x " in
  Chunking.min_chunk_size self <= 1 /\
  content (concat (map Chunking.text (Chunking.split_by_paragraphs self text None)))
  = content text /\
  content (concat (map Chunking.text (Chunking.split_by_sentences self text None)))
  = content text.
Proof.
  split; [cbn; lia|].
  apply (paragraphs_and_sentences_keep_content (Chunking.mkChunker 8 0 1)
           (py "One. Two!  Three?" ++ [LF; LF] ++ py " x ") None).
  cbn; lia.
Defined.

Lemma emit_min_only self1 self2 sep metadata gs :
  Chunking.min_chunk_size self1 = Chunking.min_chunk_size self2 ->
  forall index, emit self1 sep metadata index gs = emit self2 sep metadata index gs.
Proof.
  intros Hmin. induction gs as [|g rest IH]; intros index; [reflexivity|].
  cbn [emit]. rewrite Hmin, !IH. reflexivity.
Qed.

(** X4.  The overlap configured has no effect on [split_by_paragraphs], on
    [split_by_sentences] and on [split], the default entry point: two
    chunkers that differ in their overlap only return the same chunks. *)
Theorem paragraphs_and_sentences_ignore_overlap
  (chunk_size overlap1 overlap2 min_chunk_size : Z) (text : pystr)
  (metadata : option (gmap pystr pyval)) :
  Chunking.split_by_paragraphs
    (Chunking.mkChunker chunk_size overlap1 min_chunk_size) text metadata
  = Chunking.split_by_paragraphs
      (Chunking.mkChunker chunk_size overlap2 min_chunk_size) text metadata /\
  Chunking.split_by_sentences
    (Chunking.mkChunker chunk_size overlap1 min_chunk_size) text metadata
  = Chunking.split_by_sentences
      (Chunking.mkChunker chunk_size overlap2 min_chunk_size) text metadata /\
  Chunking.split
    (Chunking.mkChunker chunk_size overlap1 min_chunk_size) text metadata
  = Chunking.split
      (Chunking.mkChunker chunk_size overlap2 min_chunk_size) text metadata.
Proof.
  unfold Chunking.split, Chunking.split_by_paragraphs, Chunking.split_by_sentences.
  rewrite !accumulate_groups. cbn [app Chunking.chunk_size].
  repeat split; apply emit_min_only; reflexivity.
Qed.

Lemma accumulate_joins (self : Chunking.Chunker) (sep : pystr)
  (metadata : option (gmap pystr pyval)) (units : list pystr) :
  Forall (joins self sep units)
    (Chunking.accumulate self sep metadata units [] [] 0 0).
Proof.
  apply Forall_forall. intros c Hc.
  rewrite accumulate_groups in Hc. cbn [app] in Hc.
  destruct (emit_elem _ _ _ _ _ _ Hc) as (g & Hin & Htext & Hmin).
  pose proof (groups_bound (Chunking.chunk_size self) units [] 0 eq_refl
                (or_introl (Nat.le_0_l 1))) as Hall.
  rewrite Forall_forall in Hall. destruct (Hall g Hin) as [Hne Hsize].
  exists g. repeat split; try assumption.
  - intros u Hu.
    assert (Hcat : u ∈ concat (groups (Chunking.chunk_size self) units [] 0))
      by (apply elem_of_concat; exists g; split; assumption).
    rewrite groups_concat in Hcat. exact Hcat.
  - unfold Chunking.char_count. rewrite Htext. apply len_join. exact Hne.
Qed.

(** X2.  Every chunk of [split_by_paragraphs] joins, with a blank line,
    paragraphs of the text (stripped and not empty), and every chunk of
    [split_by_sentences] joins sentences with a space.  A chunk is a
    single unit, however long, or the lengths of its units add up to at
    most [chunk_size]; its own length adds the separators between them and
    is at least [min_chunk_size]. *)
Theorem paragraph_and_sentence_chunk_sizes
  (self : Chunking.Chunker) (text : pystr) (metadata : option (gmap pystr pyval)) :
  Forall (joins self [LF; LF]
            (Chunking.stripped_nonempty (split_blank_lines [] text)))
    (Chunking.split_by_paragraphs self text metadata) /\
  Forall (joins self [0x20%N]
            (Chunking.stripped_nonempty (Chunking.re_split_sentences text)))
    (Chunking.split_by_sentences self text metadata).
Proof. split; apply accumulate_joins. Qed.

(** *** The fixed strategy: windows, sizes, content *)

Lemma windows_loop_formula (self : Chunking.Chunker) (text : pystr) fuel :
  1 <= Chunking.chunk_size self ->
  forall start ws,
    Chunking.windows_loop fuel self text start = Some ws ->
    (forall k, (k < length ws)%nat <-> start + Z.of_nat k * advance self < len text) /\
    (forall k w, ws !! k = Some w ->
       w = (start + Z.of_nat k * advance self,
            start + Z.of_nat k * advance self + Chunking.chunk_size self)).
Proof.
  intros Hcs. pose proof (advance_positive self Hcs) as Hadv.
  induction fuel as [|fuel IH]; intros start ws H; [discriminate|].
  rewrite windows_loop_unfold in H.
  destruct (Z.ltb_spec start (len text)) as [Hlt|Hge].
  - destruct (Chunking.windows_loop fuel self text (start + advance self))
      as [ws'|] eqn:E; [|discriminate].
    injection H as <-. destruct (IH _ _ E) as [Hlen Hnth]. split.
    + intros [|k]; cbn [length].
      * split; [intros _; lia|intros _; lia].
      * rewrite <- Nat.succ_lt_mono, Hlen.
        replace (start + advance self + Z.of_nat k * advance self)
          with (start + Z.of_nat (S k) * advance self) by lia.
        reflexivity.
    + intros [|k] w Hw; cbn in Hw.
      * injection Hw as <-. f_equal; lia.
      * rewrite (Hnth _ _ Hw). f_equal; lia.
  - injection H as <-. split.
    + intros k. cbn [length]. split; [lia|]. intros Hk.
      assert (0 <= Z.of_nat k * advance self) by nia. lia.
    + intros k w Hw. inversion Hw.
Qed.

(** X6.  For a chunk size of at least one character, the windows that
    [split_fixed] cuts are these: window number k begins at k times the
    advance, which is [chunk_size - overlap] when the overlap is below the
    chunk size and [chunk_size] otherwise, and is [chunk_size] wide; there
    is a window for every k whose start lies inside the text and for no
    other.  The chunks returned are the stripped texts of these windows
    that are not empty. *)
Theorem fixed_windows_advance
  (self : Chunking.Chunker) (text : pystr) (metadata : option (gmap pystr pyval)) :
  1 <= Chunking.chunk_size self ->
  exists ws,
    (forall fuel, (length text < fuel)%nat ->
       Chunking.split_fixed fuel self text metadata
       = Some (Chunking.chunks_of_windows text metadata 0 ws)) /\
    (forall k, (k < length ws)%nat <-> Z.of_nat k * advance self < len text) /\
    (forall k w, ws !! k = Some w ->
       w = (Z.of_nat k * advance self,
            Z.of_nat k * advance self + Chunking.chunk_size self)).
Proof.
  intros Hcs.
  destruct (split_fixed_returns self text metadata Hcs) as (ws & Hws & Hret).
  exists ws. split; [exact Hret|].
  destruct (windows_loop_formula self text _ Hcs _ _ Hws) as [Hlen Hnth].
  split.
  - intros k. rewrite Hlen. rewrite Z.add_0_l. reflexivity.
  - intros k w Hw. rewrite (Hnth k w Hw). rewrite !Z.add_0_l. reflexivity.
Qed.

Lemma fixed_windows_advance_witness :
  let self := Chunking.mkChunker 3 1 0 in
  let text := py "abcdefgh" in
  1 <= Chunking.chunk_size self /\
  exists ws,
    (forall fuel, (length text < fuel)%nat ->
       Chunking.split_fixed fuel self text None
       = Some (Chunking.chunks_of_windows text None 0 ws)) /\
    (forall k, (k < length ws)%nat <-> Z.of_nat k * advance self < len text) /\
    (forall k w, ws !! k = Some w ->
       w = (Z.of_nat k * advance self,
            Z.of_nat k * advance self + Chunking.chunk_size self)).
Proof.
  split; [cbn; lia|].
  apply (fixed_windows_advance (Chunking.mkChunker 3 1 0) (py "abcdefgh") None).
  cbn; lia.
Defined.

Lemma length_lstrip s : (length (lstrip s) <= length s)%nat.
Proof.
  induction s as [|c s IH]; [cbn; lia|].
  cbn [lstrip]. destruct (isspace c); cbn [length] in *; lia.
Qed.

Lemma length_strip s : (length (strip s) <= length s)%nat.
Proof.
  unfold strip, rstrip. rewrite length_rev.
  etransitivity; [apply length_lstrip|]. rewrite length_rev. apply length_lstrip.
Qed.

Lemma len_slice_le (s : pystr) (a b : Z) :
  0 <= a <= b -> len (slice s a b) <= b - a.
Proof.
  intros Hab. unfold slice, clamp, len.
  destruct (Z.ltb_spec a 0), (Z.ltb_spec b 0); try lia.
  rewrite length_take. lia.
Qed.

Lemma windows_loop_starts (self : Chunking.Chunker) (text : pystr) fuel :
  forall start ws,
    1 <= Chunking.chunk_size self ->
    Chunking.windows_loop fuel self text start = Some ws ->
    Forall (fun w => start <= w.1 < len text /\ w.2 = w.1 + Chunking.chunk_size self) ws.
Proof.
  induction fuel as [|fuel IH]; intros start ws Hcs H; [discriminate|].
  rewrite windows_loop_unfold in H.
  destruct (Z.ltb_spec start (len text)); [|injection H as <-; constructor].
  destruct (Chunking.windows_loop fuel self text (start + advance self))
    as [ws'|] eqn:E; [|discriminate].
  injection H as <-. pose proof (advance_positive self Hcs).
  constructor; [cbn; lia|].
  eapply Forall_impl; [exact (IH _ _ Hcs E)|].
  intros [s e]; cbn. lia.
Qed.

Lemma chunks_of_windows_elem text metadata ws :
  forall index c,
    c ∈ Chunking.chunks_of_windows text metadata index ws ->
    exists w, w ∈ ws /\ Chunking.text c = strip (slice text w.1 w.2) /\
              Chunking.text c <> [].
Proof.
  induction ws as [|[s e] rest IH]; intros index c Hc; [inversion Hc|].
  cbn [Chunking.chunks_of_windows] in Hc.
  destruct (strip (slice text s e)) as [|x xs] eqn:E.
  - destruct (IH _ _ Hc) as (w & Hw & Hrest). exists w. split; [right|]; assumption.
  - apply elem_of_cons in Hc as [->|Hc].
    + exists (s, e). split; [left|]. cbn. rewrite E. split; [reflexivity|discriminate].
    + destruct (IH _ _ Hc) as (w & Hw & Hrest). exists w. split; [right|]; assumption.
Qed.

(** X7.  For a chunk size of at least one character, every chunk of
    [split_fixed] is the stripped text of a window of [chunk_size]
    characters that begins inside the text, and has between one and
    [chunk_size] characters: the fixed strategy never exceeds the size
    configured. *)
Theorem fixed_chunks_within_size
  (self : Chunking.Chunker) (text : pystr) (metadata : option (gmap pystr pyval)) :
  1 <= Chunking.chunk_size self ->
  exists chunks,
    (forall fuel, (length text < fuel)%nat ->
       Chunking.split_fixed fuel self text metadata = Some chunks) /\
    Forall (fun c =>
              1 <= Chunking.char_count c <= Chunking.chunk_size self /\
              exists start,
                0 <= start < len text /\
                Chunking.text c
                = strip (slice text start (start + Chunking.chunk_size self)))
      chunks.
Proof.
  intros Hcs.
  destruct (split_fixed_returns self text metadata Hcs) as (ws & Hws & Hret).
  eexists. split; [exact Hret|].
  apply Forall_forall. intros c Hc.
  destruct (chunks_of_windows_elem _ _ _ _ _ Hc) as ([s e] & Hw & Htext & Hne).
  pose proof (windows_loop_starts self text _ _ _ Hcs Hws) as Hall.
  rewrite Forall_forall in Hall. destruct (Hall _ Hw) as [Hs He]. cbn in Hs, He, Htext.
  subst e. split; [|exists s; split; [exact Hs|exact Htext]].
  unfold Chunking.char_count. split.
  - unfold len. destruct (Chunking.text c); [congruence|cbn; lia].
  - rewrite Htext.
    pose proof (length_strip (slice text s (s + Chunking.chunk_size self))).
    pose proof (len_slice_le text s (s + Chunking.chunk_size self) ltac:(lia)).
    unfold len in *. lia.
Qed.

(** The theorem at a chunker whose [min_chunk_size] exceeds its chunk
    size. *)
Lemma fixed_chunks_within_size_witness :
  let self := Chunking.mkChunker 4 1 50 in
  let text := py "ab  cdefg hi" in
  1 <= Chunking.chunk_size self /\
  exists chunks,
    (forall fuel, (length text < fuel)%nat ->
       Chunking.split_fixed fuel self text None = Some chunks) /\
    Forall (fun c =>
              1 <= Chunking.char_count c <= Chunking.chunk_size self /\
              exists start,
                0 <= start < len text /\
                Chunking.text c
                = strip (slice text start (start + Chunking.chunk_size self)))
      chunks.
Proof.
  split; [cbn; lia|].
  apply (fixed_chunks_within_size (Chunking.mkChunker 4 1 50) (py "ab  cdefg hi") None).
  cbn; lia.
Defined.

Lemma content_chunks_of_windows_tiling (self : Chunking.Chunker) (text : pystr)
  (metadata : option (gmap pystr pyval)) fuel :
  1 <= Chunking.chunk_size self ->
  advance self = Chunking.chunk_size self ->
  forall start ws index,
    0 <= start ->
    Chunking.windows_loop fuel self text start = Some ws ->
    content (concat (map Chunking.text
                       (Chunking.chunks_of_windows text metadata index ws)))
    = content (drop (Z.to_nat start) text).
Proof.
  intros Hcs Hadv.
  induction fuel as [|fuel IH]; intros start ws index Hstart H; [discriminate|].
  rewrite windows_loop_unfold in H.
  destruct (Z.ltb_spec start (len text)) as [Hlt|Hge].
  - destruct (Chunking.windows_loop fuel self text (start + advance self))
      as [ws'|] eqn:E; [|discriminate].
    injection H as <-. cbn [Chunking.chunks_of_windows].
    assert (Hslice : slice text start (start + Chunking.chunk_size self)
                     = take (Z.to_nat (Chunking.chunk_size self))
                         (drop (Z.to_nat start) text)).
    { unfold slice, clamp, len in *.
      destruct (Z.ltb_spec start 0), (Z.ltb_spec (start + Chunking.chunk_size self) 0);
        try lia.
      rewrite (Z.min_l start) by lia.
      destruct (Z.le_ge_cases (start + Chunking.chunk_size self)
                  (Z.of_nat (length text))).
      - rewrite Z.min_l by lia. f_equal. lia.
      - rewrite Z.min_r by lia.
        rewrite !take_ge; [reflexivity| |]; rewrite length_drop; lia. }
    assert (Hrest : content (concat (map Chunking.text
                       (Chunking.chunks_of_windows text metadata
                          (match strip (slice text start (start + Chunking.chunk_size self))
                           with [] => index | _ => index + 1 end) ws')))
                    = content (drop (Z.to_nat (Chunking.chunk_size self))
                                 (drop (Z.to_nat start) text))).
    { assert (Hnext : 0 <= start + advance self) by lia.
      rewrite (IH _ _ _ Hnext E), drop_drop, Hadv. f_equal. f_equal. lia. }
    rewrite <- (take_drop (Z.to_nat (Chunking.chunk_size self))
                  (drop (Z.to_nat start) text)).
    rewrite content_app, <- Hslice, <- Hrest,
      <- (content_strip (slice text start (start + Chunking.chunk_size self))).
    destruct (strip (slice text start (start + Chunking.chunk_size self)));
      [reflexivity|].
    cbn [map concat Chunking.new_chunk Chunking.text]. apply content_app.
  - injection H as <-. cbn. rewrite drop_ge; [reflexivity|]. unfold len in Hge. lia.
Qed.

(** X9.  When the overlap is zero, or reaches the chunk size so that the
    window advances by a full chunk, and the chunk size is at least one
    character, the chunks of [split_fixed] lose nothing but whitespace:
    their characters that are not whitespace, read in order, are those of
    the text, none of them twice. *)
Theorem fixed_chunks_without_overlap_keep_content
  (self : Chunking.Chunker) (text : pystr) (metadata : option (gmap pystr pyval)) :
  1 <= Chunking.chunk_size self ->
  Chunking.overlap self = 0 \/ Chunking.chunk_size self <= Chunking.overlap self ->
  exists chunks,
    (forall fuel, (length text < fuel)%nat ->
       Chunking.split_fixed fuel self text metadata = Some chunks) /\
    content (concat (map Chunking.text chunks)) = content text.
Proof.
  intros Hcs Hov.
  destruct (split_fixed_returns self text metadata Hcs) as (ws & Hws & Hret).
  eexists. split; [exact Hret|].
  rewrite (content_chunks_of_windows_tiling self text metadata (S (length text)) Hcs)
    with (start := 0); [reflexivity| |lia|exact Hws].
  unfold advance.
  destruct (Z.ltb_spec (Chunking.overlap self) (Chunking.chunk_size self)); lia.
Qed.

Lemma fixed_chunks_without_overlap_keep_content_witness :
  let self := Chunking.mkChunker 4 0 50 in
  let text := py "ab  cdefg hi" in
  1 <= Chunking.chunk_size self /\
  (Chunking.overlap self = 0 \/ Chunking.chunk_size self <= Chunking.overlap self) /\
  exists chunks,
    (forall fuel, (length text < fuel)%nat ->
       Chunking.split_fixed fuel self text None = Some chunks) /\
    content (concat (map Chunking.text chunks)) = content text.
Proof.
  split; [cbn; lia|]. split; [left; reflexivity|].
  apply (fixed_chunks_without_overlap_keep_content
           (Chunking.mkChunker 4 0 50) (py "ab  cdefg hi") None);
    [cbn; lia|left; reflexivity].
Defined.

(** ** The tool registry: registration and lookup *)

Lemma dict_get_set {V} (d : list (pystr * V)) (k : pystr) (v : V) (k' : pystr) :
  dict_get (dict_set d k v) k'
  = if bool_decide (k' = k) then Some v else dict_get d k'.
Proof.
  induction d as [|[k0 v0] rest IH]; cbn [dict_set dict_get].
  - destruct (decide (k' = k)) as [->|Hne].
    + rewrite !bool_decide_eq_true_2 by reflexivity. reflexivity.
    + rewrite !bool_decide_eq_false_2 by congruence. reflexivity.
  - destruct (decide (k0 = k)) as [->|Hne0].
    + rewrite bool_decide_eq_true_2 by reflexivity. cbn [dict_get].
      destruct (decide (k' = k)) as [->|Hne].
      * rewrite !bool_decide_eq_true_2 by reflexivity. reflexivity.
      * rewrite !bool_decide_eq_false_2 by congruence. reflexivity.
    + rewrite bool_decide_eq_false_2 by exact Hne0. cbn [dict_get]. rewrite IH.
      destruct (decide (k0 = k')) as [->|Hne1].
      * rewrite bool_decide_eq_true_2 by reflexivity.
        rewrite bool_decide_eq_false_2 by congruence. reflexivity.
      * rewrite (bool_decide_eq_false_2 (k0 = k')) by exact Hne1. reflexivity.
Qed.

Lemma dict_set_keys {V} (d : list (pystr * V)) (k : pystr) (v : V) :
  map fst (dict_set d k v)
  = if bool_decide (k ∈ map fst d) then map fst d else map fst d ++ [k].
Proof.
  induction d as [|[k0 v0] rest IH]; cbn [dict_set map fst].
  - rewrite bool_decide_eq_false_2 by (intros H; inversion H). reflexivity.
  - destruct (decide (k0 = k)) as [->|Hne0].
    + rewrite bool_decide_eq_true_2 by reflexivity.
      rewrite bool_decide_eq_true_2 by left. reflexivity.
    + rewrite bool_decide_eq_false_2 by exact Hne0. cbn [map fst]. rewrite IH.
      destruct (decide (k ∈ map fst rest)) as [Hin|Hnin].
      * rewrite !bool_decide_eq_true_2; [reflexivity|right; exact Hin|exact Hin].
      * rewrite !bool_decide_eq_false_2; [reflexivity| |exact Hnin].
        intros H. apply elem_of_cons in H as [->|H]; [congruence|contradiction].
Qed.

Lemma dict_set_elem {V} (d : list (pystr * V)) (k : pystr) (v : V) kv :
  kv ∈ dict_set d k v -> kv = (k, v) \/ kv ∈ d.
Proof.
  induction d as [|[k0 v0] rest IH]; cbn [dict_set].
  - intros H. apply list_elem_of_singleton in H. left. exact H.
  - destruct (bool_decide (k0 = k)).
    + intros H. apply elem_of_cons in H as [->|H]; [left; reflexivity|].
      right. right. exact H.
    + intros H. apply elem_of_cons in H as [->|H]; [right; left|].
      destruct (IH H) as [->|Hin]; [left; reflexivity|right; right; exact Hin].
Qed.

Lemma dict_get_NoDup {V} (d : list (pystr * V)) k v :
  NoDup (map fst d) -> (k, v) ∈ d -> dict_get d k = Some v.
Proof.
  induction d as [|[k0 v0] rest IH]; intros Hnd Hin; [inversion Hin|].
  cbn [map fst] in Hnd. apply NoDup_cons in Hnd as [Hk0 Hnd].
  cbn [dict_get]. apply elem_of_cons in Hin as [[= -> ->]|Hin].
  - rewrite bool_decide_eq_true_2 by reflexivity. reflexivity.
  - rewrite bool_decide_eq_false_2; [apply IH; assumption|].
    intros ->. apply Hk0. apply list_elem_of_fmap.
    exists (k, v). split; [reflexivity|exact Hin].
Qed.

(** X10.  After [register(tool)], [get] gives the new tool under its name
    and what it gave before under every other name; [list_tools] keeps its
    order, with the name added at the end when it is new and left in its
    place when a tool of that name was registered before, which the new
    tool then replaces. *)
Theorem register_adds_or_replaces
  (self : list (pystr * Tool.Tool)) (tool : Tool.Tool) (name : pystr) :
  ToolRegistry.get (ToolRegistry.register self tool) name
  = (if bool_decide (name = Tool.name tool) then Some tool
     else ToolRegistry.get self name) /\
  ToolRegistry.list_tools (ToolRegistry.register self tool)
  = (if bool_decide (Tool.name tool ∈ ToolRegistry.list_tools self)
     then ToolRegistry.list_tools self
     else ToolRegistry.list_tools self ++ [Tool.name tool]).
Proof. split; [apply dict_get_set|apply dict_set_keys]. Qed.

Lemma register_well_keyed r t :
  well_keyed r -> well_keyed (ToolRegistry.register r t).
Proof.
  intros [Hnd Hkeys]. split.
  - unfold ToolRegistry.register. rewrite dict_set_keys.
    destruct (decide (Tool.name t ∈ map fst r)) as [Hin|Hnin].
    + rewrite bool_decide_eq_true_2 by exact Hin. exact Hnd.
    + rewrite bool_decide_eq_false_2 by exact Hnin.
      apply NoDup_app. split; [exact Hnd|]. split; [|apply NoDup_singleton].
      intros x Hx Hx'. apply list_elem_of_singleton in Hx'. subst x. contradiction.
  - apply Forall_forall. intros kv Hkv.
    apply dict_set_elem in Hkv as [->|Hkv]; [reflexivity|].
    rewrite Forall_forall in Hkeys. apply Hkeys, Hkv.
Qed.

Lemma registered_well_keyed tools : well_keyed (registered tools).
Proof.
  unfold registered.
  assert (H : forall r, well_keyed r -> well_keyed (foldl ToolRegistry.register r tools)).
  { induction tools as [|t rest IH]; intros r Hr; [exact Hr|].
    cbn [foldl]. apply IH, register_well_keyed, Hr. }
  apply H. split; constructor.
Qed.

Lemma registered_elem tools :
  forall kv, kv ∈ registered tools -> snd kv ∈ tools.
Proof.
  unfold registered.
  assert (H : forall r kv, kv ∈ foldl ToolRegistry.register r tools ->
                           kv ∈ r \/ snd kv ∈ tools).
  { induction tools as [|t rest IH]; intros r kv Hkv; [left; exact Hkv|].
    cbn [foldl] in Hkv. destruct (IH _ _ Hkv) as [Hin|Hin].
    - apply dict_set_elem in Hin as [->|Hin]; [right; left|left; exact Hin].
    - right. right. exact Hin. }
  intros kv Hkv. destruct (H _ _ Hkv) as [Hin|Hin]; [inversion Hin|exact Hin].
Qed.

(** X11.  In a registry built by [ToolRegistry()] and calls of [register],
    the names that [list_tools] returns are distinct, and
    [get_openai_tools] describes, in the same order, one tool for each of
    them: a tool that was registered, whose own name is the name listed,
    and which [get] returns for that name.  So every tool described to the
    reasoning service can be executed under the name it is described
    with. *)
Theorem advertised_tools_resolve (tools : list Tool.Tool) :
  let registry := registered tools in
  NoDup (ToolRegistry.list_tools registry) /\
  exists advertised,
    ToolRegistry.get_openai_tools registry = map Tool.to_openai_tool advertised /\
    ToolRegistry.list_tools registry = map Tool.name advertised /\
    Forall (fun t => t ∈ tools /\
                     ToolRegistry.get registry (Tool.name t) = Some t) advertised.
Proof.
  intros registry. destruct (registered_well_keyed tools) as [Hnd Hkeys].
  fold registry in Hnd, Hkeys.
  split; [exact Hnd|]. exists (map snd registry). split; [|split].
  - unfold ToolRegistry.get_openai_tools. rewrite map_map. reflexivity.
  - unfold ToolRegistry.list_tools. rewrite map_map. apply map_ext_Forall.
    exact Hkeys.
  - apply Forall_forall. intros t Ht.
    apply list_elem_of_fmap in Ht as ([k t'] & -> & Hin). cbn [snd].
    split; [apply (registered_elem tools _ Hin)|].
    rewrite Forall_forall in Hkeys. pose proof (Hkeys _ Hin) as Hk. cbn in Hk. subst k.
    apply dict_get_NoDup; assumption.
Qed.

(** ** The calculator: how a float is printed *)

Lemma lstrip_char_spec ch s :
  exists k,
    s = replicate k ch ++ lstrip_char ch s /\
    head (lstrip_char ch s) <> Some ch.
Proof.
  induction s as [|c s (k & Hs & Hh)].
  - exists 0%nat. split; [reflexivity|discriminate].
  - cbn [lstrip_char]. destruct (N.eqb_spec c ch) as [->|Hne].
    + exists (S k). split; [cbn [replicate app]; f_equal; exact Hs|exact Hh].
    + exists 0%nat. split; [reflexivity|]. cbn. congruence.
Qed.

Lemma last_rev {A} (l : list A) : last (rev l) = head l.
Proof. destruct l as [|x l]; [reflexivity|]. cbn [rev]. apply last_snoc. Qed.

Lemma rev_replicate {A} (k : nat) (x : A) : rev (replicate k x) = replicate k x.
Proof.
  induction k as [|k IH]; [reflexivity|].
  cbn [replicate rev]. rewrite IH. clear.
  induction k as [|k IH]; [reflexivity|]. cbn [replicate app]. f_equal. exact IH.
Qed.

Lemma rstrip_char_spec ch s :
  exists k,
    s = rstrip_char ch s ++ replicate k ch /\
    last (rstrip_char ch s) <> Some ch.
Proof.
  unfold rstrip_char. destruct (lstrip_char_spec ch (rev s)) as (k & Hs & Hh).
  exists k. split.
  - rewrite <- (rev_involutive s) at 1. rewrite Hs at 1.
    rewrite rev_app_distr, rev_replicate. reflexivity.
  - rewrite last_rev. exact Hh.
Qed.

(** X12.  When the expression evaluates to a float that differs from its
    integer part, [CalculatorTool.execute] returns the rendering of the
    float with four decimals from which only a run of zeros at the end
    and, before it, a run of decimal points have been removed; what it
    returns does not end with a decimal point. *)
Theorem calculator_trims_only_zeros_and_point
  (I : CalculatorTool.Interp) (expression : pystr)
  (f : CalculatorTool.pyfloat I) (n : Z) :
  CalculatorTool.all_allowed expression = true ->
  CalculatorTool.eval I expression = Ok (CalculatorTool.PyFloat f) ->
  CalculatorTool.int_of_float I f = Ok n ->
  CalculatorTool.float_eq_int I f n = false ->
  exists out points zeros,
    CalculatorTool.execute I expression = Ok out /\
    CalculatorTool.format_4f I f
    = out ++ replicate points 0x2E%N ++ replicate zeros 0x30%N /\
    last out <> Some 0x2E%N.
Proof.
  intros Hall Heval Hint Hneq.
  unfold CalculatorTool.execute, CalculatorTool.try_body.
  rewrite Hall, Heval. cbn [negb Py.bind]. rewrite Hint. cbn [Py.bind].
  rewrite Hneq.
  destruct (rstrip_char_spec 0x30%N (CalculatorTool.format_4f I f)) as (zeros & Hz & _).
  destruct (rstrip_char_spec 0x2E%N
              (rstrip_char 0x30%N (CalculatorTool.format_4f I f)))
    as (points & Hp & Hlast).
  eexists _, points, zeros. split; [reflexivity|]. split; [|exact Hlast].
  rewrite app_assoc, <- Hp. exact Hz.
Qed.

(** The theorem at the expression 5/2 and an interpreter that prints its
    value as 2.5000: the result is 2.5. *)
Lemma calculator_trims_only_zeros_and_point_witness :
  CalculatorTool.execute SampleInterp.half (py "5/2") = Ok (py "2.5") /\
  exists out points zeros,
    CalculatorTool.execute SampleInterp.half (py "5/2") = Ok out /\
    CalculatorTool.format_4f SampleInterp.half tt
    = out ++ replicate points 0x2E%N ++ replicate zeros 0x30%N /\
    last out <> Some 0x2E%N.
Proof.
  split; [reflexivity|].
  apply (calculator_trims_only_zeros_and_point SampleInterp.half (py "5/2") tt 2);
    reflexivity.
Defined.

(** ** The orchestrator: tool calls, conversation, history *)

Lemma decode_arguments_bound env tc kw :
  decode_arguments env tc = Ok kw -> ToolRegistry.bind_arguments kw = Ok kw.
Proof.
  unfold decode_arguments.
  destruct (Agent.json_loads env (Agent.function_arguments tc)) as [args|e];
    [|discriminate].
  cbn [Py.bind]. destruct (Agent.unpack args) as [kw0|e]; [|discriminate].
  cbn [Py.bind]. intros H. pose proof (bind_arguments_inv _ _ H) as ->. exact H.
Qed.

Lemma observation_decoded env self tc kw :
  decode_arguments env tc = Ok kw ->
  observation env self tc
  = let! out := ToolRegistry.execute (Agent.registry self)
                  (Agent.function_name tc) kw in
    Ok (Agent.ToolObservation (Agent.id tc) out).
Proof.
  unfold decode_arguments, observation.
  destruct (Agent.json_loads env (Agent.function_arguments tc)) as [args|e];
    [|discriminate].
  cbn [widen Py.bind]. destruct (Agent.unpack args) as [kw0|e]; [|discriminate].
  cbn [widen Py.bind]. intros H. apply bind_arguments_inv in H as ->. reflexivity.
Qed.

Lemma execute_contained (registry : list (pystr * Tool.Tool)) tool_name kw :
  ToolRegistry.bind_arguments kw = Ok kw ->
  contained registry tool_name kw ->
  exists out, ToolRegistry.execute registry tool_name kw = Ok out.
Proof.
  intros Hbind. rewrite (execute_bound registry tool_name kw Hbind).
  unfold contained, ToolRegistry.execute_body.
  destruct (ToolRegistry.get registry tool_name) as [tool|]; [|eexists; reflexivity].
  destruct (Tool.execute tool kw) as [out|[e|cls raised|name]];
    cbn [ToolRegistry.handler]; intros H; try contradiction; eexists; reflexivity.
Qed.

(** X13.  When the reasoning service answers a request of the loop with
    tool calls whose arguments all decode and bind, and the tool of each
    call, if it is registered, returns or raises an instance of [Exception]
    that prints, the iteration ends normally and the loop goes on.  It has
    sent that one request, and it has appended to the conversation the
    assistant's message followed by one tool message for each call, in the
    order of the calls: the message of a call carries the id of the call
    and the string that [ToolRegistry.execute] returned for it. *)
Theorem iteration_answers_every_tool_call
  (env : Agent.Env) (self : Agent.AgentOrchestrator) (st : Agent.state)
  (m : Agent.ChatMessage) :
  let tools := ToolRegistry.get_openai_tools (Agent.registry self) in
  Agent.create env (Agent.messages st) (Agent.tools_or_none tools) = Ok m ->
  Agent.tool_calls m <> [] ->
  Forall (fun tc =>
            exists kw,
              decode_arguments env tc = Ok kw /\
              contained (Agent.registry self) (Agent.function_name tc) kw)
    (Agent.tool_calls m) ->
  exists obs,
    Agent.iteration env self tools st
    = (Ok Agent.Continue,
       Agent.mkState (Agent.messages st ++ Agent.AssistantMessage m :: obs)
         (Agent.requests st
          ++ [Agent.mkRequest Agent.LoopCall (Agent.messages st)
                (Agent.tools_or_none tools)])) /\
    Forall2 (fun tc o =>
               exists kw out,
                 decode_arguments env tc = Ok kw /\
                 ToolRegistry.execute (Agent.registry self)
                   (Agent.function_name tc) kw = Ok out /\
                 o = Agent.ToolObservation (Agent.id tc) out)
      (Agent.tool_calls m) obs.
Proof.
  intros tools Hc Hne Hdec. subst tools.
  assert (Hobs : exists obs,
    Forall2 (fun tc o =>
               exists kw out,
                 decode_arguments env tc = Ok kw /\
                 ToolRegistry.execute (Agent.registry self)
                   (Agent.function_name tc) kw = Ok out /\
                 o = Agent.ToolObservation (Agent.id tc) out)
      (Agent.tool_calls m) obs).
  { clear Hc Hne. induction Hdec as [|tc calls (kw & Hkw & Hcont) _ [obs IH]].
    - exists []. constructor.
    - destruct (execute_contained (Agent.registry self) (Agent.function_name tc) kw
                  (decode_arguments_bound env tc kw Hkw) Hcont) as [out Hout].
      exists (Agent.ToolObservation (Agent.id tc) out :: obs).
      constructor; [|exact IH]. exists kw, out. repeat split; assumption. }
  destruct Hobs as [obs Hobs]. exists obs. split; [|exact Hobs].
  rewrite (iteration_with_calls env self st m Hc Hne).
  rewrite (dispatch_all env self (Agent.tool_calls m) obs).
  - cbn [Agent.messages Agent.requests]. rewrite <- app_assoc. reflexivity.
  - eapply Forall2_impl; [exact Hobs|].
    intros tc o (kw & out & Hkw & Hout & ->).
    rewrite (observation_decoded env self tc kw Hkw), Hout. reflexivity.
Qed.

(** The theorem at a service that requests the tool whose [execute]
    raises a [RuntimeError]: the failure becomes the content of the tool
    message. *)
Lemma iteration_answers_every_tool_call_witness :
  let self := Sample.agent 3 in
  let st := Agent.initial_state self (py "hello") in
  let m := Agent.mkChatMessage [] [Sample.call "call_1" "failing" (Sample.dq "{}")] in
  let tools := ToolRegistry.get_openai_tools (Agent.registry self) in
  exists obs,
    Agent.iteration Sample.insistent self tools st
    = (Ok Agent.Continue,
       Agent.mkState (Agent.messages st ++ Agent.AssistantMessage m :: obs)
         (Agent.requests st
          ++ [Agent.mkRequest Agent.LoopCall (Agent.messages st)
                (Agent.tools_or_none tools)])) /\
    Forall2 (fun tc o =>
               exists kw out,
                 decode_arguments Sample.insistent tc = Ok kw /\
                 ToolRegistry.execute (Agent.registry self)
                   (Agent.function_name tc) kw = Ok out /\
                 o = Agent.ToolObservation (Agent.id tc) out)
      (Agent.tool_calls m) obs.
Proof.
  apply (iteration_answers_every_tool_call Sample.insistent (Sample.agent 3)
           (Agent.initial_state (Sample.agent 3) (py "hello"))
           (Agent.mkChatMessage [] [Sample.call "call_1" "failing" (Sample.dq "{}")])).
  - reflexivity.
  - discriminate.
  - constructor; [|constructor]. exists []. split; [vm_compute; reflexivity|].
    vm_compute. exact I.
Defined.

(** *** The conversation only grows *)

Section Growing.

Import Agent.

Variable offer : call_site -> option (list json).

Lemma grows_refl st : grows offer st st.
Proof.
  split; [reflexivity|]. exists []. rewrite app_nil_r.
  repeat split; constructor.
Qed.

Lemma grows_trans st1 st2 st3 :
  grows offer st1 st2 -> grows offer st2 st3 -> grows offer st1 st3.
Proof.
  intros [Hm1 (new1 & Hr1 & Hall1 & Hs1)] [Hm2 (new2 & Hr2 & Hall2 & Hs2)].
  split; [etransitivity; eassumption|].
  exists (new1 ++ new2). rewrite Hr2, Hr1, <- app_assoc.
  split; [reflexivity|]. split.
  - apply Forall_app. split.
    + eapply Forall_impl; [exact Hall1|]. intros rq (Ha & Hb & Hc).
      repeat split; [exact Ha| |exact Hc]. etransitivity; eassumption.
    + eapply Forall_impl; [exact Hall2|]. intros rq (Ha & Hb & Hc).
      repeat split; [|exact Hb|exact Hc]. etransitivity; eassumption.
  - clear Hr1 Hr2. induction Hs1 as [|rq new1 Hs1 IH Hrq]; [exact Hs2|].
    cbn [app]. apply Forall_cons in Hall1 as [(Ha & Hb & Hc) Hall1].
    constructor; [apply IH, Hall1|].
    apply Forall_app. split; [exact Hrq|].
    eapply Forall_impl; [exact Hall2|]. intros rq2 (Ha2 & _).
    etransitivity; eassumption.
Qed.

Lemma growing_ret {A} (a : A) : growing offer (ret a).
Proof. intros st. apply grows_refl. Qed.

Lemma growing_lift {A} (r : outcome A) : growing offer (lift r).
Proof. intros st. apply grows_refl. Qed.

Lemma growing_append m : growing offer (append m).
Proof.
  intros st. split; [apply prefix_app_r; reflexivity|].
  exists []. cbn. rewrite app_nil_r. repeat split; constructor.
Qed.

Lemma growing_call_client env site :
  growing offer (call_client env site (offer site)).
Proof.
  intros st. split; [reflexivity|].
  eexists. split; [reflexivity|].
  split; [|constructor; constructor].
  constructor; [|constructor]. cbn. repeat split; reflexivity.
Qed.

Lemma growing_mbind {A B} (c : M A) (k : A -> M B) :
  growing offer c -> (forall a, growing offer (k a)) -> growing offer (mbind c k).
Proof.
  intros Hc Hk st. unfold mbind. specialize (Hc st).
  destruct (c st) as [[a|e] st1]; [|exact Hc].
  eapply grows_trans; [exact Hc|apply Hk].
Qed.

End Growing.

Section RunGrows.

Import Agent.

Variable env : Env.
Variable self : AgentOrchestrator.

Lemma growing_dispatch calls : growing (offered self) (dispatch env self calls).
Proof.
  induction calls as [|tc rest IH]; [apply growing_ret|].
  cbn [dispatch].
  apply growing_mbind; [apply growing_lift|intros tool_args].
  apply growing_mbind; [apply growing_lift|intros kwargs].
  apply growing_mbind; [apply growing_lift|intros result].
  apply growing_mbind; [apply growing_append|intros _].
  exact IH.
Qed.

Lemma growing_iteration :
  growing (offered self)
    (iteration env self (ToolRegistry.get_openai_tools (registry self))).
Proof.
  unfold iteration. apply growing_mbind.
  - exact (growing_call_client (offered self) env LoopCall).
  - intros m. destruct (tool_calls m) as [|tc calls]; [apply growing_ret|].
    apply growing_mbind; [apply growing_append|intros _].
    apply growing_mbind; [apply growing_dispatch|intros _].
    apply growing_ret.
Qed.

Lemma growing_react_loop iterations :
  growing (offered self)
    (react_loop env self (ToolRegistry.get_openai_tools (registry self)) iterations).
Proof.
  induction iterations as [|i rest IH]; [apply growing_ret|].
  cbn [react_loop]. apply growing_mbind; [apply growing_iteration|].
  intros [|a]; [exact IH|apply growing_ret].
Qed.

Lemma growing_forced_answer : growing (offered self) (forced_answer env).
Proof.
  unfold forced_answer.
  apply growing_mbind; [apply growing_append|intros _].
  apply growing_mbind; [|intros ?; apply growing_ret].
  exact (growing_call_client (offered self) env SummaryCall).
Qed.

Lemma growing_run_from : growing (offered self) (run_from env self).
Proof.
  unfold run_from. apply growing_mbind; [apply growing_react_loop|].
  intros [|a]; [apply growing_forced_answer|apply growing_ret].
Qed.

End RunGrows.

(** X14.  During one call of [run] the conversation is only ever extended.
    Every request carries a conversation that begins with the system
    prompt and the user's question and is a prefix of the conversation at
    the end of the call, also when the call raises; and of two requests,
    the later one carries the conversation of the earlier one followed by
    what was appended in between.  No message is removed, replaced or
    reordered. *)
Theorem run_conversation_only_grows
  (env : Agent.Env) (self : Agent.AgentOrchestrator) (user_question : pystr) :
  let st := (Agent.run env self user_question).2 in
  Forall (fun rq =>
            Agent.messages (Agent.initial_state self user_question)
              `prefix_of` Agent.req_messages rq /\
            Agent.req_messages rq `prefix_of` Agent.messages st)
    (Agent.requests st) /\
  StronglySorted
    (fun r1 r2 => Agent.req_messages r1 `prefix_of` Agent.req_messages r2)
    (Agent.requests st).
Proof.
  intros st. subst st. unfold Agent.run.
  destruct (growing_run_from env self (Agent.initial_state self user_question))
    as [_ (new & -> & Hall & Hsorted)].
  cbn [Agent.initial_state Agent.requests app]. split; [|exact Hsorted].
  eapply Forall_impl; [exact Hall|]. intros rq (Ha & Hb & _). split; assumption.
Qed.

(** X15.  Every request that [run] sends from its loop passes the
    descriptions of all the registered tools, in the order of the
    registry, or no tools at all when the registry is empty; the request
    for the forced summary passes no tools.  This holds of every request
    of the call, whether it returns or raises. *)
Theorem run_offers_registered_tools
  (env : Agent.Env) (self : Agent.AgentOrchestrator) (user_question : pystr) :
  Forall (fun rq =>
            Agent.req_tools rq =
              match Agent.req_site rq with
              | Agent.LoopCall =>
                  match Agent.registry self with
                  | [] => None
                  | _ => Some (ToolRegistry.get_openai_tools (Agent.registry self))
                  end
              | Agent.SummaryCall => None
              end)
    (Agent.requests (Agent.run env self user_question).2).
Proof.
  unfold Agent.run.
  destruct (growing_run_from env self (Agent.initial_state self user_question))
    as [_ (new & -> & Hall & _)].
  cbn [Agent.initial_state Agent.requests app].
  eapply Forall_impl; [exact Hall|]. intros rq (_ & _ & ->).
  unfold offered. destruct (Agent.req_site rq); [|reflexivity].
  destruct (Agent.registry self); reflexivity.
Qed.

(** X16.  With [max_iterations] zero or negative, [run] does not enter its
    loop: it sends a single request, the forced summary, whose
    conversation is the system prompt, the question and the instruction to
    give a final answer, without tools; it returns the content of the
    answer, or raises what that request raised. *)
Theorem run_without_iterations
  (env : Agent.Env) (self : Agent.AgentOrchestrator) (user_question : pystr) :
  Agent.max_iterations self <= 0 ->
  let asked :=
    [ Agent.RoleContent (py "system") (Agent.system_prompt self);
      Agent.RoleContent (py "user") user_question;
      Agent.RoleContent (py "user") Agent.summary_request ] in
  Agent.run env self user_question
  = (match Agent.create env asked None with
     | Ok m => Ok (Agent.content m)
     | Raise e => Raise e
     end,
     Agent.mkState asked [Agent.mkRequest Agent.SummaryCall asked None]).
Proof.
  intros Hmax. cbv zeta. unfold Agent.run, Agent.run_from, range.
  replace (Z.to_nat (Agent.max_iterations self + 1 - 1)) with 0%nat by lia.
  cbn [seq map Agent.react_loop]. unfold Agent.mbind at 1. unfold Agent.ret at 1.
  rewrite forced_answer_spec. reflexivity.
Qed.

Lemma run_without_iterations_witness :
  Agent.max_iterations (Sample.agent 0) <= 0 /\
  let asked :=
    [ Agent.RoleContent (py "system") (Agent.system_prompt (Sample.agent 0));
      Agent.RoleContent (py "user") (py "hello");
      Agent.RoleContent (py "user") Agent.summary_request ] in
  Agent.run Sample.insistent (Sample.agent 0) (py "hello")
  = (match Agent.create Sample.insistent asked None with
     | Ok m => Ok (Agent.content m)
     | Raise e => Raise e
     end,
     Agent.mkState asked [Agent.mkRequest Agent.SummaryCall asked None]).
Proof.
  split; [cbn; lia|].
  apply (run_without_iterations Sample.insistent (Sample.agent 0) (py "hello")).
  cbn; lia.
Defined.

(** X17.  [run_with_history] does not use the history it is given: it
    runs [run] on the question alone, so that it reaches the same state
    and sends the same requests as [run], each of which begins with the
    system prompt and the question and contains no earlier turn.  The
    caller's list is extended in place by the question and, when [run]
    returns, by the answer, and is returned with the answer; when [run]
    raises, the list keeps the question without an answer. *)
Theorem run_with_history_ignores_history
  (env : Agent.Env) (self : Agent.AgentOrchestrator) (user_question : pystr)
  (history : option (list Agent.message)) :
  let before :=
    match history with
    | None => [Agent.RoleContent (py "system") (Agent.system_prompt self)]
    | Some history => history
    end in
  let asked := before ++ [Agent.RoleContent (py "user") user_question] in
  let out := Agent.run_with_history env self user_question history in
  out.1.2 = (Agent.run env self user_question).2 /\
  Forall (fun rq =>
            exists rest,
              Agent.req_messages rq
              = [ Agent.RoleContent (py "system") (Agent.system_prompt self);
                  Agent.RoleContent (py "user") user_question ] ++ rest)
    (Agent.requests out.1.2) /\
  match (Agent.run env self user_question).1 with
  | Ok answer =>
      out.2 = asked ++ [Agent.RoleContent (py "assistant") answer] /\
      out.1.1 = Ok (answer, out.2)
  | Raise e => out.2 = asked /\ out.1.1 = Raise e
  end.
Proof.
  intros before asked out. subst out asked before.
  assert (Hst : (Agent.run_with_history env self user_question history).1.2
                = (Agent.run env self user_question).2).
  { unfold Agent.run_with_history.
    destruct (Agent.run env self user_question) as [[a|e] st]; reflexivity. }
  split; [exact Hst|]. split.
  - rewrite Hst. unfold Agent.run.
    destruct (growing_run_from env self (Agent.initial_state self user_question))
      as [_ (new & -> & Hall & _)].
    cbn [Agent.initial_state Agent.requests app].
    eapply Forall_impl; [exact Hall|]. intros rq (Ha & _). exact Ha.
  - unfold Agent.run_with_history.
    destruct (Agent.run env self user_question) as [[a|e] st]; cbn; split; reflexivity.
Qed.

(** *** The simple agent *)

Lemma tool_loop_dispatch env self calls :
  SimpleAgent.tool_loop env self calls
  = Agent.dispatch env (orchestrator_of self) calls.
Proof.
  induction calls as [|tc rest IH]; [reflexivity|].
  cbn [SimpleAgent.tool_loop Agent.dispatch]. rewrite IH. reflexivity.
Qed.

(** X18.  [SimpleAgent.run] sends one request, with the system prompt, the
    question and the descriptions of the registered tools.  If that
    request fails, its exception is raised.  If the answer asks for no
    tool, its content is returned and nothing else is sent.  Otherwise the
    calls are run in order.  When none of them raises, one tool message per
    call follows the assistant's message and a second and last request is
    sent, without tools, whose answer's content is returned or whose
    exception is raised.  When one of them raises, because its arguments do
    not decode or bind or because its tool raises what the handler of
    [ToolRegistry.execute] lets out, that exception is raised with the
    observations of the calls before it appended, and no second request is
    sent.  So a call sends at most two requests. *)
Theorem simple_agent_run_outcome
  (env : Agent.Env) (self : SimpleAgent.SimpleAgent) (user_question : pystr) :
  let asked := [ Agent.RoleContent (py "system") (SimpleAgent.system_prompt self);
                 Agent.RoleContent (py "user") user_question ] in
  let tools := ToolRegistry.get_openai_tools (SimpleAgent.registry self) in
  let first := Agent.mkRequest Agent.LoopCall asked (Some tools) in
  let out := SimpleAgent.run env self user_question in
  match Agent.create env asked (Some tools) with
  | Raise e =>
      out = (Raise e, Agent.mkState asked [first])
  | Ok m =>
      match Agent.tool_calls m with
      | [] => out = (Ok (Agent.content m), Agent.mkState asked [first])
      | _ :: _ =>
          (exists obs,
              Forall2 (fun tc o => observation env (orchestrator_of self) tc = Ok o)
                (Agent.tool_calls m) obs /\
              let told := asked ++ Agent.AssistantMessage m :: obs in
              out = (match Agent.create env told None with
                     | Ok final => Ok (Agent.content final)
                     | Raise e => Raise e
                     end,
                     Agent.mkState told
                       [first; Agent.mkRequest Agent.SummaryCall told None]))
          \/ (exists pre tc post obs e,
                 Agent.tool_calls m = pre ++ tc :: post /\
                 Forall2 (fun c o => observation env (orchestrator_of self) c = Ok o)
                   pre obs /\
                 (widen (decode_arguments env tc) = Raise e
                  \/ exists kw,
                       decode_arguments env tc = Ok kw /\
                       tool_lets_out (SimpleAgent.registry self)
                         (Agent.function_name tc) kw e) /\
                 out = (Raise e,
                        Agent.mkState (asked ++ Agent.AssistantMessage m :: obs)
                          [first]))
      end
  end.
Proof.
  intros asked tools first out.
  assert (Hout : out =
    match Agent.create env asked (Some tools) with
    | Raise e => (Raise e, Agent.mkState asked [first])
    | Ok m =>
        match Agent.tool_calls m with
        | [] => (Ok (Agent.content m), Agent.mkState asked [first])
        | calls =>
            match Agent.dispatch env (orchestrator_of self) calls
                    (Agent.mkState (asked ++ [Agent.AssistantMessage m]) [first]) with
            | (Ok _, st) =>
                (match Agent.create env (Agent.messages st) None with
                 | Ok final => Ok (Agent.content final)
                 | Raise e => Raise e
                 end,
                 Agent.mkState (Agent.messages st)
                   (Agent.requests st
                    ++ [Agent.mkRequest Agent.SummaryCall (Agent.messages st) None]))
            | (Raise e, st) => (Raise e, st)
            end
        end
    end).
  { subst out. unfold SimpleAgent.run. fold asked tools.
    unfold Agent.mbind at 1. unfold Agent.call_client at 1.
    cbn [Agent.messages Agent.requests app]. fold first.
    destruct (Agent.create env asked (Some tools)) as [m|e]; [|reflexivity].
    cbn [widen].
    destruct (Agent.tool_calls m) as [|tc calls]; [reflexivity|].
    unfold Agent.mbind at 1. unfold Agent.append at 1.
    cbn [Agent.messages Agent.requests].
    unfold Agent.mbind at 1. rewrite tool_loop_dispatch.
    destruct (Agent.dispatch env (orchestrator_of self) (tc :: calls) _)
      as [[[]|e] st]; [|reflexivity].
    unfold Agent.mbind, Agent.call_client, Agent.ret.
    destruct (Agent.create env (Agent.messages st) None); reflexivity. }
  rewrite Hout. clear Hout out.
  destruct (Agent.create env asked (Some tools)) as [m|e]; [|reflexivity].
  destruct (Agent.tool_calls m) as [|tc calls] eqn:Et; [reflexivity|].
  destruct (dispatch_outcome env (orchestrator_of self) (tc :: calls)
              (Agent.mkState (asked ++ [Agent.AssistantMessage m]) [first]))
    as [(obs & Hobs & Hd)|(pre & tc' & post & obs & e & Hsplit & Hobs & Htc & Hd)];
    rewrite Hd; cbn [Agent.messages Agent.requests app].
  - left. exists obs. split; [exact Hobs|]. cbv zeta.
    rewrite <- app_assoc. reflexivity.
  - right. exists pre, tc', post, obs, e.
    split; [exact Hsplit|]. split; [exact Hobs|].
    split; [exact (observation_raises env (orchestrator_of self) tc' e Htc)|].
    rewrite <- app_assoc. reflexivity.
Qed.

(** ** The vector store: thresholds, explicit ids, deletion *)

Lemma omap_row_result_threshold (m1 m2 : float) rows :
  (m1 <=? m2)%float = true ->
  omap (row_result m2) rows
  = List.filter (fun r => (m2 <=? VectorStore.score r)%float)
      (omap (row_result m1) rows).
Proof.
  intros Hle. induction rows as [|[[[doc meta] distance] doc_id] rest IH];
    [reflexivity|].
  cbn [omap list_omap row_result]. rewrite IH.
  destruct (m2 <=? 1 - distance)%float eqn:E2.
  - rewrite (Binary64Facts.leb_trans m1 m2 (1 - distance)%float Hle E2).
    cbn [List.filter VectorStore.score]. rewrite E2. reflexivity.
  - destruct (m1 <=? 1 - distance)%float; [|reflexivity].
    cbn [List.filter VectorStore.score]. rewrite E2. reflexivity.
Qed.

(** X19.  Raising [min_score] only removes results: for two thresholds in
    increasing order, the search at the higher one raises when the search
    at the lower one raises, and otherwise returns those results of the
    lower one whose score reaches the higher threshold, in the same
    order.  The thresholds and the scores are binary64 numbers. *)
Theorem search_threshold_only_filters
  (db : VectorStore.Chroma) (self : gmap pystr VectorStore.IndexRecord)
  (query_text : pystr) (top_k : Z) (where_ : option (VectorStore.where_filter db))
  (min_score1 min_score2 : float) :
  (min_score1 <=? min_score2)%float = true ->
  VectorStore.search db self query_text top_k where_ min_score2
  = let! results :=
      VectorStore.search db self query_text top_k where_ min_score1 in
    Ok (List.filter (fun r => (min_score2 <=? VectorStore.score r)%float) results).
Proof.
  intros Hle. unfold VectorStore.search.
  destruct (VectorStore.query db self [query_text] top_k where_) as [results|e];
    [|reflexivity].
  cbn [Py.bind].
  destruct (VectorStore.documents results) as [|[|doc docs0] rest]; try reflexivity.
  destruct (VectorStore.first (VectorStore.metadatas results)) as [metas0|e];
    [|reflexivity].
  destruct (VectorStore.first (VectorStore.distances results)) as [dists0|e];
    [|reflexivity].
  destruct (VectorStore.first (VectorStore.ids results)) as [ids0|e];
    [|reflexivity].
  cbn [Py.bind]. rewrite !search_loop_omap. cbn [app].
  rewrite (omap_row_result_threshold min_score1 min_score2) by exact Hle.
  reflexivity.
Qed.

(** The theorem at the sample answer, whose scores are 0.9 and 0.7, and
    the thresholds 0 and 0.8. *)
Lemma search_threshold_only_filters_witness :
  (0 <=? 0.8)%float = true /\
  VectorStore.search SampleIndex.db ∅ (py "revenue") 2 None 0.8%float
  = let! results :=
      VectorStore.search SampleIndex.db ∅ (py "revenue") 2 None 0%float in
    Ok (List.filter (fun r => (0.8 <=? VectorStore.score r)%float) results).
Proof.
  split; [reflexivity|].
  apply (search_threshold_only_filters SampleIndex.db ∅ (py "revenue") 2 None
           0%float 0.8%float).
  reflexivity.
Defined.

Lemma foldr_delete_lookup (c : gmap pystr VectorStore.IndexRecord) ids i :
  foldr delete c ids !! i = if bool_decide (i ∈ ids) then None else c !! i.
Proof.
  induction ids as [|j ids IH]; cbn [foldr].
  - rewrite bool_decide_eq_false_2 by (intros H; inversion H). reflexivity.
  - destruct (decide (j = i)) as [->|Hne].
    + rewrite lookup_delete_eq, bool_decide_eq_true_2 by left. reflexivity.
    + rewrite lookup_delete_ne, IH by exact Hne.
      destruct (decide (i ∈ ids)) as [Hin|Hnin].
      * rewrite !bool_decide_eq_true_2; [reflexivity|right; exact Hin|exact Hin].
      * rewrite !bool_decide_eq_false_2; [reflexivity| |exact Hnin].
        intros H. apply elem_of_cons in H as [->|H]; [congruence|contradiction].
Qed.

Lemma foldr_delete_size (c : gmap pystr VectorStore.IndexRecord) ids :
  (size c - length ids <= size (foldr delete c ids) <= size c)%nat.
Proof.
  induction ids as [|j ids IH]; cbn [foldr length]; [lia|].
  rewrite map_size_delete. destruct (foldr delete c ids !! j); cbn; lia.
Qed.

Lemma collection_delete_accepted (c : gmap pystr VectorStore.IndexRecord) ids :
  ids <> [] -> NoDup ids ->
  VectorStore.collection_delete c ids = Ok (foldr delete c ids).
Proof.
  intros Hne Hnd. unfold VectorStore.collection_delete.
  rewrite (validate_ids_ok ids Hne Hnd). reflexivity.
Qed.

(** X21.  [delete] passes its ids to the library, which validates them.
    Given at least one id: when the ids are distinct, the records stored
    under them are removed and no other, so that a lookup afterwards finds
    nothing under a deleted id and what was there before under any other;
    an id that is not stored is passed over, the count decreases by at most
    the number of ids, and deleting the same ids again changes nothing.
    When an id is repeated, the library's [DuplicateIDError] is raised and
    nothing is deleted. *)
Theorem delete_removes_exactly_the_ids
  (self : gmap pystr VectorStore.IndexRecord) (ids : list pystr) :
  ids <> [] ->
  if bool_decide (NoDup ids)
  then exists self',
         VectorStore.delete_ self ids = Ok self' /\
         (forall i, self' !! i = if bool_decide (i ∈ ids) then None else self !! i) /\
         VectorStore.count self - Z.of_nat (length ids)
         <= VectorStore.count self' <= VectorStore.count self /\
         VectorStore.delete_ self' ids = Ok self'
  else exists e,
         VectorStore.delete_ self ids = Raise e /\
         exc_class e = OtherError (py "DuplicateIDError").
Proof.
  intros Hne. unfold VectorStore.delete_.
  destruct (bool_decide (NoDup ids)) eqn:Hnd.
  - apply bool_decide_eq_true_1 in Hnd.
    exists (foldr delete self ids).
    rewrite !collection_delete_accepted by assumption.
    split; [reflexivity|]. split; [intros i; apply foldr_delete_lookup|]. split.
    + unfold VectorStore.count, VectorStore.collection_count.
      pose proof (foldr_delete_size self ids). lia.
    + f_equal. apply map_eq. intros i. rewrite !foldr_delete_lookup.
      destruct (bool_decide (i ∈ ids)); reflexivity.
  - unfold VectorStore.collection_delete, VectorStore.validate_ids.
    rewrite bool_decide_eq_false_2 by exact Hne. rewrite Hnd. cbn [negb Py.bind].
    eexists. split; reflexivity.
Qed.

(** The theorem at a collection of two records, one of which is deleted
    together with an id that is not stored. *)
Lemma delete_removes_exactly_the_ids_witness :
  let self : gmap pystr VectorStore.IndexRecord :=
    {[py "doc_0" := VectorStore.mkIndexRecord (py "a") ∅;
      py "doc_1" := VectorStore.mkIndexRecord (py "b") ∅]} in
  let ids := [py "doc_1"; py "doc_9"] in
  exists self',
    VectorStore.delete_ self ids = Ok self' /\
    (forall i, self' !! i = if bool_decide (i ∈ ids) then None else self !! i) /\
    VectorStore.count self - Z.of_nat (length ids)
    <= VectorStore.count self' <= VectorStore.count self /\
    VectorStore.delete_ self' ids = Ok self'.
Proof.
  apply (delete_removes_exactly_the_ids
           {[py "doc_0" := VectorStore.mkIndexRecord (py "a") ∅;
             py "doc_1" := VectorStore.mkIndexRecord (py "b") ∅]}
           [py "doc_1"; py "doc_9"]).
  discriminate.
Defined.




(** The same call with a library whose embedding provider is out of reach
    raises the provider's error. *)
Example add_documents_propagates_provider_error :
  VectorStore.add_documents SampleIndex.offline
    {[py "doc_0" := VectorStore.mkIndexRecord (py "old") ∅]}
    [py "a"; py "b"]
    (Some [{[py "page" := VInt 1]}; {[py "page" := VInt 2]}])
    (Some [py "p1"; py "p2"])
  = Raise (mkException APIError (py "Connection error.")).
Proof. vm_compute. reflexivity. Qed.




(** X29.  [add_documents] called without [metadatas] gives every text an
    empty dictionary, which the library refuses, and it passes no
    metadata when there is no text: whatever the texts and the ids, the
    call raises a [ValueError], or the [DuplicateIDError] of repeated ids,
    and stores nothing. *)
Theorem add_documents_without_metadatas_raises
  (db : VectorStore.Chroma) (self : gmap pystr VectorStore.IndexRecord)
  (texts : list pystr) (ids : option (list pystr)) :
  exists e,
    VectorStore.add_documents db self texts None ids = Raise e /\
    (exc_class e = ValueError \/ exc_class e = OtherError (py "DuplicateIDError")).
Proof.
  unfold VectorStore.add_documents, VectorStore.collection_add,
    VectorStore.validate_ids.
  set (ids' := match ids with
               | Some ids0 => ids0
               | None => VectorStore.generated_ids
                           (VectorStore.collection_count self) texts
               end).
  destruct (bool_decide (ids' = [])) eqn:Hne; cbn [Py.bind];
    [eexists; split; [reflexivity|left; reflexivity]|].
  apply bool_decide_eq_false_1 in Hne.
  destruct (bool_decide (NoDup ids')); cbn [negb Py.bind];
    [|eexists; split; [reflexivity|right; reflexivity]].
  destruct texts as [|t texts]; cbn [map existsb].
  - rewrite bool_decide_eq_false_2.
    + eexists. split; [reflexivity|left; reflexivity].
    + intros [H _]. destruct ids'; [congruence|discriminate].
  - rewrite bool_decide_eq_true_2 by reflexivity. cbn [orb].
    eexists. split; [reflexivity|left; reflexivity].
Qed.

(** ** The retrieval tool *)

(** X23.  When a year is given and the search filtered by that year finds
    nothing, [RetrievalTool.execute] answers as if no year had been given:
    it searches again without the filter and formats whatever that search
    finds, with nothing in the output that tells the two cases apart. *)
Theorem retrieval_falls_back_without_year
  (env : RetrievalTool.Env) (self : RetrievalTool.RetrievalTool)
  (query : pystr) (year : Z) :
  VectorStore.search (RetrievalTool.db env) (RetrievalTool.store self) query
    (RetrievalTool.top_k self) (Some (RetrievalTool.year_filter env year))
    (RetrievalTool.min_score self) = Ok [] ->
  RetrievalTool.execute env self query (Some year)
  = RetrievalTool.execute env self query None.
Proof.
  intros H. unfold RetrievalTool.execute. rewrite H. cbn [Py.bind].
  destruct (VectorStore.search (RetrievalTool.db env) (RetrievalTool.store self)
              query (RetrievalTool.top_k self) None (RetrievalTool.min_score self))
    as [[|r results]|e]; reflexivity.
Qed.

Lemma retrieval_falls_back_without_year_witness :
  VectorStore.search (RetrievalTool.db SampleRetrieval.env)
    (RetrievalTool.store SampleRetrieval.tool) (py "revenue")
    (RetrievalTool.top_k SampleRetrieval.tool)
    (Some (RetrievalTool.year_filter SampleRetrieval.env 2023))
    (RetrievalTool.min_score SampleRetrieval.tool) = Ok [] /\
  RetrievalTool.execute SampleRetrieval.env SampleRetrieval.tool (py "revenue")
    (Some 2023)
  = RetrievalTool.execute SampleRetrieval.env SampleRetrieval.tool (py "revenue")
      None.
Proof.
  split; [reflexivity|].
  apply (retrieval_falls_back_without_year SampleRetrieval.env SampleRetrieval.tool
           (py "revenue") 2023).
  reflexivity.
Defined.

Lemma format_loop_app env results :
  forall i output_parts,
    RetrievalTool.format_loop env i results output_parts
    = output_parts ++ RetrievalTool.format_loop env i results [].
Proof.
  induction results as [|r rest IH]; intros i parts.
  - cbn. rewrite app_nil_r. reflexivity.
  - cbn [RetrievalTool.format_loop]. rewrite IH, (IH _ ([] ++ _)).
    cbn [app]. rewrite app_assoc. reflexivity.
Qed.

Lemma format_loop_entries env results :
  forall i,
    RetrievalTool.format_loop env i results []
    = concat (imap (fun k r => RetrievalTool.format_result env (i + Z.of_nat k) r)
                results).
Proof.
  induction results as [|r rest IH]; intros i; [reflexivity|].
  cbn [RetrievalTool.format_loop app imap concat].
  rewrite format_loop_app, IH. change (Z.of_nat 0) with 0. rewrite Z.add_0_r.
  f_equal. f_equal.
  apply imap_ext. intros k r' _. unfold compose. f_equal. lia.
Qed.

Lemma join_head_nonempty sep (p : pystr) rest :
  p <> [] -> join sep (p :: rest) <> [].
Proof.
  intros Hp. destruct rest as [|q rest]; [exact Hp|].
  change (join sep (p :: q :: rest)) with (p ++ sep ++ join sep (q :: rest)).
  destruct p; [congruence|discriminate].
Qed.

(** X24.  [RetrievalTool.execute] makes one search, or two when a year is
    given and the filtered search finds nothing, and its outcome is that
    of the last one.  If that search raises, so does [execute].  If it
    finds nothing, the "not found" message that quotes the query is
    returned.  Otherwise the lines returned are a header with the number
    of results and, for the results in the order found, an entry numbered
    from one.  What is returned is never the empty string. *)
Theorem retrieval_execute_outcome
  (env : RetrievalTool.Env) (self : RetrievalTool.RetrievalTool)
  (query : pystr) (year : option Z) :
  match last (searches env self query year) with
  | Some (Raise e) => RetrievalTool.execute env self query year = Raise e
  | Some (Ok []) =>
      RetrievalTool.execute env self query year
      = Ok (RetrievalTool.not_found query)
  | Some (Ok results) =>
      RetrievalTool.execute env self query year
      = Ok (join [LF]
              (RetrievalTool.header results
               :: concat (imap (fun k r =>
                                  RetrievalTool.format_result env (1 + Z.of_nat k) r)
                            results)))
  | None => False
  end /\
  forall out, RetrievalTool.execute env self query year = Ok out -> out <> [].
Proof.
  assert (Hfmt : forall results,
    RetrievalTool.format_loop env 1 results [RetrievalTool.header results]
    = RetrievalTool.header results
      :: concat (imap (fun k r => RetrievalTool.format_result env (1 + Z.of_nat k) r)
                   results)).
  { intros results. rewrite format_loop_app, format_loop_entries. reflexivity. }
  assert (Hne : forall results out,
    match results with
    | [] => Ok (RetrievalTool.not_found query)
    | _ => Ok (join [LF] (RetrievalTool.format_loop env 1 results
                            [RetrievalTool.header results]))
    end = (Ok out : result pystr) -> out <> []).
  { intros [|r results] out H.
    - injection H as <-. discriminate.
    - rewrite Hfmt in H.
      assert (Hout : out = join [LF]
                (RetrievalTool.header (r :: results)
                 :: concat (imap (fun k r0 =>
                                    RetrievalTool.format_result env (1 + Z.of_nat k) r0)
                              (r :: results)))) by congruence.
      rewrite Hout. apply join_head_nonempty. discriminate. }
  unfold searches, RetrievalTool.execute.
  destruct year as [year|].
  - destruct (VectorStore.search _ _ _ _ (Some _) _) as [[|r results]|e] eqn:E1;
      cbn [Py.bind last].
    + destruct (VectorStore.search _ _ _ _ None _) as [[|r results]|e] eqn:E2;
        cbn [Py.bind].
      * split; [reflexivity|]. apply (Hne []).
      * split; [rewrite Hfmt; reflexivity|]. apply (Hne (r :: results)).
      * split; [reflexivity|discriminate].
    + split; [rewrite Hfmt; reflexivity|]. apply (Hne (r :: results)).
    + split; [reflexivity|discriminate].
  - destruct (VectorStore.search _ _ _ _ None _) as [[|r results]|e] eqn:E2;
      cbn [Py.bind last].
    + split; [reflexivity|]. apply (Hne []).
    + split; [rewrite Hfmt; reflexivity|]. apply (Hne (r :: results)).
    + split; [reflexivity|discriminate].
Qed.

(** The output for the sample index, whose records have no page and no
    source, and the entry of a result that has both. *)
Example retrieval_sample_output :
  RetrievalTool.execute SampleRetrieval.env SampleRetrieval.tool (py "revenue")
    (Some 2023)
  = Ok (join [LF]
          [ py "找到 2 条相关信息：" ++ [LF];
            py "[1] 来源: 第未知页";
            py "    相似度: 0.00";
            py "    内容: revenue 2023...";
            [];
            py "[2] 来源: 第未知页";
            py "    相似度: 0.00";
            py "    内容: revenue 2022...";
            [] ]).
Proof. vm_compute. reflexivity. Qed.

Example retrieval_sample_page_and_source :
  RetrievalTool.format_result SampleRetrieval.env 3
    (VectorStore.mkSearchResult (py "net sales")
       {[py "page" := VInt 12; py "source" := VStr (py "report.pdf")]}
       0.9%float (py "doc_4"))
  = [ py "[3] 来源: 第12页";
      py "    文件: report.pdf";
      py "    相似度: 0.00";
      py "    内容: net sales...";
      [] ].
Proof. vm_compute. reflexivity. Qed.

(** ** The loader *)

Lemma foldl_char_count pages :
  forall acc,
    foldl (fun acc page => acc + Loader.char_count page) acc pages
    = acc + total_length (map Loader.text pages).
Proof.
  induction pages as [|p rest IH]; intros acc; cbn [foldl map]; [cbn; lia|].
  rewrite IH. cbn [total_length foldr]. fold (total_length (map Loader.text rest)).
  unfold Loader.char_count. lia.
Qed.

(** X25.  For a document with at least one page, the length of
    [full_text] is [total_chars] plus two characters, the blank line that
    joins them, for every page after the first. *)
Theorem full_text_length (self : Loader.Document) :
  Loader.pages self <> [] ->
  len (Loader.full_text self)
  = Loader.total_chars self + 2 * (Loader.page_count self - 1).
Proof.
  intros Hne. unfold Loader.full_text, Loader.total_chars, Loader.page_count.
  rewrite len_join by (destruct (Loader.pages self); [congruence|discriminate]).
  rewrite foldl_char_count, length_map.
  change (len [LF; LF]) with 2. lia.
Qed.

Lemma full_text_length_witness :
  let self :=
    Loader.mkDocument
      [Loader.mkPage 1 (py "first page") ∅; Loader.mkPage 2 (py "second") ∅]
      ∅ (py "report.txt") in
  Loader.pages self <> [] /\
  len (Loader.full_text self)
  = Loader.total_chars self + 2 * (Loader.page_count self - 1).
Proof.
  split; [discriminate|].
  apply (full_text_length
           (Loader.mkDocument
              [Loader.mkPage 1 (py "first page") ∅; Loader.mkPage 2 (py "second") ∅]
              ∅ (py "report.txt"))).
  discriminate.
Defined.

Section Sections.

Variable lower : pystr -> pystr.
Variables min_section_length max_section_length : Z.

Lemma sections_loop_content paragraphs :
  forall sections current_section current_length,
    content (concat (Loader.sections_loop lower min_section_length
                       max_section_length paragraphs sections current_section
                       current_length))
    = content (concat sections) ++ content (concat current_section)
      ++ content (concat paragraphs).
Proof.
  induction paragraphs as [|para rest IH]; intros sections current len_.
  - cbn [Loader.sections_loop concat]. rewrite app_nil_r.
    destruct current as [|u current']; [cbn; rewrite app_nil_r; reflexivity|].
    rewrite concat_app, content_app. cbn [concat]. rewrite app_nil_r.
    rewrite content_join by reflexivity. reflexivity.
  - cbn [Loader.sections_loop concat]. rewrite (content_app para).
    rewrite <- (content_strip para).
    destruct (strip para) as [|c p'] eqn:Ep; [apply IH|].
    set (p := c :: p') in *.
    destruct (Loader.is_chapter_header lower p
              && negb (bool_decide (current = []))
              && (len_ >? min_section_length));
      [cbn [app]|];
      (destruct (_ >=? max_section_length);
       rewrite IH; cbn [concat]; rewrite ?app_nil_r, ?concat_app, ?content_app;
       cbn [concat]; rewrite ?app_nil_r, ?content_join by reflexivity;
       rewrite ?concat_app, ?content_app; cbn [concat];
       rewrite ?app_nil_r, <- ?app_assoc; reflexivity).
Qed.

Lemma join_nonempty sep (g : list pystr) :
  g <> [] -> Forall (fun u => u <> []) g -> join sep g <> [].
Proof.
  intros Hne Hall. destruct g as [|u g']; [congruence|].
  apply Forall_cons in Hall as [Hu _].
  destruct g' as [|v g'']; [exact Hu|].
  change (join sep (u :: v :: g'')) with (u ++ sep ++ join sep (v :: g'')).
  destruct u; [congruence|discriminate].
Qed.

Lemma sections_loop_nonempty paragraphs :
  forall sections current_section current_length,
    Forall (fun s => s <> []) sections ->
    Forall (fun u => u <> []) current_section ->
    Forall (fun s => s <> [])
      (Loader.sections_loop lower min_section_length max_section_length
         paragraphs sections current_section current_length).
Proof.
  induction paragraphs as [|para rest IH]; intros sections current len_ Hs Hc.
  - cbn [Loader.sections_loop].
    destruct current as [|u current']; [exact Hs|].
    apply Forall_app. split; [exact Hs|]. constructor; [|constructor].
    apply join_nonempty; [discriminate|exact Hc].
  - cbn [Loader.sections_loop].
    destruct (strip para) as [|c p'] eqn:Ep; [apply IH; assumption|].
    set (p := c :: p') in *.
    assert (Hp : p <> []) by discriminate.
    assert (Hflush : forall cur,
              Forall (fun u => u <> []) cur ->
              Forall (fun s => s <> []) (sections ++ [join [LF; LF] (cur ++ [p])])).
    { intros cur Hcur. apply Forall_app. split; [exact Hs|].
      constructor; [|constructor]. apply join_nonempty.
      - destruct cur; discriminate.
      - apply Forall_app. split; [exact Hcur|]. constructor; [exact Hp|constructor]. }
    destruct (Loader.is_chapter_header lower p
              && negb (bool_decide (current = []))
              && (len_ >? min_section_length)) eqn:Eh.
    + assert (Hcur : current <> []).
      { apply andb_true_iff in Eh as [Eh _]. apply andb_true_iff in Eh as [_ Eh].
        apply negb_true_iff, bool_decide_eq_false_1 in Eh. exact Eh. }
      assert (Hs' : Forall (fun s => s <> []) (sections ++ [join [LF; LF] current])).
      { apply Forall_app. split; [exact Hs|]. constructor; [|constructor].
        apply join_nonempty; assumption. }
      cbn [app].
      destruct (_ >=? max_section_length); apply IH; try assumption.
      * apply Forall_app. split; [exact Hs'|]. constructor; [exact Hp|constructor].
      * constructor.
      * constructor; [exact Hp|constructor].
    + destruct (_ >=? max_section_length); apply IH; try assumption.
      * apply Hflush, Hc.
      * constructor.
      * apply Forall_app. split; [exact Hc|]. constructor; [exact Hp|constructor].
Qed.

End Sections.

(** X26.  [_split_into_sections] loses nothing but whitespace, whatever
    the two section lengths and whatever counts as a chapter header: the
    characters of the sections that are not whitespace, read in order,
    are those of the text.  No section is empty. *)
Theorem sections_keep_content
  (lower : pystr -> pystr) (text : pystr)
  (min_section_length max_section_length : Z) :
  let sections :=
    Loader._split_into_sections lower text min_section_length max_section_length in
  content (concat sections) = content text /\
  Forall (fun section => section <> []) sections.
Proof.
  cbv zeta. unfold Loader._split_into_sections. split.
  - rewrite sections_loop_content. cbn [concat app].
    apply (content_split_blank_lines (length text)). lia.
  - apply sections_loop_nonempty; constructor.
Qed.

(** Two chapters: the header of the second closes the first section once
    it holds more than [min_section_length] characters. *)
Example sections_sample :
  Loader._split_into_sections (fun s => s)
    (py "# A" ++ [LF; LF] ++ py " body one " ++ [LF; LF; LF; LF]
     ++ py "第1章 B" ++ [LF; LF] ++ py "body two")
    5 2000
  = [ py "# A" ++ [LF; LF] ++ py "body one";
      py "第1章 B" ++ [LF; LF] ++ py "body two" ].
Proof. vm_compute. reflexivity. Qed.

Lemma pages_loop_app sections :
  forall i pages,
    Loader.pages_loop i sections pages = pages ++ Loader.pages_loop i sections [].
Proof.
  induction sections as [|s rest IH]; intros i pages.
  - cbn. rewrite app_nil_r. reflexivity.
  - cbn [Loader.pages_loop]. rewrite IH, (IH _ ([] ++ _)).
    cbn [app]. rewrite <- app_assoc. reflexivity.
Qed.

Lemma pages_loop_length sections :
  forall i, length (Loader.pages_loop i sections []) = length sections.
Proof.
  induction sections as [|s rest IH]; intros i; [reflexivity|].
  cbn [Loader.pages_loop app]. rewrite pages_loop_app, length_app, IH. reflexivity.
Qed.

Lemma get_page_loop_pages sections :
  forall i n,
    Loader.get_page_loop (Loader.pages_loop i sections []) n
    = if (i + 1 <=? n) && (n <=? i + Z.of_nat (length sections))
      then (fun section =>
              Loader.mkPage n section {[py "source_section" := VInt n]})
           <$> sections !! Z.to_nat (n - i - 1)
      else None.
Proof.
  induction sections as [|s rest IH]; intros i n.
  - cbn [Loader.pages_loop Loader.get_page_loop length].
    destruct (Z.leb_spec (i + 1) n), (Z.leb_spec n (i + Z.of_nat 0));
      cbn [andb]; reflexivity.
  - cbn [Loader.pages_loop app]. rewrite pages_loop_app.
    cbn [app Loader.get_page_loop Loader.page_num]. rewrite IH.
    destruct (Z.eqb_spec (i + 1) n) as [<-|Hne].
    + rewrite Z.leb_refl. cbn [andb length].
      destruct (Z.leb_spec (i + 1) (i + Z.of_nat (S (length rest)))); [|lia].
      replace (Z.to_nat (i + 1 - i - 1)) with 0%nat by lia. reflexivity.
    + cbn [length].
      destruct (Z.leb_spec (i + 1 + 1) n), (Z.leb_spec (i + 1) n),
        (Z.leb_spec n (i + 1 + Z.of_nat (length rest))),
        (Z.leb_spec n (i + Z.of_nat (S (length rest))));
        cbn [andb]; try reflexivity; try lia.
      replace (Z.to_nat (n - i - 1)) with (S (Z.to_nat (n - (i + 1) - 1))) by lia.
      reflexivity.
Qed.

(** X27.  The pages that [_load_text] builds are the sections of the
    content, numbered from one: the document has as many pages as there
    are sections, and [get_page(n)] returns, for n between one and that
    number, the page whose number is n, whose text is the n-th section and
    whose metadata records n as "source_section"; for any other n it
    returns nothing. *)
Theorem text_pages_are_the_sections
  (lower : pystr -> pystr) (content : pystr)
  (metadata : gmap pystr pyval) (source : pystr) :
  let sections := Loader._split_into_sections lower content 500 2000 in
  let document := Loader.mkDocument (Loader.text_pages lower content) metadata source in
  Loader.page_count document = Z.of_nat (length sections) /\
  forall n,
    Loader.get_page document n
    = if (1 <=? n) && (n <=? Z.of_nat (length sections))
      then (fun section =>
              Loader.mkPage n section {[py "source_section" := VInt n]})
           <$> sections !! Z.to_nat (n - 1)
      else None.
Proof.
  intros sections document. subst document.
  unfold Loader.page_count, Loader.get_page, Loader.text_pages.
  cbn [Loader.pages]. fold sections. split.
  - rewrite pages_loop_length. reflexivity.
  - intros n. rewrite get_page_loop_pages. cbn [Z.add].
    replace (n - 0 - 1) with (n - 1) by lia. reflexivity.
Qed.

(** ** The session *)

(** X28.  [add_document] keeps the paths of a session distinct: after the
    call the path is recorded, once, the paths recorded before come first
    in their order, and the messages are as before; recording the same
    path again changes nothing, not even the time of the last update. *)
Theorem add_document_keeps_paths_distinct
  (now : pystr) (self : Session.Session) (doc_path : pystr) :
  NoDup (Session.loaded_documents self) ->
  let self' := Session.add_document now self doc_path in
  NoDup (Session.loaded_documents self') /\
  doc_path ∈ Session.loaded_documents self' /\
  Session.loaded_documents self `prefix_of` Session.loaded_documents self' /\
  (forall later, Session.add_document later self' doc_path = self') /\
  Session.messages self' = Session.messages self.
Proof.
  intros Hnd. cbv zeta. unfold Session.add_document.
  destruct (decide (doc_path ∈ Session.loaded_documents self)) as [Hin|Hnin].
  - rewrite !bool_decide_eq_true_2 by exact Hin. cbn [negb].
    repeat split; assumption || reflexivity.
  - rewrite !bool_decide_eq_false_2 by exact Hnin.
    cbn [negb Session.loaded_documents Session.messages].
    repeat split.
    + apply NoDup_app. split; [exact Hnd|]. split; [|apply NoDup_singleton].
      intros x Hx Hx'. apply list_elem_of_singleton in Hx'. subst x. contradiction.
    + apply elem_of_app. right. left.
    + apply prefix_app_r. reflexivity.
    + intros later. rewrite bool_decide_eq_true_2 by (apply elem_of_app; right; left).
      reflexivity.
Qed.

Lemma add_document_keeps_paths_distinct_witness :
  let self :=
    Session.mkSession [(py "user", py "hello")] [py "a.pdf"]
      (py "t0") (py "t0") (py "financial_reports") in
  NoDup (Session.loaded_documents self) /\
  let self' := Session.add_document (py "t1") self (py "b.pdf") in
  NoDup (Session.loaded_documents self') /\
  py "b.pdf" ∈ Session.loaded_documents self' /\
  Session.loaded_documents self `prefix_of` Session.loaded_documents self' /\
  (forall later, Session.add_document later self' (py "b.pdf") = self') /\
  Session.messages self' = Session.messages self.
Proof.
  cbv zeta. split; [apply NoDup_singleton|].
  apply (add_document_keeps_paths_distinct (py "t1")
           (Session.mkSession [(py "user", py "hello")] [py "a.pdf"]
              (py "t0") (py "t0") (py "financial_reports"))
           (py "b.pdf")).
  apply NoDup_singleton.
Defined.
